(** * Background-script authentication manager of the fisher extension

    A shallow embedding of [background.js] (configuration, [Cache],
    [StorageManager], [ApiClient], [CookieManager], [AuthManager],
    [MessageHandlers] and the [chrome.runtime.onMessage] listener), of the
    parts of [integrated_category_badge.js] that do not build the page
    ([MessageSender], [TokenManager], [ApiClient], the buttons of
    [PaginationManager], [CategoryNavigator.fetchCategories]) and of
    [auth_content.js] ([DOMHelper], [AuthManager.processAuthentication],
    [initialize]), with the properties of the authentication throttling,
    request de-duplication and caching logic, and of the content scripts
    run against the background script.

    Conventions of the embedding:
    - JavaScript values that cross a message or HTTP boundary are JSON
      values, [JsVal]; numbers are the integers (millisecond time stamps,
      counters), so there is no NaN, and they print in decimal;
    - strings are sequences of 8-bit code units, compared code unit by
      code unit as JavaScript compares its 16-bit ones;
    - [Date.now()] is the field [now] of the [World]; it advances when a
      network request completes;
    - in [run_events] a handler runs to completion before the next event
      is handled, and a promise is represented by the outcome it settles
      with; the interleaving of calls of [performAuthentication] is the
      subject of [AuthGuard];
    - handlers in flight together are tasks ([Task]): code between two
      [await]s runs without interruption, and the other handlers take
      their turns at each [await] ([interleave]). *)

From stdpp Require Import base option list gmap strings pretty sorting.
From Stdlib Require Import ZArith Lia.
From Stdlib Require Strings.String.

Local Open Scope string_scope.
Local Open Scope list_scope.
Local Open Scope Z_scope.

(** ** JavaScript values *)

Module Js.

#[warnings="-register-all"]
Inductive JsVal : Type :=
| JUndef
| JNull
| JBool (b : bool)
| JNum (n : Z)
| JStr (s : string)
| JArr (elems : list JsVal)
| JObj (fields : list (string * JsVal)).

(** [!!v] *)
Definition truthy (v : JsVal) : bool :=
  match v with
  | JUndef | JNull => false
  | JBool b => b
  | JNum n => negb (n =? 0)
  | JStr s => negb (String.eqb s "")
  | JArr _ | JObj _ => true
  end.

(** [a || b] *)
Definition js_or (a b : JsVal) : JsVal := if truthy a then a else b.

(** [a === b].  Primitives are compared by value.  Objects and arrays are
    compared by reference; every object that reaches a comparison in this
    program was deserialised from a different message or response than the
    one it is compared with, so two objects are never the same reference. *)
Definition strict_eq (a b : JsVal) : bool :=
  match a, b with
  | JUndef, JUndef => true
  | JNull, JNull => true
  | JBool x, JBool y => Bool.eqb x y
  | JNum x, JNum y => x =? y
  | JStr x, JStr y => String.eqb x y
  | _, _ => false
  end.

(** [a !== b] *)
Definition strict_neq (a b : JsVal) : bool := negb (strict_eq a b).

(** Own properties of an object, first binding of a key. *)
Fixpoint assoc (k : string) (fs : list (string * JsVal)) : option JsVal :=
  match fs with
  | [] => None
  | (k', v) :: fs' => if String.eqb k k' then Some v else assoc k fs'
  end.

(** [o[k] = v] on the own properties: an existing key keeps its position. *)
Fixpoint obj_set (k : string) (v : JsVal) (fs : list (string * JsVal))
  : list (string * JsVal) :=
  match fs with
  | [] => [(k, v)]
  | (k', v') :: fs' =>
      if String.eqb k k' then (k, v) :: fs' else (k', v') :: obj_set k v fs'
  end.

(** [{ ...a, ...b }] on own properties. *)
Definition spread (a b : list (string * JsVal)) : list (string * JsVal) :=
  fold_left (fun acc kv => obj_set (fst kv) (snd kv) acc) b a.

(** [Array.prototype.join] on strings. *)
Fixpoint join (sep : string) (l : list string) : string :=
  match l with
  | [] => ""
  | [s] => s
  | s :: l' => s +:+ sep +:+ join sep l'
  end.

(** [String(v)], as used by template literals, [join] and the default
    comparison of [sort]. *)
Fixpoint ToString (v : JsVal) : string :=
  match v with
  | JUndef => "undefined"
  | JNull => "null"
  | JBool true => "true"
  | JBool false => "false"
  | JNum n => pretty n
  | JStr s => s
  | JArr l =>
      join "," (List.map (fun e => match e with
                                   | JUndef | JNull => ""
                                   | _ => ToString e
                                   end) l)
  | JObj _ => "[object Object]"
  end.

(** [typeof v === 'object'] *)
Definition typeof_object (v : JsVal) : bool :=
  match v with
  | JNull | JArr _ | JObj _ => true
  | _ => false
  end.

End Js.
Import Js.

(** ** Configuration ([CONFIG]) *)

Module CONFIG.
Definition TOKEN : string := "mbf_token".
Definition AUTH_META : string := "mbf_auth_meta".
Definition HEALTH_CACHE : string := "mbf_health_cache".
Definition CACHE_DURATION : Z := 5 * 60 * 1000.
Definition AUTH_THROTTLE_INTERVAL : Z := 2 * 60 * 60 * 1000.
Definition REQUIRED_COOKIES : list string :=
  ["theme"; "__ddg9_"; "mangabuff_session"; "XSRF-TOKEN"].
Definition REMEMBER_WEB_PREFIX : string := "remember_web".
End CONFIG.

(** ** The in-memory cache ([class Cache]) *)

Module Cache.

(** [Cache.data]: key to [{ value, expiry }]. *)
Abbreviation data := (gmap string (JsVal * Z)).

(** [Cache.set(key, value, ttl)] executed when [Date.now()] is [t]. *)
Definition set (t : Z) (key : string) (value : JsVal) (ttl : Z) (d : data)
  : data :=
  let expiry := t + ttl in
  <[key := (value, expiry)]> d.

(** [Cache.get(key)] executed when [Date.now()] is [t]: the result
    ([JNull] for [null]) and the cache afterwards. *)
Definition get (t : Z) (key : string) (d : data) : JsVal * data :=
  match d !! key with
  | None => (JNull, d)
  | Some (value, expiry) =>
      if t >? expiry then (JNull, delete key d) else (value, d)
  end.

Definition clear (d : data) : data := ∅.

(** The operations a client can run on the cache, for traces. *)
Inductive op :=
| OpSet (t : Z) (key : string) (value : JsVal) (ttl : Z)
| OpGet (t : Z) (key : string)
| OpClear.

Definition run_op (o : op) (d : data) : data :=
  match o with
  | OpSet t k v ttl => set t k v ttl d
  | OpGet t k => snd (get t k d)
  | OpClear => clear d
  end.

Definition run (ops : list op) (d : data) : data :=
  fold_left (fun d o => run_op o d) ops d.

Definition sets_key (key : string) (o : op) : Prop :=
  match o with
  | OpSet _ k _ _ => k = key
  | _ => False
  end.

End Cache.

(** ** The re-authentication decision ([AuthManager.shouldPerformAuth]) *)

Record AuthMeta := {
  lastTime : Z;
  lastUser : JsVal;
  lastCsrf : JsVal;
  lastAttempt : Z;
  failureCount : Z
}.

Inductive Reason :=
| no_token | no_csrf | no_user | user_changed | csrf_changed
| time_elapsed | retry_after_failure | throttled.

Definition reason_name (r : Reason) : string :=
  match r with
  | no_token => "no_token"
  | no_csrf => "no_csrf"
  | no_user => "no_user"
  | user_changed => "user_changed"
  | csrf_changed => "csrf_changed"
  | time_elapsed => "time_elapsed"
  | retry_after_failure => "retry_after_failure"
  | throttled => "throttled"
  end.

Record Decision := { shouldAuth : bool; reason : Reason }.

(** [now] is the value of [Date.now()] read on entry. *)
Definition shouldPerformAuth (now : Z) (token : JsVal) (meta : AuthMeta)
    (currentUser currentCsrf : JsVal) : Decision :=
  if negb (truthy token) then
    {| shouldAuth := true; reason := no_token |}
  else if negb (truthy currentCsrf) then
    {| shouldAuth := false; reason := no_csrf |}
  else if negb (truthy currentUser) then
    {| shouldAuth := false; reason := no_user |}
  else if strict_neq currentUser (lastUser meta) then
    {| shouldAuth := true; reason := user_changed |}
  else if strict_neq currentCsrf (lastCsrf meta) then
    {| shouldAuth := true; reason := csrf_changed |}
  else
    let timeElapsed := now - lastTime meta in
    if timeElapsed >? CONFIG.AUTH_THROTTLE_INTERVAL then
      {| shouldAuth := true; reason := time_elapsed |}
    else if (failureCount meta >? 0) && (now - lastAttempt meta >? 30000) then
      {| shouldAuth := true; reason := retry_after_failure |}
    else
      {| shouldAuth := false; reason := throttled |}.

(** ** The world of the background script *)

(** What [chrome.storage.local] and [StorageManager.cache] hold. *)
Inductive StoreVal :=
| SJs (v : JsVal)
| SMeta (m : AuthMeta)
| SHealth (category : JsVal) (timestamp : Z).

(** The object literal of the auth metadata record, as written at
    [getAuthMeta], [_executeAuth] and [forceReauth]. *)
Definition meta_object (m : AuthMeta) : list (string * JsVal) :=
  [("lastTime", JNum (lastTime m));
   ("lastUser", lastUser m);
   ("lastCsrf", lastCsrf m);
   ("lastAttempt", JNum (lastAttempt m));
   ("failureCount", JNum (failureCount m))].

(** A stored value seen as a JavaScript value. *)
Definition js_of_store (v : StoreVal) : JsVal :=
  match v with
  | SJs v => v
  | SMeta m => JObj (meta_object m)
  | SHealth category timestamp =>
      JObj [("category", category); ("timestamp", JNum timestamp)]
  end.

(** [Object.keys(o)] *)
Definition Object_keys (fs : list (string * JsVal)) : list string :=
  List.map fst fs.

(** Outcome of a computation or of a settled promise: a value, or a thrown
    error with its [message]. *)
Inductive Res (A : Type) :=
| Ok (a : A)
| Throw (msg : string).
Arguments Ok {A} a.
Arguments Throw {A} msg.

(** What the script cannot control: the answers of the HTTP API (by
    request number, endpoint and body), how long each request takes, and
    the cookies the browser holds for [CONFIG.TARGET_URL]. *)
Record Env := {
  env_fetch : nat -> string -> JsVal -> Res JsVal;
  env_latency : nat -> Z;
  env_cookies : list (string * string)
}.

Record World := {
  now : Z;
  cache : gmap string (JsVal * Z);
  sm_cache : gmap string (option StoreVal);
  storage : gmap string StoreVal;
  pendingAuthRequest : option (Res JsVal);
  PendingUserStatusRequests : gmap string (Res JsVal);
  (* history, not read by the script *)
  storage_writes : list string;
  requests : list (string * JsVal);
  responses : list JsVal
}.

Definition with_now (t : Z) (w : World) : World :=
  {| now := t; cache := cache w; sm_cache := sm_cache w;
     storage := storage w; pendingAuthRequest := pendingAuthRequest w;
     PendingUserStatusRequests := PendingUserStatusRequests w;
     storage_writes := storage_writes w; requests := requests w;
     responses := responses w |}.

Definition with_cache (d : gmap string (JsVal * Z)) (w : World) : World :=
  {| now := now w; cache := d; sm_cache := sm_cache w;
     storage := storage w; pendingAuthRequest := pendingAuthRequest w;
     PendingUserStatusRequests := PendingUserStatusRequests w;
     storage_writes := storage_writes w; requests := requests w;
     responses := responses w |}.

Definition with_sm_cache (c : gmap string (option StoreVal)) (w : World)
  : World :=
  {| now := now w; cache := cache w; sm_cache := c;
     storage := storage w; pendingAuthRequest := pendingAuthRequest w;
     PendingUserStatusRequests := PendingUserStatusRequests w;
     storage_writes := storage_writes w; requests := requests w;
     responses := responses w |}.

Definition with_storage (s : gmap string StoreVal) (ks : list string)
    (w : World) : World :=
  {| now := now w; cache := cache w; sm_cache := sm_cache w;
     storage := s; pendingAuthRequest := pendingAuthRequest w;
     PendingUserStatusRequests := PendingUserStatusRequests w;
     storage_writes := storage_writes w ++ ks; requests := requests w;
     responses := responses w |}.

Definition with_pendingAuth (p : option (Res JsVal)) (w : World) : World :=
  {| now := now w; cache := cache w; sm_cache := sm_cache w;
     storage := storage w; pendingAuthRequest := p;
     PendingUserStatusRequests := PendingUserStatusRequests w;
     storage_writes := storage_writes w; requests := requests w;
     responses := responses w |}.

Definition with_pendingUsers (p : gmap string (Res JsVal)) (w : World)
  : World :=
  {| now := now w; cache := cache w; sm_cache := sm_cache w;
     storage := storage w; pendingAuthRequest := pendingAuthRequest w;
     PendingUserStatusRequests := p;
     storage_writes := storage_writes w; requests := requests w;
     responses := responses w |}.

Definition with_request (r : string * JsVal) (w : World) : World :=
  {| now := now w; cache := cache w; sm_cache := sm_cache w;
     storage := storage w; pendingAuthRequest := pendingAuthRequest w;
     PendingUserStatusRequests := PendingUserStatusRequests w;
     storage_writes := storage_writes w; requests := requests w ++ [r];
     responses := responses w |}.

Definition with_response (v : JsVal) (w : World) : World :=
  {| now := now w; cache := cache w; sm_cache := sm_cache w;
     storage := storage w; pendingAuthRequest := pendingAuthRequest w;
     PendingUserStatusRequests := PendingUserStatusRequests w;
     storage_writes := storage_writes w; requests := requests w;
     responses := responses w ++ [v] |}.

(** The state of a freshly started service worker at time [t]. *)
Definition initial_world (t : Z) : World :=
  {| now := t; cache := ∅; sm_cache := ∅; storage := ∅;
     pendingAuthRequest := None; PendingUserStatusRequests := ∅;
     storage_writes := []; requests := []; responses := [] |}.

(** ** Computations: state and exceptions *)

Definition M (A : Type) : Type := World -> Res A * World.

Definition ret {A} (a : A) : M A := fun w => (Ok a, w).

Definition bind {A B} (m : M A) (k : A -> M B) : M B :=
  fun w =>
    match m w with
    | (Ok a, w') => k a w'
    | (Throw msg, w') => (Throw msg, w')
    end.

(** [throw new Error(msg)] *)
Definition throw {A} (msg : string) : M A := fun w => (Throw msg, w).

(** [try { m } catch (error) { handler(error.message) }] *)
Definition try_catch {A} (m : M A) (handler : string -> M A) : M A :=
  fun w =>
    match m w with
    | (Ok a, w') => (Ok a, w')
    | (Throw msg, w') => handler msg w'
    end.

(** Runs [m] to the promise it returns: the outcome is a value. *)
Definition promise_of {A} (m : M A) : M (Res A) :=
  fun w => let '(r, w') := m w in (Ok r, w').

(** [await p] *)
Definition await {A} (p : Res A) : M A := fun w => (p, w).

(** [try { m } finally { f }], for an [f] that does not throw. *)
Definition try_finally {A} (m : M A) (f : World -> World) : M A :=
  fun w => let '(r, w') := m w in (r, f w').

Definition modify (f : World -> World) : M unit := fun w => (Ok tt, f w).

Definition gets {A} (f : World -> A) : M A := fun w => (Ok (f w), w).

Declare Scope js_scope.
Delimit Scope js_scope with js.
Notation "'let*' x := m 'in' k" := (bind m (fun x => k))
  (at level 10, x name, m at level 100, k at level 200) : js_scope.
Local Open Scope js_scope.

(** [v.k]: a [TypeError] on [null] and [undefined]; beyond own properties
    of objects, none of the property names read by this script exists on
    a JSON value. *)
Definition prop (v : JsVal) (k : string) : M JsVal :=
  match v with
  | JUndef | JNull => throw "TypeError: Cannot read properties"
  | JObj fs => ret (default JUndef (assoc k fs))
  | _ => ret JUndef
  end.

(** Own enumerable properties copied by an object spread. *)
Definition own_fields (v : JsVal) : list (string * JsVal) :=
  match v with
  | JObj fs => fs
  | _ => []
  end.

Definition Date_now : M Z := gets now.

(** ** The script *)

(** *** [Cache], as used by the script *)

Definition Cache_set (key : string) (value : JsVal) (ttl : Z) : M unit :=
  modify (fun w => with_cache (Cache.set (now w) key value ttl (cache w)) w).

Definition Cache_get (key : string) : M JsVal :=
  fun w =>
    let '(v, d) := Cache.get (now w) key (cache w) in
    (Ok v, with_cache d w).

Definition Cache_clear : M unit :=
  modify (fun w => with_cache (Cache.clear (cache w)) w).

(** *** [class StorageManager] *)

Module StorageManager.

(** [data[key] || null] *)
Definition read (key : string) (s : gmap string StoreVal) : option StoreVal :=
  match s !! key with
  | Some v => if truthy (js_of_store v) then Some v else None
  | None => None
  end.

Definition get (key : string) : M (option StoreVal) :=
  fun w =>
    match sm_cache w !! key with
    | Some v => (Ok v, w)
    | None =>
        let value := read key (storage w) in
        (Ok value, with_sm_cache (<[key := value]> (sm_cache w)) w)
    end.

Definition remove (key : string) : M unit :=
  modify (fun w =>
    with_storage (delete key (storage w)) []
      (with_sm_cache (delete key (sm_cache w)) w)).

Definition set (key : string) (value : StoreVal) : M unit :=
  modify (fun w =>
    with_storage (<[key := value]> (storage w)) [key]
      (with_sm_cache (<[key := Some value]> (sm_cache w)) w)).

Definition invalidate (key : string) : M unit :=
  modify (fun w => with_sm_cache (delete key (sm_cache w)) w).

Definition clearCache : M unit :=
  modify (fun w => with_sm_cache ∅ w).

End StorageManager.

(** *** [class ApiClient] *)

Module ApiClient.

(** [makeRequest(endpoint, options)]: the request is issued, time passes,
    and the call returns the parsed JSON or throws (HTTP status, network
    error, timeout). [body] is the value given to [JSON.stringify], or the
    query parameters of a GET. *)
Definition makeRequest (env : Env) (endpoint : string) (body : JsVal)
  : M JsVal :=
  fun w =>
    let n := length (requests w) in
    let w' := with_now (now w + env_latency env n)
                (with_request (endpoint, body) w) in
    (env_fetch env n endpoint body, w').

Definition checkHealth (env : Env) : M JsVal :=
  let cacheKey := "health_check" in
  let* cached := Cache_get cacheKey in
  if truthy cached then ret cached
  else
    try_catch
      (let* data := makeRequest env "/health" JUndef in
       let* _ := prop data "status" in
       let* _ := Cache_set cacheKey data 60000 in
       let* category := prop data "category" in
       let* _ :=
         (if truthy category then
            let* t := Date_now in
            StorageManager.set CONFIG.HEALTH_CACHE (SHealth category t)
          else ret tt) in
       ret data)
      (fun message =>
         let errorResponse :=
           JObj [("status", JStr "unhealthy"); ("error", JStr message)] in
         let* _ := Cache_set cacheKey errorResponse 30000 in
         ret errorResponse).

Definition sendAuthData (env : Env) (cookieData csrfToken : JsVal)
  : M JsVal :=
  makeRequest env "/set_http_data"
    (JObj [("cookie", cookieData); ("csrf_token", csrfToken)]).

End ApiClient.

(** *** [class CookieManager] *)

Module CookieManager.

(** [chrome.cookies.get({ url, name })]: the value of the cookie, if any. *)
Definition cookies_get (env : Env) (name : string) : option string :=
  snd <$> List.find (fun c => String.eqb (fst c) name) (env_cookies env).

Definition getRequiredCookies (env : Env) : M JsVal :=
  let cacheKey := "required_cookies" in
  let* cached := Cache_get cacheKey in
  if truthy cached then ret cached
  else
    let result :=
      fold_left
        (fun result name =>
           match cookies_get env name with
           | Some value =>
               if truthy (JStr value) then obj_set name (JStr value) result
               else result
           | None => result
           end)
        CONFIG.REQUIRED_COOKIES [] in
    let* _ := Cache_set cacheKey (JObj result) 30000 in
    ret (JObj result).

Definition getRememberWebCookies (env : Env) : M JsVal :=
  let cacheKey := "remember_cookies" in
  let* cached := Cache_get cacheKey in
  if truthy cached then ret cached
  else
    let allCookies := env_cookies env in
    let result :=
      fold_left
        (fun acc cookie => obj_set (fst cookie) (JStr (snd cookie)) acc)
        (List.filter
           (fun cookie => String.prefix CONFIG.REMEMBER_WEB_PREFIX (fst cookie))
           allCookies)
        [] in
    let* _ := Cache_set cacheKey (JObj result) 30000 in
    ret (JObj result).

Definition getAllRelevantCookies (env : Env) : M JsVal :=
  let* required := getRequiredCookies env in
  let* remember := getRememberWebCookies env in
  let result := spread (own_fields required) (own_fields remember) in
  ret (JObj result).

End CookieManager.

(** *** Arrays *)

Definition nullish (v : JsVal) : bool :=
  match v with
  | JUndef | JNull => true
  | _ => false
  end.

(** [Array.prototype.join]: [null] and [undefined] give the empty string. *)
Definition Array_join (sep : string) (l : list JsVal) : string :=
  join sep (List.map (fun e => if nullish e then "" else ToString e) l).

(** The default comparison of [Array.prototype.sort]: [x] may stay before
    [y] when [String(x)] is not greater than [String(y)]. *)
Definition sort_le (x y : JsVal) : bool :=
  String.leb (ToString x) (ToString y).

Fixpoint sort_insert (x : JsVal) (l : list JsVal) : list JsVal :=
  match l with
  | [] => [x]
  | y :: l' => if sort_le x y then x :: y :: l' else y :: sort_insert x l'
  end.

(** [Array.prototype.sort()] without a comparator: a stable sort by string
    value, the [undefined] elements last. *)
Definition Array_sort (l : list JsVal) : list JsVal :=
  foldr sort_insert []
    (List.filter (fun v => negb (strict_eq v JUndef)) l)
  ++ List.filter (fun v => strict_eq v JUndef) l.

Fixpoint mapM {A B} (f : A -> M B) (l : list A) : M (list B) :=
  match l with
  | [] => ret []
  | x :: l' =>
      let* y := f x in
      let* ys := mapM f l' in
      ret (y :: ys)
  end.

(** [`${cardId}:${users.map(u => u.user_id || u).sort().join(',')}`], the
    key of [ApiClient._makeCacheKey] and of [FETCH_USERS_CARD_STATUS]. *)
Definition _makeCacheKey (cardId : JsVal) (users : list JsVal) : M string :=
  let* ids :=
    mapM (fun u => let* user_id := prop u "user_id" in ret (js_or user_id u))
      users in
  ret (ToString cardId +:+ ":" +:+ Array_join "," (Array_sort ids)).

(** *** [class AuthManager] *)

Module AuthManager.

Definition default_meta : AuthMeta :=
  {| lastTime := 0; lastUser := JNull; lastCsrf := JNull;
     lastAttempt := 0; failureCount := 0 |}.

(** Only [setAuthMeta] writes under [CONFIG.STORAGE_KEYS.AUTH_META], so the
    value found there is a metadata record. *)
Definition meta_of_store (v : StoreVal) : AuthMeta :=
  match v with
  | SMeta m => m
  | _ => default_meta
  end.

Definition getAuthMeta : M AuthMeta :=
  let* meta := StorageManager.get CONFIG.AUTH_META in
  ret (match meta with
       | Some v => meta_of_store v
       | None => default_meta
       end).

Definition setAuthMeta (meta : AuthMeta) : M unit :=
  StorageManager.set CONFIG.AUTH_META (SMeta meta).

Definition getToken : M JsVal :=
  let* v := StorageManager.get CONFIG.TOKEN in
  ret (match v with
       | Some v => js_of_store v
       | None => JNull
       end).

Definition setToken (token : JsVal) : M unit :=
  if truthy token then StorageManager.set CONFIG.TOKEN (SJs token)
  else ret tt.

(** The [try] block of [_executeAuth]; [startTime] was read on entry. *)
Definition _executeAuth_try (env : Env) (currentUser csrfToken : JsVal)
    (startTime : Z) : M JsVal :=
  let* healthCheck := ApiClient.checkHealth env in
  let* status := prop healthCheck "status" in
  let* _ :=
    (if strict_neq status (JStr "healthy") then
       let* error := prop healthCheck "error" in
       throw ("API unhealthy: "
              +:+ ToString (js_or error (JStr "Unknown error")))
     else ret tt) in
  let* cookies := CookieManager.getAllRelevantCookies env in
  let* _ :=
    (if (length (Object_keys (own_fields cookies)) =? 0)%nat then
       throw "No cookies found"
     else ret tt) in
  let* response := ApiClient.sendAuthData env cookies csrfToken in
  let* _ :=
    (if negb (truthy response) || negb (typeof_object response) then
       throw "Invalid API response"
     else ret tt) in
  let* token := prop response "token" in
  let* _ := (if truthy token then setToken token else ret tt) in
  let* t := Date_now in
  let authMeta :=
    {| lastTime := t; lastUser := currentUser; lastCsrf := csrfToken;
       lastAttempt := startTime; failureCount := 0 |} in
  let* _ := setAuthMeta authMeta in
  let* t' := Date_now in
  ret (JObj [("success", JBool true); ("token", token);
             ("duration", JNum (t' - startTime))]).

(** The [catch] block of [_executeAuth].  Nothing throws after [authMeta]
    is reassigned in the [try] block, so [authMeta] is the record read on
    entry. *)
Definition _executeAuth_catch (startTime : Z) (authMeta : AuthMeta)
    (message : string) : M JsVal :=
  let authMeta' :=
    {| lastTime := lastTime authMeta; lastUser := lastUser authMeta;
       lastCsrf := lastCsrf authMeta; lastAttempt := startTime;
       failureCount :=
         (if failureCount authMeta =? 0 then 0
          else failureCount authMeta) + 1 |} in
  let* _ := setAuthMeta authMeta' in
  let* t := Date_now in
  ret (JObj [("success", JBool false); ("error", JStr message);
             ("duration", JNum (t - startTime))]).

(** [_executeAuth(currentUser, csrfToken)] *)
Definition _executeAuth (env : Env) (currentUser csrfToken : JsVal)
  : M JsVal :=
  let* startTime := Date_now in
  let* authMeta := getAuthMeta in
  try_catch
    (_executeAuth_try env currentUser csrfToken startTime)
    (_executeAuth_catch startTime authMeta).

(** [performAuthentication(authData)].  [_executeAuth] does not read the
    guard, so running it before the assignment of its promise to
    [pendingAuthRequest] gives the same result. *)
Definition performAuthentication (env : Env) (authData : JsVal) : M JsVal :=
  let* currentUser := prop authData "currentUser" in
  let* csrfToken := prop authData "csrfToken" in
  let* pending := gets pendingAuthRequest in
  match pending with
  | Some p => await p
  | None =>
      let* p := promise_of (_executeAuth env currentUser csrfToken) in
      let* _ := modify (with_pendingAuth (Some p)) in
      try_finally (await p) (with_pendingAuth None)
  end.

Definition handleAuthRequest (env : Env) (authData : JsVal) : M JsVal :=
  try_catch
    (let* currentUser := prop authData "currentUser" in
     let* csrfToken := prop authData "csrfToken" in
     if negb (truthy currentUser) || negb (truthy csrfToken) then
       ret (JObj [("success", JBool false);
                  ("error", JStr "Missing required auth data");
                  ("shouldAuth", JBool false)])
     else
       let* token := getToken in
       let* meta := getAuthMeta in
       let* t := Date_now in
       let d := shouldPerformAuth t token meta currentUser csrfToken in
       if negb (shouldAuth d) then
         ret (JObj [("success", JBool true); ("shouldAuth", JBool false);
                    ("reason", JStr (reason_name (reason d)));
                    ("token", token)])
       else
         let* result := performAuthentication env authData in
         ret (JObj (spread (own_fields result)
                      [("shouldAuth", JBool true);
                       ("reason", JStr (reason_name (reason d)))])))
    (fun message =>
       ret (JObj [("success", JBool false); ("error", JStr message);
                  ("shouldAuth", JBool false)])).

Definition getAuthStatus (env : Env) : M JsVal :=
  let* token := getToken in
  let* meta := getAuthMeta in
  let* health := ApiClient.checkHealth env in
  let* status := prop health "status" in
  ret (JObj [("hasToken", JBool (truthy token));
             ("lastAuthTime", JNum (lastTime meta));
             ("lastUser", lastUser meta);
             ("failureCount",
              JNum (if failureCount meta =? 0 then 0 else failureCount meta));
             ("isHealthy", JBool (strict_eq status (JStr "healthy")))]).

Definition forceReauth (env : Env) (authData : JsVal) : M JsVal :=
  let* _ := setAuthMeta {| lastTime := 0; lastUser := JNull;
                           lastCsrf := JNull; lastAttempt := 0;
                           failureCount := 0 |} in
  let* _ := Cache_clear in
  let* _ := StorageManager.invalidate CONFIG.TOKEN in
  handleAuthRequest env authData.

End AuthManager.

(** *** [MessageHandlers] *)

Record Message := { msg_type : JsVal; msg_data : JsVal }.

(** [sendResponse(v)] of the message being handled. *)
Definition sendResponse (v : JsVal) : M unit := modify (with_response v).

Definition failure (message : string) : JsVal :=
  JObj [("success", JBool false); ("error", JStr message)].

Module MessageHandlers.

Definition HANDLE_AUTH (env : Env) (msg : Message) : M unit :=
  try_catch
    (let* result := AuthManager.handleAuthRequest env (msg_data msg) in
     sendResponse result)
    (fun message => sendResponse (failure message)).

Definition GET_AUTH_STATUS (env : Env) (msg : Message) : M unit :=
  try_catch
    (let* status := AuthManager.getAuthStatus env in
     sendResponse (JObj [("success", JBool true); ("status", status)]))
    (fun message => sendResponse (failure message)).

Definition FORCE_REAUTH (env : Env) (msg : Message) : M unit :=
  try_catch
    (let* result := AuthManager.forceReauth env (msg_data msg) in
     sendResponse result)
    (fun message => sendResponse (failure message)).

Definition CLEAR_TOKEN (env : Env) (msg : Message) : M unit :=
  let* _ := StorageManager.remove CONFIG.TOKEN in
  sendResponse (JObj [("success", JBool true)]).

Definition GET_TOKEN (env : Env) (msg : Message) : M unit :=
  try_catch
    (let* token := AuthManager.getToken in
     sendResponse (JObj [("token", token)]))
    (fun _ => sendResponse (JObj [("token", JNull)])).

Definition SET_USER_STATUS (env : Env) (msg : Message) : M unit :=
  try_catch
    (let* user_id := prop (msg_data msg) "user_id" in
     let* category := prop (msg_data msg) "category" in
     let* _ :=
       (if negb (truthy user_id) || negb (truthy category) then
          throw "Missing required parameters"
        else ret tt) in
     let* token := AuthManager.getToken in
     let* _ :=
       (if negb (truthy token) then
          throw "No authentication token available"
        else ret tt) in
     let* response :=
       ApiClient.makeRequest env "/set_user_status"
         (JObj [("token", token); ("user_id", user_id);
                ("category", category)]) in
     sendResponse (JObj [("success", JBool true); ("data", response)]))
    (fun message => sendResponse (failure message)).

Definition GET_COOKIES (env : Env) (msg : Message) : M unit :=
  try_catch
    (let* cookies := CookieManager.getAllRelevantCookies env in
     sendResponse cookies)
    (fun _ => sendResponse (JObj [])).

Definition CHECK_HEALTH (env : Env) (msg : Message) : M unit :=
  try_catch
    (let* data := ApiClient.checkHealth env in
     let* status := prop data "status" in
     sendResponse (JObj [("healthy", JBool (strict_eq status (JStr "healthy")));
                         ("data", data)]))
    (fun message =>
       sendResponse
         (JObj [("healthy", JBool false);
                ("data", JObj [("status", JStr "unhealthy");
                               ("error", JStr message)])])).

Definition GET_HEALTH_CATEGORY (env : Env) (msg : Message) : M unit :=
  try_catch
    (let* cached := StorageManager.get CONFIG.HEALTH_CACHE in
     let* t := Date_now in
     match cached with
     | Some (SHealth category timestamp) =>
         if t - timestamp <? CONFIG.CACHE_DURATION then
           sendResponse (js_or category (JObj []))
         else
           let* data := ApiClient.checkHealth env in
           let* category := prop data "category" in
           sendResponse (js_or category (JObj []))
     | _ =>
         let* data := ApiClient.checkHealth env in
         let* category := prop data "category" in
         sendResponse (js_or category (JObj []))
     end)
    (fun _ => sendResponse (JObj [])).

(** The promise stored in [PendingUserStatusRequests] is represented by its
    outcome; both reactions registered with [then]/[catch] are run here. *)
Definition FETCH_USERS_CARD_STATUS (env : Env) (msg : Message) : M unit :=
  try_catch
    (let* token := prop (msg_data msg) "token" in
     let* card_id := prop (msg_data msg) "card_id" in
     let* users := prop (msg_data msg) "users" in
     match users with
     | JArr (u :: us) =>
         if negb (truthy token) || negb (truthy card_id) then
           throw "Invalid input parameters"
         else
           let* key := _makeCacheKey card_id (u :: us) in
           let* pending := gets PendingUserStatusRequests in
           match pending !! key with
           | Some p =>
               match p with
               | Ok data =>
                   sendResponse
                     (JObj [("success", JBool true); ("data", data)])
               | Throw message => sendResponse (failure message)
               end
           | None =>
               let* promise :=
                 promise_of
                   (ApiClient.makeRequest env "/users_card_status"
                      (JObj [("token", token); ("card_id", card_id);
                             ("users", users)])) in
               let* _ :=
                 modify (fun w =>
                   with_pendingUsers
                     (<[key := promise]> (PendingUserStatusRequests w)) w) in
               let* _ :=
                 modify (fun w =>
                   with_pendingUsers
                     (delete key (PendingUserStatusRequests w)) w) in
               match promise with
               | Ok data =>
                   sendResponse
                     (JObj [("success", JBool true); ("data", data)])
               | Throw message => sendResponse (failure message)
               end
           end
     | _ => throw "Invalid input parameters"
     end)
    (fun message => sendResponse (failure message)).

Definition FETCH_USERS_BY_CATEGORY (env : Env) (msg : Message) : M unit :=
  try_catch
    (let* category := prop (msg_data msg) "category" in
     let* card_id := prop (msg_data msg) "card_id" in
     let* page := prop (msg_data msg) "page" in
     let* _ :=
       (if negb (truthy category) || negb (truthy card_id) then
          throw "Missing required parameters"
        else ret tt) in
     let* token := AuthManager.getToken in
     let* _ :=
       (if negb (truthy token) then
          throw "No authentication token available"
        else ret tt) in
     let* data :=
       ApiClient.makeRequest env "/get_cards_by_category"
         (JObj [("token", token); ("category", category);
                ("card_id", card_id); ("page", js_or page (JNum 0))]) in
     sendResponse (JObj [("success", JBool true); ("data", data)]))
    (fun message => sendResponse (failure message)).

(** The own properties of the [MessageHandlers] object literal. *)
Definition own : list (string * (Env -> Message -> M unit)) :=
  [("HANDLE_AUTH", HANDLE_AUTH);
   ("GET_AUTH_STATUS", GET_AUTH_STATUS);
   ("FORCE_REAUTH", FORCE_REAUTH);
   ("CLEAR_TOKEN", CLEAR_TOKEN);
   ("GET_TOKEN", GET_TOKEN);
   ("SET_USER_STATUS", SET_USER_STATUS);
   ("GET_COOKIES", GET_COOKIES);
   ("CHECK_HEALTH", CHECK_HEALTH);
   ("GET_HEALTH_CATEGORY", GET_HEALTH_CATEGORY);
   ("FETCH_USERS_CARD_STATUS", FETCH_USERS_CARD_STATUS);
   ("FETCH_USERS_BY_CATEGORY", FETCH_USERS_BY_CATEGORY)].

(** [MessageHandlers] is an object literal, so a property that it does not
    own is looked up on [Object.prototype]. *)
Definition Object_prototype : list string :=
  ["constructor"; "__defineGetter__"; "__defineSetter__"; "hasOwnProperty";
   "__lookupGetter__"; "__lookupSetter__"; "isPrototypeOf";
   "propertyIsEnumerable"; "toString"; "valueOf"; "__proto__";
   "toLocaleString"].

Inductive Property :=
| Handler (h : Env -> Message -> M unit)
| Inherited
| Undefined.

Fixpoint find_own (key : string)
    (l : list (string * (Env -> Message -> M unit)))
  : option (Env -> Message -> M unit) :=
  match l with
  | [] => None
  | (k, h) :: l' => if String.eqb key k then Some h else find_own key l'
  end.

(** [MessageHandlers[key]] *)
Definition lookup (key : string) : Property :=
  match find_own key own with
  | Some h => Handler h
  | None =>
      if List.existsb (String.eqb key) Object_prototype then Inherited
      else Undefined
  end.

End MessageHandlers.

(** *** The listeners *)

(** [chrome.runtime.onMessage] listener.  An inherited property is truthy;
    called with these arguments and no receiver it throws a [TypeError] or
    returns a value without a [catch] method, and the listener throws. *)
Definition onMessage (env : Env) (message : Message) : M bool :=
  match MessageHandlers.lookup (ToString (msg_type message)) with
  | MessageHandlers.Undefined =>
      let* _ :=
        sendResponse (JObj [("error", JStr "Unknown message type")]) in
      ret false
  | MessageHandlers.Handler handler =>
      let* _ :=
        try_catch (handler env message)
          (fun message => sendResponse (failure message)) in
      ret true
  | MessageHandlers.Inherited => throw "TypeError"
  end.

(** [chrome.runtime.onStartup] listener. *)
Definition onStartup : M unit :=
  let* _ := Cache_clear in
  StorageManager.clearCache.

(** The [setInterval] callback. *)
Definition periodicCleanup : M unit := Cache_clear.

(** Everything the background script ever runs. *)
Inductive Event :=
| EvMessage (message : Message)
| EvStartup
| EvInterval.

Definition run_event (env : Env) (e : Event) (w : World) : World :=
  match e with
  | EvMessage message => snd (onMessage env message w)
  | EvStartup => snd (onStartup w)
  | EvInterval => snd (periodicCleanup w)
  end.

Definition run_events (env : Env) (es : list Event) (w : World) : World :=
  fold_left (fun w e => run_event env e w) es w.

(** ** Interleaved calls of [AuthManager.performAuthentication]

    The event loop may interleave any number of calls.  Only the guard is
    of interest here, so the body of [_executeAuth] is abstracted to a
    promise that is running until it settles with some outcome. *)

Module AuthGuard.

Inductive PromiseState :=
| Running
| Settled (outcome : Res JsVal).

Record State := {
  (** [AuthManager.pendingAuthRequest]: [None] is [null], [Some p] the
      [p]-th promise created by [_executeAuth] *)
  guard : option nat;
  (** the promises created by [_executeAuth] so far *)
  promises : list PromiseState;
  (** the calls suspended at [await this.pendingAuthRequest] inside the
      [try], each with the promise it awaits *)
  suspended : list nat
}.

Definition initial : State :=
  {| guard := None; promises := []; suspended := [] |}.

Inductive Event :=
(** a call of [performAuthentication] runs up to its [return] or [await] *)
| Call
(** the [p]-th [_executeAuth] finishes, resolving or rejecting *)
| Settle (p : nat) (outcome : Res JsVal)
(** a call suspended on promise [p] resumes and runs its [finally] *)
| Resume (p : nat).

(** What a step hands back to the caller. *)
Inductive Output :=
| Returned (p : nat)
| Started (p : nat)
| Silent.

Definition step (e : Event) (s : State) : option (State * Output) :=
  match e with
  | Call =>
      match guard s with
      | Some p => Some (s, Returned p)
      | None =>
          let p := length (promises s) in
          Some ({| guard := Some p;
                   promises := promises s ++ [Running];
                   suspended := p :: suspended s |}, Started p)
      end
  | Settle p outcome =>
      match promises s !! p with
      | Some Running =>
          Some ({| guard := guard s;
                   promises := <[p := Settled outcome]> (promises s);
                   suspended := suspended s |}, Silent)
      | _ => None
      end
  | Resume p =>
      match promises s !! p with
      | Some (Settled _) =>
          if bool_decide (p ∈ suspended s) then
            Some ({| guard := None;
                     promises := promises s;
                     suspended :=
                       List.filter (fun q => negb (Nat.eqb q p)) (suspended s) |},
                  Silent)
          else None
      | _ => None
      end
  end.

Fixpoint run (es : list Event) (s : State) : option State :=
  match es with
  | [] => Some s
  | e :: es' =>
      match step e s with
      | Some (s', _) => run es' s'
      | None => None
      end
  end.

(** The [_executeAuth] bodies in progress. *)
Definition running (s : State) : list nat :=
  List.filter
    (fun p => match promises s !! p with Some Running => true | _ => false end)
    (seq 0 (length (promises s))).

End AuthGuard.

(** ** Reasoning about computations

    [frame R m]: whatever [m] returns or throws, it changes the world
    within [R].  [post R Q m]: if [m] throws it changed the world within
    [R]; if it returns [a], then [Q] relates the worlds and [a]. *)

Definition frame {A} (R : relation World) (m : M A) : Prop :=
  forall w, R w (snd (m w)).

Definition post {A} (R : relation World) (Q : World -> A -> World -> Prop)
    (m : M A) : Prop :=
  forall w, match m w with
            | (Ok a, w') => Q w a w'
            | (Throw _, w') => R w w'
            end.

Definition nothrow {A} (m : M A) : Prop :=
  forall w, exists a, fst (m w) = Ok a.

(** The primitive state changes stay within [R], for the keys, stored
    values and requests that satisfy the given conditions. *)
Record Framed (R : relation World) (okkey okdel : string -> Prop)
    (okput : string -> StoreVal -> Prop) (okreq : string * JsVal -> Prop)
  : Prop := {
  R_now : forall w t, R w (with_now t w);
  R_cache : forall w d, R w (with_cache d w);
  R_request : forall w r, okreq r -> R w (with_request r w);
  R_pendingAuth : forall w p, R w (with_pendingAuth p w);
  R_pendingUsers : forall w p, R w (with_pendingUsers p w);
  R_get : forall k, okkey k -> frame R (StorageManager.get k);
  R_set : forall k v, okput k v -> frame R (StorageManager.set k v);
  R_remove : forall k, okdel k -> frame R (StorageManager.remove k);
  R_invalidate : forall k, okdel k -> frame R (StorageManager.invalidate k)
}.

(** ** Keys written to [chrome.storage.local] *)

(** The keys of [CONFIG.STORAGE_KEYS]. *)
Definition storage_key (k : string) : Prop :=
  k = CONFIG.TOKEN \/ k = CONFIG.AUTH_META \/ k = CONFIG.HEALTH_CACHE.

(** The keys the specification names: the token and the auth metadata. *)
Definition spec_storage_key (k : string) : Prop :=
  k = CONFIG.TOKEN \/ k = CONFIG.AUTH_META.

(** From [w] to [w'] only keys satisfying [P] were written. *)
Definition writes_within (P : string -> Prop) (w w' : World) : Prop :=
  exists ks : list string,
    storage_writes w' = storage_writes w ++ ks /\ Forall P ks.

(** An API that is healthy and reports categories, and accepts any
    authentication with a token. *)
Definition healthy_api : Env :=
  {| env_fetch := fun _ endpoint _ =>
       if String.eqb endpoint "/health" then
         Ok (JObj [("status", JStr "healthy");
                   ("category", JObj [("trade", JStr "T")])])
       else if String.eqb endpoint "/set_http_data" then
         Ok (JObj [("token", JStr "tok")])
       else Throw "HTTP 404: Not Found";
     env_latency := fun _ => 10;
     env_cookies := [("mangabuff_session", "s1"); ("theme", "dark")] |}.

Definition check_health_message : Message :=
  {| msg_type := JStr "CHECK_HEALTH"; msg_data := JUndef |}.

(** ** Responses *)

Definition same_responses (w w' : World) : Prop :=
  responses w' = responses w.

Definition one_response {A} (w : World) (_ : A) (w' : World) : Prop :=
  exists r, responses w' = responses w ++ [r].

(** A message whose [type] names a method of [Object.prototype]. *)
Definition toString_message : Message :=
  {| msg_type := JStr "toString"; msg_data := JUndef |}.

(** ** The auth metadata record *)



(** What is stored under the auth-meta key is a metadata record. *)
Definition meta_typed (w : World) : Prop :=
  (forall v, storage w !! CONFIG.AUTH_META = Some v -> exists m, v = SMeta m)
  /\ (forall v, sm_cache w !! CONFIG.AUTH_META = Some (Some v) ->
       exists m, v = SMeta m).

Definition keeps_meta_typed (w w' : World) : Prop :=
  meta_typed w -> meta_typed w'.

(** ** Effects of an authentication attempt *)

(** The token is neither written, removed nor re-read. *)
Definition token_kept (w w' : World) : Prop :=
  storage w' !! CONFIG.TOKEN = storage w !! CONFIG.TOKEN
  /\ sm_cache w' !! CONFIG.TOKEN = sm_cache w !! CONFIG.TOKEN.

(** From [w] to [w'] only requests satisfying [P] were issued. *)
Definition requests_within (P : string * JsVal -> Prop) (w w' : World)
  : Prop :=
  exists rs : list (string * JsVal),
    requests w' = requests w ++ rs /\ Forall P rs.

(** What a successful [try] block of [_executeAuth] leaves behind. *)
Definition auth_succeeded (user csrf : JsVal) (startTime : Z)
    (res : JsVal) (w' : World) : Prop :=
  let meta := {| lastTime := now w'; lastUser := user; lastCsrf := csrf;
                 lastAttempt := startTime; failureCount := 0 |} in
  (exists token,
     res = JObj [("success", JBool true); ("token", token);
                 ("duration", JNum (now w' - startTime))])
  /\ storage w' !! CONFIG.AUTH_META = Some (SMeta meta)
  /\ sm_cache w' !! CONFIG.AUTH_META = Some (Some (SMeta meta)).

(** ** The key of pending user-status requests *)

(** [u.user_id || u], as a value or the [TypeError] of reading a property
    of [null] or [undefined]. *)
Definition id_of (u : JsVal) : Res JsVal :=
  match u with
  | JUndef | JNull => Throw "TypeError: Cannot read properties"
  | JObj fs => Ok (js_or (default JUndef (assoc "user_id" fs)) u)
  | _ => Ok u
  end.

Definition string_le (a b : string) : Prop := String.leb a b = true.

(** The message of [ApiClient.fetchUserStatuses]. *)
Definition fetch_status_message (token card_id : JsVal) (users : list JsVal)
  : Message :=
  {| msg_type := JStr "FETCH_USERS_CARD_STATUS";
     msg_data := JObj [("token", token); ("card_id", card_id);
                       ("users", JArr users)] |}.

(** The response sent when a promise of [/users_card_status] settles. *)
Definition status_response (p : Res JsVal) : JsVal :=
  match p with
  | Ok data => JObj [("success", JBool true); ("data", data)]
  | Throw message => failure message
  end.

(** The ids of a list of users, or the first [TypeError]. *)
Fixpoint ids_of (users : list JsVal) : Res (list JsVal) :=
  match users with
  | [] => Ok []
  | u :: users' =>
      match id_of u with
      | Throw e => Throw e
      | Ok v =>
          match ids_of users' with
          | Ok vs => Ok (v :: vs)
          | Throw e => Throw e
          end
      end
  end.

Definition id_val (u : JsVal) : JsVal :=
  match id_of u with
  | Ok v => v
  | Throw _ => JUndef
  end.

(** ** The invariant of the guard *)

Definition guard_inv (s : AuthGuard.State) : Prop :=
  (forall p, AuthGuard.promises s !! p = Some AuthGuard.Running ->
             AuthGuard.guard s = Some p)
  /\ match AuthGuard.guard s with
     | None => AuthGuard.suspended s = []
     | Some p =>
         AuthGuard.suspended s = [p]
         /\ (p < length (AuthGuard.promises s))%nat
     end.

(** A state in which a status request for card 12 and the users 30 and 7
    is in flight. *)
Definition status_pending_world : World :=
  with_pendingUsers {[ "12:30,7" := Ok (JObj [("30", JStr "trade")]) ]}
    (initial_world 0).

(** The message of [auth_content.js]. *)
Definition handle_auth_message (user csrf : string) : Message :=
  {| msg_type := JStr "HANDLE_AUTH";
     msg_data := JObj [("currentUser", JStr user); ("csrfToken", JStr csrf)] |}.

(** A healthy API and a browser without cookies of the site. *)
Definition no_cookies : Env :=
  {| env_fetch := env_fetch healthy_api;
     env_latency := fun _ => 1;
     env_cookies := [("other", "1")] |}.

(** ** The store and its cache *)

(** [StorageManager.cache] agrees with [chrome.storage.local], every stored
    value is truthy, and the token is a plain value. *)
Definition store_inv (w : World) : Prop :=
  (forall k v, sm_cache w !! k = Some v -> v = storage w !! k)
  /\ (forall k x, storage w !! k = Some x -> truthy (js_of_store x) = true)
  /\ (forall x, storage w !! CONFIG.TOKEN = Some x -> exists tok, x = SJs tok).

Definition keeps_store_inv (w w' : World) : Prop :=
  store_inv w -> store_inv w'.

(** ** Messages of the content scripts *)

Definition message (type : string) (data : JsVal) : Message :=
  {| msg_type := JStr type; msg_data := data |}.

(** * Handlers as tasks

    An [async] function runs without interruption up to its next [await];
    there the other handlers in flight take their turns.  A task is the
    code up to the next [await], as a change of the world that gives what
    remains of the task.

    [chrome.storage.local] serves its operations in the order in which
    they are issued: a write takes effect when it is issued, the value read
    is that of the store when the read is issued, and the callback comes
    after the gap.  The [await] of a value that is already there is a gap
    too, since the continuation is a microtask. *)

#[warnings="-register-all"]
Inductive Task (A : Type) : Type :=
| Done (r : Res A)
| Block (b : World -> Task A * World).
Arguments Done {A} r.
Arguments Block {A} b.

(** The code of [t] up to its next [await]. *)
Definition run1 {A} (t : Task A) (w : World) : Task A * World :=
  match t with
  | Done r => (Done r, w)
  | Block b => b w
  end.

(** One turn of a task, seen from the other tasks. *)
Definition turn {A} (t : Task A) (w : World) : World := snd (run1 t w).

(** Synchronous code [m], then [k] without a gap. *)
Definition sync {X A} (m : M X) (k : X -> Task A) : Task A :=
  Block (fun w =>
    match m w with
    | (Ok x, w1) => run1 (k x) w1
    | (Throw e, w1) => (Done (Throw e), w1)
    end).

(** [const a = await t; k(a)] *)
Fixpoint tbind {A B} (t : Task A) (k : A -> Task B) : Task B :=
  match t with
  | Done (Ok a) => k a
  | Done (Throw e) => Done (Throw e)
  | Block b => Block (fun w => let '(t', w') := b w in (tbind t' k, w'))
  end.

(** [try { t } catch (error) { handler(error.message) }] *)
Fixpoint ttry {A} (t : Task A) (handler : string -> Task A) : Task A :=
  match t with
  | Done (Ok a) => Done (Ok a)
  | Done (Throw e) => handler e
  | Block b => Block (fun w => let '(t', w') := b w in (ttry t' handler, w'))
  end.

(** A call that no other task interrupts, then a gap. *)
Definition lift {A} (m : M A) : Task A :=
  Block (fun w => let '(r, w') := m w in (Done r, w')).

(** The task run to completion with no other task in between. *)
Fixpoint atomic {A} (t : Task A) (w : World) : Res A * World :=
  match t with
  | Done r => (r, w)
  | Block b => let '(t', w') := b w in atomic t' w'
  end.

(** The task run with the other tasks: [others n] is what they do to the
    world in the [n]-th gap from now. *)
Fixpoint interleave {A} (others : nat -> World -> World) (n : nat)
    (t : Task A) (w : World) : Res A * World :=
  match t with
  | Done r => (r, w)
  | Block b =>
      let '(t', w') := b w in interleave others (S n) t' (others n w')
  end.

(** The other tasks do something in the first gap only. *)
Definition first_gap (f : World -> World) (n : nat) (w : World) : World :=
  match n with
  | O => f w
  | S _ => w
  end.

(** From a world in [I], each part of [t] that is followed by another
    leads to a world in [I], the last part leads to a world in [J], and
    [t] ends with a result in [Q]. *)
Fixpoint guarantees {A} (I J : World -> Prop) (Q : Res A -> Prop)
    (t : Task A) : Prop :=
  match t with
  | Done r => Q r
  | Block b =>
      forall w, I w ->
        let '(t', w') := b w in
        match t' with
        | Done r => J w' /\ Q r
        | Block _ => I w' /\ guarantees I J Q t'
        end
  end.

Module Async.

(** [StorageManager.get(key)]: the cache is filled in the callback of
    [chrome.storage.local.get]. *)
Definition get (key : string) : Task (option StoreVal) :=
  Block (fun w =>
    match sm_cache w !! key with
    | Some v => (Done (Ok v), w)
    | None =>
        let value := StorageManager.read key (storage w) in
        (Block (fun w' =>
           (Done (Ok value),
            with_sm_cache (<[key := value]> (sm_cache w')) w')), w)
    end).

(** [StorageManager.remove(key)] *)
Definition remove (key : string) : Task unit :=
  lift (StorageManager.remove key).

(** [StorageManager.set(key, value)] *)
Definition set (key : string) (value : StoreVal) : Task unit :=
  lift (StorageManager.set key value).

Definition getToken : Task JsVal :=
  tbind (get CONFIG.TOKEN) (fun v =>
  Done (Ok (match v with
            | Some v => js_of_store v
            | None => JNull
            end))).

Definition getAuthMeta : Task AuthMeta :=
  tbind (get CONFIG.AUTH_META) (fun meta =>
  Done (Ok (match meta with
            | Some v => AuthManager.meta_of_store v
            | None => AuthManager.default_meta
            end))).

Definition setAuthMeta (meta : AuthMeta) : Task unit :=
  set CONFIG.AUTH_META (SMeta meta).

(** What remains of [_executeAuth] when it awaits [setToken] with the
    [token] of the API response (l.376-392). *)
Definition executeAuth_finish (currentUser csrfToken : JsVal)
    (startTime : Z) (token : JsVal) : Task JsVal :=
  sync Date_now (fun t =>
  let authMeta :=
    {| lastTime := t; lastUser := currentUser; lastCsrf := csrfToken;
       lastAttempt := startTime; failureCount := 0 |} in
  tbind (setAuthMeta authMeta) (fun _ =>
  sync Date_now (fun t' =>
  Done (Ok (JObj [("success", JBool true); ("token", token);
                  ("duration", JNum (t' - startTime))]))))).

(** [handleAuthRequest(authData)]; from [performAuthentication] on, the
    decision being taken, the task runs as [AuthManager] has it. *)
Definition handleAuthRequest (env : Env) (authData : JsVal) : Task JsVal :=
  ttry
    (sync
       (let* currentUser := prop authData "currentUser" in
        let* csrfToken := prop authData "csrfToken" in
        ret (currentUser, csrfToken))
       (fun '(currentUser, csrfToken) =>
          if negb (truthy currentUser) || negb (truthy csrfToken) then
            Done (Ok (JObj [("success", JBool false);
                            ("error", JStr "Missing required auth data");
                            ("shouldAuth", JBool false)]))
          else
            tbind getToken (fun token =>
            tbind getAuthMeta (fun meta =>
            sync Date_now (fun t =>
            let d := shouldPerformAuth t token meta currentUser csrfToken in
            if negb (shouldAuth d) then
              Done (Ok (JObj [("success", JBool true);
                              ("shouldAuth", JBool false);
                              ("reason", JStr (reason_name (reason d)));
                              ("token", token)]))
            else
              tbind (lift (AuthManager.performAuthentication env authData))
                (fun result =>
              Done (Ok (JObj (spread (own_fields result)
                                [("shouldAuth", JBool true);
                                 ("reason",
                                  JStr (reason_name (reason d)))])))))))))
    (fun message =>
       Done (Ok (JObj [("success", JBool false); ("error", JStr message);
                       ("shouldAuth", JBool false)]))).

(** [forceReauth(authData)]: the reset is awaited before the caches are
    cleared and the request is handled. *)
Definition forceReauth (env : Env) (authData : JsVal) : Task JsVal :=
  tbind (setAuthMeta {| lastTime := 0; lastUser := JNull; lastCsrf := JNull;
                        lastAttempt := 0; failureCount := 0 |}) (fun _ =>
  sync (let* _ := Cache_clear in StorageManager.invalidate CONFIG.TOKEN)
    (fun _ => handleAuthRequest env authData)).

(** [sendResponse(v)], which ends the handler; the task gives [v]. *)
Definition respond (v : JsVal) : Task JsVal :=
  Block (fun w => (Done (Ok v), with_response v w)).

Definition FORCE_REAUTH (env : Env) (msg : Message) : Task JsVal :=
  ttry (tbind (forceReauth env (msg_data msg)) respond)
    (fun message => respond (failure message)).

Definition CLEAR_TOKEN (env : Env) (msg : Message) : Task JsVal :=
  tbind (remove CONFIG.TOKEN) (fun _ =>
  respond (JObj [("success", JBool true)])).

Definition GET_TOKEN (env : Env) (msg : Message) : Task JsVal :=
  ttry (tbind getToken (fun token => respond (JObj [("token", token)])))
    (fun _ => respond (JObj [("token", JNull)])).

(** The handlers written as tasks. *)
Definition own : list (string * (Env -> Message -> Task JsVal)) :=
  [("FORCE_REAUTH", FORCE_REAUTH);
   ("CLEAR_TOKEN", CLEAR_TOKEN);
   ("GET_TOKEN", GET_TOKEN)].

Fixpoint find_own (key : string)
    (l : list (string * (Env -> Message -> Task JsVal)))
  : option (Env -> Message -> Task JsVal) :=
  match l with
  | [] => None
  | (k, h) :: l' => if String.eqb key k then Some h else find_own key l'
  end.

(** The [chrome.runtime.onMessage] listener for a message of one of these
    types: the task it starts, with the [catch] it attaches. *)
Definition onMessage (env : Env) (message : Message) : option (Task JsVal) :=
  match find_own (ToString (msg_type message)) own with
  | Some handler =>
      Some (ttry (handler env message)
              (fun message => respond (failure message)))
  | None => None
  end.

End Async.

(** No token in [chrome.storage.local], and none in the cache of
    [StorageManager]. *)
Definition token_absent (w : World) : Prop :=
  storage w !! CONFIG.TOKEN = None
  /\ (sm_cache w !! CONFIG.TOKEN = None
      \/ sm_cache w !! CONFIG.TOKEN = Some None).

(** The other tasks leave alone what is stored and cached under [key]. *)
Definition leaves_key (key : string) (others : nat -> World -> World)
  : Prop :=
  forall n w,
    storage (others n w) !! key = storage w !! key
    /\ sm_cache (others n w) !! key = sm_cache w !! key.

(** The other tasks neither store nor cache a token. *)
Definition stores_no_token (others : nat -> World -> World) : Prop :=
  forall n w, token_absent w -> token_absent (others n w).

(** The other tasks do not touch the cached metadata, and they leave no
    rejected authentication pending. *)
Definition leaves_meta (others : nat -> World -> World) : Prop :=
  forall n w,
    sm_cache (others n w) !! CONFIG.AUTH_META
    = sm_cache w !! CONFIG.AUTH_META
    /\ ((forall e, pendingAuthRequest w <> Some (Throw e)) ->
        forall e, pendingAuthRequest (others n w) <> Some (Throw e)).

(** * The content scripts *)

(** ** [PaginationManager.updatePaginationForCategory]: the buttons

    The list items appended to the pagination element, in order.  A page
    button is the result of [createPageItem(pageIndex, text, isActive,
    isDisabled)]; page numbers are integers. *)

Module PaginationManager.

Inductive Item :=
| PageItem (pageIndex : Z) (text : string) (isActive isDisabled : bool)
| Ellipsis.

(** [for (let i = first; i < bound; i++)] *)
Definition upto (first bound : Z) : list Z := seqZ first (bound - first).

(** [for (let i = first; i <= last; i++)] *)
Definition through (first last : Z) : list Z := seqZ first (last - first + 1).

(** [(i + 1).toString()] *)
Definition number (i : Z) : string := pretty (i + 1).

(** The numbered buttons and ellipses, between "back" and "forward". *)
Definition pageNumbers (currentPage totalPages : Z) : list Item :=
  if totalPages <=? 1 then
    [PageItem 0 "1" (currentPage =? 0) false]
  else if totalPages <=? 7 then
    List.map (fun i => PageItem i (number i) (i =? currentPage) false)
      (upto 0 totalPages)
  else
    let '(startPage, endPage) :=
      if currentPage <=? 3 then (1, Z.min 5 (totalPages - 1))
      else if currentPage >=? totalPages - 4 then
        (Z.max 1 (totalPages - 6), totalPages - 1)
      else (currentPage - 2, currentPage + 2) in
    [PageItem 0 "1" (currentPage =? 0) false]
    ++ (if startPage >? 1 then [Ellipsis] else [])
    ++ List.flat_map
         (fun i =>
            if (i >? 0) && (i <? totalPages - 1) then
              [PageItem i (number i) (i =? currentPage) false]
            else [])
         (through startPage endPage)
    ++ (if endPage <? totalPages - 1 then [Ellipsis] else [])
    ++ (if totalPages >? 1 then
          [PageItem (totalPages - 1) (pretty totalPages)
             (currentPage =? totalPages - 1) false]
        else []).

Definition pageItems (currentPage totalPages : Z) : list Item :=
  let prevDisabled := currentPage <=? 0 in
  let nextDisabled := currentPage >=? totalPages - 1 in
  [PageItem (currentPage - 1) "← Назад" false prevDisabled]
  ++ pageNumbers currentPage totalPages
  ++ [PageItem (currentPage + 1) "Вперёд →" false nextDisabled].

(** A click on an item: the page handed to [onPageChange], if any.  Only a
    button that is neither disabled nor active has a listener, and the
    listener checks the range. *)
Definition click (totalPages : Z) (item : Item) : option Z :=
  match item with
  | PageItem pageIndex _ isActive isDisabled =>
      if isDisabled then None
      else if negb isActive then
        if (pageIndex >=? 0) && (pageIndex <? totalPages) then Some pageIndex
        else None
      else None
  | Ellipsis => None
  end.

(** The page of a button. *)
Definition page_of (item : Item) : option Z :=
  match item with
  | PageItem i _ _ _ => Some i
  | Ellipsis => None
  end.

Definition is_active (item : Item) : bool :=
  match item with
  | PageItem _ _ isActive _ => isActive
  | Ellipsis => false
  end.

(** Every step from one button to the next is one page, and an ellipsis
    stands exactly where pages are left out; [prev] is the page of the last
    button seen and [gap] tells whether an ellipsis came after it. *)
Fixpoint marked (prev : Z) (gap : bool) (items : list Item) : bool :=
  match items with
  | [] => negb gap
  | PageItem i _ _ _ :: items' =>
      (if gap then prev + 1 <? i else i =? prev + 1) && marked i false items'
  | Ellipsis :: items' => negb gap && marked prev true items'
  end.

(** The buttons as the branches make them: a numbered one of the loops, the
    first and the last page. *)
Definition button (c i : Z) : Item := PageItem i (number i) (i =? c) false.

Definition first_button (c : Z) : Item := PageItem 0 "1" (c =? 0) false.

Definition last_button (c t : Z) : Item :=
  PageItem (t - 1) (pretty t) (c =? t - 1) false.

End PaginationManager.

(** ** Messages from a content script to the background script *)

(** A value after it crossed a message boundary: it is serialised as JSON,
    which leaves out the properties that are [undefined] and turns an
    [undefined] array element into [null]. *)
Fixpoint json (v : JsVal) : JsVal :=
  match v with
  | JArr l =>
      JArr (List.map (fun e => match e with
                               | JUndef => JNull
                               | _ => json e
                               end) l)
  | JObj fs =>
      JObj ((fix fields (fs : list (string * JsVal)) :=
               match fs with
               | [] => []
               | (k, JUndef) :: fs' => fields fs'
               | (k, v) :: fs' => (k, json v) :: fields fs'
               end) fs)
  | _ => v
  end.

Module Runtime.

(** What the callback of [chrome.runtime.sendMessage] finds: a response, or
    [chrome.runtime.lastError]. *)
Inductive Reply :=
| Response (response : JsVal)
| LastError (message : string).

Definition port_closed : string :=
  "The message port closed before a response was received.".

(** [chrome.runtime.sendMessage(message, callback)] from a content script:
    the listener of the background script handles the message, and the
    callback gets the first response sent, or finds
    [chrome.runtime.lastError] when none was sent. *)
Definition sendMessage (env : Env) (type data : JsVal) (w : World)
  : Reply * World :=
  let message := {| msg_type := json type; msg_data := json data |} in
  let w' := snd (onMessage env message w) in
  match drop (length (responses w)) (responses w') with
  | response :: _ => (Response (json response), w')
  | [] => (LastError port_closed, w')
  end.

End Runtime.

(** *** [integrated_category_badge.js] *)

Module Badge.

Module MessageSender.

(** [send(type, data, timeout)].  The timer started before the message is
    sent rejects the promise when the response takes [timeout] milliseconds
    or more; the callback then finds the promise settled. *)
Definition send (env : Env) (type : string) (data : JsVal) (timeout : Z)
  : M JsVal :=
  fun w =>
    let '(reply, w') := Runtime.sendMessage env (JStr type) data w in
    if timeout <=? now w' - now w then
      (Throw ("Message " +:+ type +:+ " timed out after "
              +:+ pretty timeout +:+ "ms"), w')
    else
      match reply with
      | Runtime.LastError message => (Throw message, w')
      | Runtime.Response response =>
          if negb (truthy response) then
            (Throw ("No response for " +:+ type), w')
          else
            (let* success := prop response "success" in
             if strict_eq success (JBool false) then
               let* error := prop response "error" in
               throw (ToString (js_or error (JStr (type +:+ " failed"))))
             else ret response) w'
      end.

End MessageSender.

Module TokenManager.

Definition getToken (env : Env) : M JsVal :=
  try_catch
    (let* response := MessageSender.send env "GET_TOKEN" (JObj []) 30000 in
     prop response "token")
    (fun _ => ret JNull).

End TokenManager.

Module ApiClient.

Definition fetchUsersByCategory (env : Env) (category cardId page : JsVal)
  : M JsVal :=
  try_catch
    (let* response :=
       MessageSender.send env "FETCH_USERS_BY_CATEGORY"
         (JObj [("category", category); ("card_id", cardId);
                ("page", page)]) 60000 in
     let* data := prop response "data" in
     ret (js_or data (JArr [])))
    (fun _ => ret (JArr [])).

(** [users] is the array built by [extractUsersFromPage] or received from
    [fetchUsersByCategory]. *)
Definition fetchUserStatuses (env : Env) (cardId : JsVal)
    (users : list JsVal) : M JsVal :=
  match users with
  | [] => ret (JObj [])
  | _ :: _ =>
      try_catch
        (let* token := TokenManager.getToken env in
         let* response :=
           MessageSender.send env "FETCH_USERS_CARD_STATUS"
             (JObj [("token", token); ("card_id", JStr (ToString cardId));
                    ("users", JArr users)]) 360000 in
         let* data := prop response "data" in
         ret (js_or data (JObj [])))
        (fun _ => ret (JObj []))
  end.

End ApiClient.

Module CategoryNavigator.

(** [Object.entries(src)] of an object or an array. *)
Definition Object_entries (src : JsVal) : list (string * JsVal) :=
  match src with
  | JObj fs => fs
  | JArr l => imap (fun i e => (pretty (Z.of_nat i), e)) l
  | _ => []
  end.

(** [val && typeof val === 'object' && 'badge' in val && 'color' in val] *)
Definition has_badge (val : JsVal) : bool :=
  match val with
  | JObj fs => bool_decide (is_Some (assoc "badge" fs))
               && bool_decide (is_Some (assoc "color" fs))
  | _ => false
  end.

(** The array assigned to [this.categories] and returned. *)
Definition fetchCategories (env : Env) : M JsVal :=
  try_catch
    (let* response :=
       MessageSender.send env "GET_HEALTH_CATEGORY" (JObj []) 30000 in
     let* category := prop response "category" in
     let* categories := prop response "categories" in
     let src := js_or (js_or category categories) response in
     if negb (truthy src) || negb (typeof_object src) then ret (JArr [])
     else
       ret (JArr
              (List.map
                 (fun '(key, val) =>
                    JObj [("category", JStr key);
                          ("badge", default JUndef (assoc "badge" (own_fields val)));
                          ("color", default JUndef (assoc "color" (own_fields val)))])
                 (List.filter (fun '(key, val) => has_badge val)
                    (Object_entries src)))))
    (fun _ => ret (JArr [])).

End CategoryNavigator.

End Badge.

(** An API that knows the status of user 1 on every card, and a background
    script that holds a token. *)
Definition badge_api : Env :=
  {| env_fetch := fun _ endpoint _ =>
       if String.eqb endpoint "/users_card_status" then
         Ok (JObj [("1", JObj [("badge", JStr "T"); ("color", JStr "red");
                               ("category", JStr "trade")])])
       else Throw "HTTP 404: Not Found";
     env_latency := fun _ => 10;
     env_cookies := [] |}.

Definition world_with_token (token : JsVal) : World :=
  with_storage (<[CONFIG.TOKEN := SJs token]> ∅) [CONFIG.TOKEN]
    (initial_world 0).

(** A background script whose store holds the categories [category], saved
    at [timestamp]. *)
Definition world_with_categories (category : JsVal) (timestamp : Z) : World :=
  with_storage (<[CONFIG.HEALTH_CACHE := SHealth category timestamp]> ∅)
    [CONFIG.HEALTH_CACHE] (initial_world timestamp).

(** *** [auth_content.js] *)

Module AuthContent.

Module CONFIG.
Definition THROTTLE_DELAY : Z := 100.
Definition DOM_CACHE_TTL : Z := 5000.
End CONFIG.

(** What the script reads from the document: whether [body] has the class
    [isAuth]; the [content] of [meta[name="csrf-token"]], if there is such
    an element; the trimmed [alt] of the image in the profile element of
    the header, if there are both. *)
Record Page := {
  isAuth : bool;
  csrf_meta : option string;
  avatar_alt : option string
}.

(** [DOMHelper._cache]: value and timestamp by key. *)
Definition DomCache : Type := gmap string (JsVal * Z).

Module DOMHelper.

Definition isAuthenticated (page : Page) : bool := isAuth page.

(** [meta?.content || null] *)
Definition read_csrf (page : Page) : JsVal :=
  match csrf_meta page with
  | Some content => js_or (JStr content) JNull
  | None => JNull
  end.

(** [img?.alt?.trim() || null] *)
Definition read_username (page : Page) : JsVal :=
  match avatar_alt page with
  | Some alt => js_or (JStr alt) JNull
  | None => JNull
  end.

(** [getCsrfToken()] at time [t] *)
Definition getCsrfToken (page : Page) (t : Z) (c : DomCache)
  : JsVal * DomCache :=
  match c !! "csrf" with
  | Some (value, timestamp) =>
      if t - timestamp <? CONFIG.DOM_CACHE_TTL then (value, c)
      else
        let token := read_csrf page in
        (token, <["csrf" := (token, t)]> c)
  | None =>
      let token := read_csrf page in
      (token, <["csrf" := (token, t)]> c)
  end.

(** [getCurrentUserName()] at time [t] *)
Definition getCurrentUserName (page : Page) (t : Z) (c : DomCache)
  : JsVal * DomCache :=
  match c !! "username" with
  | Some (value, timestamp) =>
      if t - timestamp <? CONFIG.DOM_CACHE_TTL then (value, c)
      else
        let username := read_username page in
        (username, <["username" := (username, t)]> c)
  | None =>
      let username := read_username page in
      (username, <["username" := (username, t)]> c)
  end.

Definition clearCache (c : DomCache) : DomCache := ∅.

End DOMHelper.

Module AuthManager.

(** [processAuthentication()]: the response is only logged. *)
Definition processAuthentication (env : Env) (page : Page) (c : DomCache)
    (w : World) : DomCache * World :=
  if negb (DOMHelper.isAuthenticated page) then (c, w)
  else
    let '(csrfToken, c1) := DOMHelper.getCsrfToken page (now w) c in
    let '(currentUser, c2) := DOMHelper.getCurrentUserName page (now w) c1 in
    if negb (truthy csrfToken) || negb (truthy currentUser) then (c2, w)
    else
      let '(_, w') :=
        Runtime.sendMessage env (JStr "HANDLE_AUTH")
          (JObj [("currentUser", currentUser); ("csrfToken", csrfToken)])
          w in
      (c2, w').

(** The message [processAuthentication()] hands to
    [chrome.runtime.sendMessage] at time [t]. *)
Definition auth_message (page : Page) (t : Z) (c : DomCache)
  : DomCache * option Message :=
  if negb (DOMHelper.isAuthenticated page) then (c, None)
  else
    let '(csrfToken, c1) := DOMHelper.getCsrfToken page t c in
    let '(currentUser, c2) := DOMHelper.getCurrentUserName page t c1 in
    if negb (truthy csrfToken) || negb (truthy currentUser) then (c2, None)
    else
      (c2, Some {| msg_type := JStr "HANDLE_AUTH";
                   msg_data := JObj [("currentUser", currentUser);
                                     ("csrfToken", csrfToken)] |}).

End AuthManager.

(** [initialize()], up to the set-up of the observer of the profile
    element: the message it hands to [chrome.runtime.sendMessage] at time
    [t], which the background script handles once the call is over. *)
Definition initialize (page : Page) (t : Z) (c : DomCache)
  : DomCache * option Message :=
  if negb (DOMHelper.isAuthenticated page) then
    (c, Some {| msg_type := JStr "CLEAR_TOKEN"; msg_data := JUndef |})
  else AuthManager.auth_message page t c.

End AuthContent.

(** A page of a signed-in user. *)
Definition signed_in_page : AuthContent.Page :=
  {| AuthContent.isAuth := true;
     AuthContent.csrf_meta := Some "csrf1";
     AuthContent.avatar_alt := Some "bob" |}.

(** A cookie the script may forward to the API: one of the jar, required by
    name or with the [remember_web] prefix. *)
Definition forwarded (env : Env) (entry : string * JsVal) : Prop :=
  exists value,
    snd entry = JStr value
    /\ In (fst entry, value) (env_cookies env)
    /\ (In (fst entry) CONFIG.REQUIRED_COOKIES
        \/ String.prefix CONFIG.REMEMBER_WEB_PREFIX (fst entry) = true).

(** ** [UserDataExtractor]: the users of a page *)

Module UserDataExtractor.

(** [\d] *)
Definition is_digit (a : Ascii.ascii) : bool :=
  let n := Ascii.nat_of_ascii a in (48 <=? n)%nat && (n <=? 57)%nat.

Fixpoint all_digits (s : string) : bool :=
  match s with
  | EmptyString => true
  | String a s' => is_digit a && all_digits s'
  end.

(** [\/users\/(\d+)$] tried at the start of [s]: the group. *)
Definition USER_ID_here (s : string) : option string :=
  if String.prefix "/users/" s then
    let digits := String.substring 7 (String.length s - 7) s in
    if negb (String.eqb digits "") && all_digits digits then Some digits
    else None
  else None.

(** [s.match(CONFIG.PATTERNS.USER_ID)]: the group of the leftmost match. *)
Fixpoint USER_ID_match (s : string) : option string :=
  match USER_ID_here s with
  | Some digits => Some digits
  | None =>
      match s with
      | EmptyString => None
      | String _ s' => USER_ID_match s'
      end
  end.

(** What the script reads from a link [a.card-show__owner]: its [href], the
    trimmed text of its name element and the [src] attribute of its image,
    where they exist. *)
Record Link := {
  href : string;
  name_text : option string;
  img_src : option string
}.

(** The callback of [links.map]. *)
Definition user_of (link : Link) : option JsVal :=
  match USER_ID_match (href link) with
  | None => None
  | Some id =>
      Some (JObj [("user_id", JStr id);
                  ("username", JStr (default "" (name_text link)));
                  ("image", JStr (default "" (img_src link)))])
  end.

(** [links.map(...).filter(Boolean)] *)
Definition users_of (links : list Link) : list JsVal := omap user_of links.

(** [userCache]: a [Map] from the address of the page to the users and the
    time they were read, in insertion order. *)
Definition UserCache : Type := list (string * (list JsVal * Z)).

Fixpoint Map_get (key : string) (m : UserCache) : option (list JsVal * Z) :=
  match m with
  | [] => None
  | (k, v) :: m' => if String.eqb key k then Some v else Map_get key m'
  end.

(** [Map.prototype.set]: a key that is there keeps its place. *)
Fixpoint Map_set (key : string) (v : list JsVal * Z) (m : UserCache)
  : UserCache :=
  match m with
  | [] => [(key, v)]
  | (k, v') :: m' =>
      if String.eqb key k then (k, v) :: m' else (k, v') :: Map_set key v m'
  end.

Definition Map_delete (key : string) (m : UserCache) : UserCache :=
  List.filter (fun kv => negb (String.eqb key (fst kv))) m.

(** [extractUsersFromPage()] at time [t], on the page at [location_href]
    showing [links]. *)
Definition extractUsersFromPage (location_href : string) (links : list Link)
    (t : Z) (userCache : UserCache) : list JsVal * UserCache :=
  let fresh :=
    let users := users_of links in
    let c1 := Map_set location_href (users, t) userCache in
    let c2 :=
      if (10 <? length c1)%nat then
        match c1 with
        | (oldestKey, _) :: _ => Map_delete oldestKey c1
        | [] => c1
        end
      else c1 in
    (users, c2) in
  match Map_get location_href userCache with
  | Some (users, timestamp) =>
      if t - timestamp <? 30000 then (users, userCache) else fresh
  | None => fresh
  end.

Definition clearCache (userCache : UserCache) : UserCache := [].

End UserDataExtractor.

(** ** [waitForElement] *)

Module Wait.

(** [check], for the checks from the [k]-th on; [present k] tells whether
    the [k]-th check finds the element.  The result is the index of the
    check that found it. *)
Fixpoint check (fuel : nat) (present : nat -> bool) (selector : string)
    (timeout : Z) (k : nat) (elapsed : Z) : option (Res nat) :=
  match fuel with
  | O => None
  | S fuel' =>
      if present k then Some (Ok k)
      else
        let elapsed := elapsed + 50 in
        if elapsed >=? timeout then
          Some (Throw ("Timeout waiting for " +:+ selector))
        else check fuel' present selector timeout (S k) elapsed
  end.

(** [waitForElement(selector, timeout)] *)
Definition waitForElement (fuel : nat) (present : nat -> bool)
    (selector : string) (timeout : Z) : option (Res nat) :=
  check fuel present selector timeout 0 0.

(** The number of checks made when none finds the element. *)
Definition checks (timeout : Z) : nat :=
  Z.to_nat (Z.max 1 ((timeout + 49) / 50)).

End Wait.

(** ** [PaginationManager]: saving and restoring the pagination of the page

    The element [ul.pagination], if the page has one, with its HTML and the
    buttons that carry a click listener; the two static fields.
    [serialize] is the HTML that the browser gives for the list items
    appended by [updatePaginationForCategory]. *)

Module PaginationState.

Record Element := {
  innerHTML : string;
  listeners : list PaginationManager.Item
}.

Record State := {
  paginationEl : option Element;
  originalPaginationHtml : option string;
  isCustomPagination : bool
}.

(** [!!this.originalPaginationHtml] *)
Definition saved (st : State) : bool :=
  match originalPaginationHtml st with
  | Some html => negb (String.eqb html "")
  | None => false
  end.

Definition saveOriginalPagination (st : State) : State :=
  match paginationEl st with
  | None => st
  | Some el =>
      if saved st then st
      else {| paginationEl := paginationEl st;
              originalPaginationHtml := Some (innerHTML el);
              isCustomPagination := isCustomPagination st |}
  end.

Definition updatePaginationForCategory
    (serialize : list PaginationManager.Item -> string)
    (currentPage totalPages : Z) (st : State) : State :=
  match paginationEl st with
  | None => st
  | Some _ =>
      let st1 := saveOriginalPagination st in
      let items := PaginationManager.pageItems currentPage totalPages in
      {| paginationEl :=
           Some {| innerHTML := serialize items; listeners := items |};
         originalPaginationHtml := originalPaginationHtml st1;
         isCustomPagination := true |}
  end.

(** The links are replaced by clones, which have no listeners. *)
Definition restoreOriginalPagination (st : State) : State :=
  match paginationEl st, originalPaginationHtml st with
  | Some _, Some html =>
      if negb (saved st) || negb (isCustomPagination st) then st
      else
        {| paginationEl := Some {| innerHTML := html; listeners := [] |};
           originalPaginationHtml := originalPaginationHtml st;
           isCustomPagination := false |}
  | _, _ => st
  end.

Definition reset (st : State) : State :=
  {| paginationEl := paginationEl st;
     originalPaginationHtml := None;
     isCustomPagination := false |}.

(** The script on a page whose pagination is [html]. *)
Definition on_page (html : string) : State :=
  {| paginationEl := Some {| innerHTML := html; listeners := [] |};
     originalPaginationHtml := None;
     isCustomPagination := false |}.

(** A series of calls of [updatePaginationForCategory], with the current
    page and the number of pages of each. *)
Definition updates (serialize : list PaginationManager.Item -> string)
    (calls : list (Z * Z)) (st : State) : State :=
  fold_left
    (fun st call => updatePaginationForCategory serialize (fst call)
                      (snd call) st)
    calls st.

End PaginationState.

(** * Properties *)

(** ** The re-authentication decision *)

Lemma gtb_gt (a b : Z) : (a >? b) = true <-> a > b.
Proof. rewrite Z.gtb_ltb, Z.ltb_lt. lia. Qed.

(** C1. [AuthManager.shouldPerformAuth] is a function of the token, the
    metadata, the user, the csrf token and the time.  It decides to
    authenticate exactly when the token is absent, or the token is present,
    user and csrf token are both non-empty, and the user differs from
    [meta.lastUser], or the csrf token differs from [meta.lastCsrf], or more
    than two hours (7200000 ms) have passed since [meta.lastTime], or
    [meta.failureCount] is positive and more than 30 seconds have passed
    since [meta.lastAttempt].  In particular a present token with a missing
    csrf token or a missing user is skipped. *)
Theorem shouldPerformAuth_decision
    (now : Z) (token : JsVal) (meta : AuthMeta) (user csrf : JsVal) :
  (shouldAuth (shouldPerformAuth now token meta user csrf) = true <->
   truthy token = false \/
   (truthy token = true /\ truthy user = true /\ truthy csrf = true /\
    (strict_neq user (lastUser meta) = true \/
     strict_neq csrf (lastCsrf meta) = true \/
     now - lastTime meta > 7200000 \/
     (failureCount meta > 0 /\ now - lastAttempt meta > 30000))))
  /\ (truthy token = true /\ (truthy csrf = false \/ truthy user = false) ->
      shouldAuth (shouldPerformAuth now token meta user csrf) = false).
Proof.
  unfold shouldPerformAuth, CONFIG.AUTH_THROTTLE_INTERVAL.
  destruct (truthy token), (truthy csrf), (truthy user); simpl;
    try (split; [split; [discriminate | intros [? | (_ & ? & ? & _)]; discriminate]
                | try reflexivity; intros [_ [? | ?]]; discriminate]);
    try (split; [split; [auto | reflexivity] | intros [? _]; discriminate]).
  destruct (strict_neq user (lastUser meta)); simpl.
  { split; [split; [intros _; right; auto 10 | reflexivity]
           | intros [_ [? | ?]]; discriminate]. }
  destruct (strict_neq csrf (lastCsrf meta)); simpl.
  { split; [split; [intros _; right; auto 10 | reflexivity]
           | intros [_ [? | ?]]; discriminate]. }
  destruct (now - lastTime meta >? 2 * 60 * 60 * 1000) eqn:Ht; simpl.
  { apply gtb_gt in Ht.
    split; [split; [intros _; right; repeat split; auto; do 2 right; left; lia
                   | reflexivity]
           | intros [_ [? | ?]]; discriminate]. }
  assert (~ now - lastTime meta > 7200000) as Hle.
  { intros H. apply gtb_gt in H. change 7200000 with (2*60*60*1000) in H.
    congruence. }
  destruct (failureCount meta >? 0) eqn:Hf; simpl.
  - destruct (now - lastAttempt meta >? 30000) eqn:Ha; simpl.
    + apply gtb_gt in Hf, Ha.
      split; [split; [intros _; right; repeat split; auto; do 3 right; lia
                     | reflexivity]
             | intros [_ [? | ?]]; discriminate].
    + assert (~ now - lastAttempt meta > 30000)
        by (intros H; apply gtb_gt in H; congruence).
      split; [split; [discriminate |] | reflexivity].
      intros [? | (_ & _ & _ & [? | [? | [? | [_ ?]]]])];
        try discriminate; contradiction.
  - assert (~ failureCount meta > 0)
      by (intros H; apply gtb_gt in H; congruence).
    split; [split; [discriminate |] | reflexivity].
    intros [? | (_ & _ & _ & [? | [? | [? | [? _]]]])];
      try discriminate; contradiction.
Qed.

(** ** The in-memory cache *)

Lemma cache_get_missing (t : Z) (key : string) (d : Cache.data) :
  d !! key = None -> Cache.get t key d = (JNull, d).
Proof. intros H. unfold Cache.get. by rewrite H. Qed.

Lemma cache_run_unset (key : string) (ops : list Cache.op) (d : Cache.data) :
  Forall (fun o => ~ Cache.sets_key key o) ops ->
  d !! key = None -> Cache.run ops d !! key = None.
Proof.
  intros Hops. revert d.
  induction Hops as [|o ops Ho _ IH]; intros d Hd; [exact Hd|].
  apply IH. destruct o as [t k v ttl|t k|]; simpl in *.
  - unfold Cache.set. rewrite lookup_insert_ne; [done | congruence].
  - unfold Cache.get. destruct (d !! k) as [[v e]|] eqn:Hk; [|done].
    destruct (t >? e); [|done]. simpl.
    destruct (decide (k = key)) as [->|Hne].
    + apply lookup_delete_eq.
    + by rewrite lookup_delete_ne.
  - apply lookup_empty.
Qed.

(** C3. After [Cache.set(key, value, ttl)] at time [t], a [Cache.get(key)]
    at any time [t' <= t + ttl] returns [value] and leaves the cache as it
    is; at any time [t' > t + ttl] it returns [null] and removes the entry.
    A key that was never set reads as [null], whatever else was done to the
    cache. *)
Theorem cache_ttl_expiry
    (d : Cache.data) (t : Z) (key : string) (value : JsVal) (ttl : Z) :
  let d' := Cache.set t key value ttl d in
  (forall t', t' <= t + ttl -> Cache.get t' key d' = (value, d'))
  /\ (forall t', t' > t + ttl ->
        fst (Cache.get t' key d') = JNull
        /\ snd (Cache.get t' key d') !! key = None
        /\ forall k, k <> key -> snd (Cache.get t' key d') !! k = d !! k)
  /\ (forall ops t',
        Forall (fun o => ~ Cache.sets_key key o) ops ->
        fst (Cache.get t' key (Cache.run ops ∅)) = JNull).
Proof.
  intros d'. subst d'. unfold Cache.set. repeat split.
  - intros t' Ht. unfold Cache.get. rewrite lookup_insert_eq.
    destruct (t' >? t + ttl) eqn:E; [apply gtb_gt in E; lia | done].
  - unfold Cache.get. rewrite lookup_insert_eq.
    destruct (t' >? t + ttl) eqn:E; [done|].
    assert (t' > t + ttl -> False) by (intros G; apply gtb_gt in G; congruence).
    tauto.
  - unfold Cache.get. rewrite lookup_insert_eq.
    destruct (t' >? t + ttl) eqn:E; simpl.
    + apply lookup_delete_eq.
    + assert (t' > t + ttl -> False)
        by (intros G; apply gtb_gt in G; congruence).
      tauto.
  - intros k Hk. unfold Cache.get. rewrite lookup_insert_eq.
    destruct (t' >? t + ttl) eqn:E; simpl.
    + rewrite lookup_delete_ne by congruence.
      rewrite lookup_insert_ne by congruence. done.
    + assert (t' > t + ttl -> False)
        by (intros G; apply gtb_gt in G; congruence).
      tauto.
  - intros ops t' Hops.
    rewrite cache_get_missing; [done|].
    apply cache_run_unset; [done | apply lookup_empty].
Qed.

(** ** Rules for computations *)

Section Rules.

Context (R : relation World) `{!PreOrder R}.

Lemma frame_ret {A} (a : A) : frame R (ret a).
Proof. intros w. simpl. reflexivity. Qed.

Lemma frame_throw {A} (msg : string) : frame R (@throw A msg).
Proof. intros w. simpl. reflexivity. Qed.

Lemma frame_gets {A} (f : World -> A) : frame R (gets f).
Proof. intros w. simpl. reflexivity. Qed.

Lemma frame_await {A} (p : Res A) : frame R (await p).
Proof. intros w. simpl. reflexivity. Qed.

Lemma frame_modify (f : World -> World) :
  (forall w, R w (f w)) -> frame R (modify f).
Proof. intros H w. apply H. Qed.

Lemma frame_bind {A B} (m : M A) (k : A -> M B) :
  frame R m -> (forall a, frame R (k a)) -> frame R (bind m k).
Proof.
  intros Hm Hk w. unfold bind. specialize (Hm w).
  destruct (m w) as [[a|msg] w']; simpl in *; [|done].
  etrans; [exact Hm | apply Hk].
Qed.

Lemma frame_try_catch {A} (m : M A) (h : string -> M A) :
  frame R m -> (forall msg, frame R (h msg)) -> frame R (try_catch m h).
Proof.
  intros Hm Hh w. unfold try_catch. specialize (Hm w).
  destruct (m w) as [[a|msg] w']; simpl in *; [done|].
  etrans; [exact Hm | apply Hh].
Qed.

Lemma frame_promise_of {A} (m : M A) : frame R m -> frame R (promise_of m).
Proof.
  intros Hm w. unfold promise_of. specialize (Hm w).
  destruct (m w) as [r w']; done.
Qed.

Lemma frame_try_finally {A} (m : M A) (f : World -> World) :
  frame R m -> (forall w, R w (f w)) -> frame R (try_finally m f).
Proof.
  intros Hm Hf w. unfold try_finally. specialize (Hm w).
  destruct (m w) as [r w']; simpl in *. etrans; [exact Hm | apply Hf].
Qed.

Lemma frame_prop (v : JsVal) (k : string) : frame R (prop v k).
Proof. destruct v; first [apply frame_throw | apply frame_ret]. Qed.

Lemma frame_mapM {A B} (f : A -> M B) (l : list A) :
  (forall a, frame R (f a)) -> frame R (mapM f l).
Proof.
  intros Hf. induction l as [|x l IH]; simpl.
  - apply frame_ret.
  - apply frame_bind; [apply Hf|]. intros y.
    apply frame_bind; [apply IH|]. intros ys. apply frame_ret.
Qed.

Lemma post_frame {A} (Q : World -> A -> World -> Prop) (m : M A) :
  frame R m -> (forall w a w', R w w' -> Q w a w') -> post R Q m.
Proof.
  intros Hm HQ w. specialize (Hm w).
  destruct (m w) as [[a|msg] w']; simpl in *; auto.
Qed.

Lemma post_throw {A} (Q : World -> A -> World -> Prop) (msg : string) :
  post R Q (throw msg).
Proof. intros w. simpl. reflexivity. Qed.

Lemma post_bind {A B} (Q : World -> B -> World -> Prop)
    (m : M A) (k : A -> M B) :
  (forall w w1 b w2, R w w1 -> Q w1 b w2 -> Q w b w2) ->
  frame R m -> (forall a, post R Q (k a)) -> post R Q (bind m k).
Proof.
  intros HQ Hm Hk w. unfold bind. specialize (Hm w).
  destruct (m w) as [[a|msg] w1]; simpl in *; [|done].
  specialize (Hk a w1). destruct (k a w1) as [[b|msg] w2].
  - eapply HQ; eauto.
  - etrans; eauto.
Qed.

End Rules.

Lemma nothrow_ret {A} (a : A) : nothrow (ret a).
Proof. intros w. by exists a. Qed.

Lemma nothrow_gets {A} (f : World -> A) : nothrow (gets f).
Proof. intros w. by eexists. Qed.

Lemma nothrow_modify (f : World -> World) : nothrow (modify f).
Proof. intros w. by exists tt. Qed.

Lemma nothrow_bind {A B} (m : M A) (k : A -> M B) :
  nothrow m -> (forall a, nothrow (k a)) -> nothrow (bind m k).
Proof.
  intros Hm Hk w. unfold bind. destruct (Hm w) as [a Ha].
  destruct (m w) as [r w']; simpl in *; subst. apply Hk.
Qed.

Lemma nothrow_try_catch {A} (m : M A) (h : string -> M A) :
  (forall msg, nothrow (h msg)) -> nothrow (try_catch m h).
Proof.
  intros Hh w. unfold try_catch.
  destruct (m w) as [[a|msg] w']; [by exists a | apply Hh].
Qed.

Lemma nothrow_promise_of {A} (m : M A) : nothrow (promise_of m).
Proof. intros w. unfold promise_of. destruct (m w). by eexists. Qed.

(** ** Frame conditions of the script's operations *)

Create HintDb frame.

Ltac frame_rule l := apply l; try exact _.

Ltac frame_step :=
  lazymatch goal with
  | |- frame _ (bind _ _) => frame_rule @frame_bind; [|intros]
  | |- frame _ (ret _) => frame_rule @frame_ret
  | |- frame _ (throw _) => frame_rule @frame_throw
  | |- frame _ (gets _) => frame_rule @frame_gets
  | |- frame _ Date_now => frame_rule @frame_gets
  | |- frame _ (await _) => frame_rule @frame_await
  | |- frame _ (prop _ _) => frame_rule @frame_prop
  | |- frame _ (try_catch _ _) => frame_rule @frame_try_catch; [|intros]
  | |- frame _ (promise_of _) => frame_rule @frame_promise_of
  | |- frame _ (modify _) => frame_rule @frame_modify; intros; auto with frame
  | |- frame _ (if ?b then _ else _) => destruct b
  | |- frame _ (match ?x with _ => _ end) => destruct x
  | |- frame _ (let _ := _ in _) => cbv zeta
  end.

Ltac frame_auto :=
  repeat first [ solve [eauto with frame] | frame_step ].

Section Framing.

Context (R : relation World) `{!PreOrder R}.
Context (okkey okdel : string -> Prop) (okput : string -> StoreVal -> Prop)
  (okreq : string * JsVal -> Prop).
Context (HF : Framed R okkey okdel okput okreq).

Lemma frame_Cache_set key value ttl : frame R (Cache_set key value ttl).
Proof. frame_rule @frame_modify. intros. apply HF. Qed.

Lemma frame_Cache_get key : frame R (Cache_get key).
Proof.
  intros w. unfold Cache_get.
  destruct (Cache.get (now w) key (cache w)); simpl. apply HF.
Qed.

Lemma frame_Cache_clear : frame R Cache_clear.
Proof. frame_rule @frame_modify. intros. apply HF. Qed.

Lemma frame_makeRequest env endpoint body :
  okreq (endpoint, body) -> frame R (ApiClient.makeRequest env endpoint body).
Proof.
  intros Hr w. unfold ApiClient.makeRequest. simpl.
  etrans; [apply (R_request _ _ _ _ _ HF), Hr | apply HF].
Qed.

Lemma frame_SM_get k : okkey k -> frame R (StorageManager.get k).
Proof. apply HF. Qed.

Lemma frame_SM_set k v : okput k v -> frame R (StorageManager.set k v).
Proof. apply HF. Qed.

Lemma frame_SM_remove k : okdel k -> frame R (StorageManager.remove k).
Proof. apply HF. Qed.

Lemma frame_SM_invalidate k : okdel k -> frame R (StorageManager.invalidate k).
Proof. apply HF. Qed.

Lemma frame_with_pendingAuth w p : R w (with_pendingAuth p w).
Proof. apply (R_pendingAuth _ _ _ _ _ HF). Qed.

Lemma frame_with_pendingUsers w p : R w (with_pendingUsers p w).
Proof. apply (R_pendingUsers _ _ _ _ _ HF). Qed.

#[local] Hint Resolve frame_with_pendingAuth frame_with_pendingUsers : frame.

#[local] Hint Resolve frame_Cache_set frame_Cache_get frame_Cache_clear
  frame_SM_get frame_SM_set frame_SM_remove frame_SM_invalidate
  frame_makeRequest : frame.

Lemma frame_getRequiredCookies env :
  frame R (CookieManager.getRequiredCookies env).
Proof. unfold CookieManager.getRequiredCookies. frame_auto. Qed.

Lemma frame_getRememberWebCookies env :
  frame R (CookieManager.getRememberWebCookies env).
Proof. unfold CookieManager.getRememberWebCookies. frame_auto. Qed.

#[local] Hint Resolve frame_getRequiredCookies frame_getRememberWebCookies
  : frame.

Lemma frame_getAllRelevantCookies env :
  frame R (CookieManager.getAllRelevantCookies env).
Proof. unfold CookieManager.getAllRelevantCookies. frame_auto. Qed.

Lemma frame_checkHealth env :
  (forall c t, okput CONFIG.HEALTH_CACHE (SHealth c t)) ->
  okreq ("/health", JUndef) ->
  frame R (ApiClient.checkHealth env).
Proof. intros ??. unfold ApiClient.checkHealth. frame_auto. Qed.

Lemma frame_getAuthMeta :
  okkey CONFIG.AUTH_META -> frame R AuthManager.getAuthMeta.
Proof. intros ?. unfold AuthManager.getAuthMeta. frame_auto. Qed.

Lemma frame_setAuthMeta meta :
  okput CONFIG.AUTH_META (SMeta meta) -> frame R (AuthManager.setAuthMeta meta).
Proof. intros ?. unfold AuthManager.setAuthMeta. frame_auto. Qed.

Lemma frame_getToken : okkey CONFIG.TOKEN -> frame R AuthManager.getToken.
Proof. intros ?. unfold AuthManager.getToken. frame_auto. Qed.

Lemma frame_setToken token :
  (truthy token = true -> okput CONFIG.TOKEN (SJs token)) ->
  frame R (AuthManager.setToken token).
Proof.
  intros H. unfold AuthManager.setToken.
  destruct (truthy token); frame_auto.
Qed.

#[local] Hint Resolve frame_getAllRelevantCookies frame_checkHealth
  frame_getAuthMeta frame_setAuthMeta frame_getToken frame_setToken : frame.

(** From here on: every key of [CONFIG.STORAGE_KEYS] and every request. *)
Hypothesis ok_TOKEN : okkey CONFIG.TOKEN.
Hypothesis ok_AUTH_META : okkey CONFIG.AUTH_META.
Hypothesis ok_HEALTH_CACHE : okkey CONFIG.HEALTH_CACHE.
Hypothesis okput_TOKEN :
  forall v, truthy v = true -> okput CONFIG.TOKEN (SJs v).
Hypothesis okput_AUTH_META : forall m, okput CONFIG.AUTH_META (SMeta m).
Hypothesis okput_HEALTH_CACHE :
  forall c t, okput CONFIG.HEALTH_CACHE (SHealth c t).
Hypothesis okdel_TOKEN : okdel CONFIG.TOKEN.
Hypothesis okreq_any : forall r, okreq r.

Lemma frame_sendAuthData env cookies csrf :
  frame R (ApiClient.sendAuthData env cookies csrf).
Proof. unfold ApiClient.sendAuthData. frame_auto. Qed.

#[local] Hint Resolve frame_sendAuthData : frame.

Lemma frame_executeAuth env user csrf :
  frame R (AuthManager._executeAuth env user csrf).
Proof.
  unfold AuthManager._executeAuth, AuthManager._executeAuth_try,
    AuthManager._executeAuth_catch.
  frame_auto.
Qed.

#[local] Hint Resolve frame_executeAuth : frame.

Lemma frame_performAuthentication env authData :
  frame R (AuthManager.performAuthentication env authData).
Proof.
  unfold AuthManager.performAuthentication. frame_auto.
  frame_rule @frame_try_finally; [frame_rule @frame_await | auto with frame].
Qed.

#[local] Hint Resolve frame_performAuthentication : frame.

Lemma frame_handleAuthRequest env authData :
  frame R (AuthManager.handleAuthRequest env authData).
Proof. unfold AuthManager.handleAuthRequest. frame_auto. Qed.

Lemma frame_getAuthStatus env : frame R (AuthManager.getAuthStatus env).
Proof. unfold AuthManager.getAuthStatus. frame_auto. Qed.

#[local] Hint Resolve frame_handleAuthRequest frame_getAuthStatus : frame.

Lemma frame_forceReauth env authData :
  frame R (AuthManager.forceReauth env authData).
Proof. unfold AuthManager.forceReauth. frame_auto. Qed.

Lemma frame_makeCacheKey cardId users : frame R (_makeCacheKey cardId users).
Proof.
  unfold _makeCacheKey. frame_auto.
  frame_rule @frame_mapM. intros u. frame_auto.
Qed.

#[local] Hint Resolve frame_forceReauth frame_makeCacheKey : frame.

(** The handlers and the listeners, for relations that ignore responses. *)
Hypothesis R_response : forall w v, R w (with_response v w).
Hypothesis R_clearCache : frame R StorageManager.clearCache.

Lemma frame_sendResponse v : frame R (sendResponse v).
Proof. frame_rule @frame_modify. auto. Qed.

#[local] Hint Resolve frame_sendResponse : frame.

Lemma frame_handlers env msg key h :
  MessageHandlers.find_own key MessageHandlers.own = Some h ->
  frame R (h env msg).
Proof.
  unfold MessageHandlers.own. simpl.
  repeat (destruct (String.eqb key _); [intros [= <-]|]); [..|discriminate].
  all: match goal with |- frame _ (?f _ _) => unfold f end.
  all: frame_auto.
Qed.

Lemma frame_onMessage env message : frame R (onMessage env message).
Proof.
  unfold onMessage.
  destruct (MessageHandlers.lookup _) as [h| |] eqn:E; [|frame_auto..].
  unfold MessageHandlers.lookup in E.
  destruct (MessageHandlers.find_own _ _) as [h'|] eqn:F;
    [|case_match; discriminate].
  injection E as ->.
  frame_auto. eapply frame_handlers; eauto.
Qed.

Lemma frame_run_event env e w : R w (run_event env e w).
Proof.
  destruct e; simpl.
  - apply frame_onMessage.
  - assert (frame R onStartup) as H; [|apply H].
    unfold onStartup. frame_auto.
  - assert (frame R periodicCleanup) as H; [|apply H].
    unfold periodicCleanup. frame_auto.
Qed.

Lemma frame_run_events env es w : R w (run_events env es w).
Proof.
  revert w. induction es as [|e es IH]; intros w; simpl; [reflexivity|].
  etrans; [apply (frame_run_event env e) | apply IH].
Qed.

End Framing.

(** ** Keys written to [chrome.storage.local] *)

#[local] Instance writes_within_preorder (P : string -> Prop) :
  PreOrder (writes_within P).
Proof.
  split.
  - intros w. exists []. by rewrite app_nil_r.
  - intros w1 w2 w3 [k1 [E1 F1]] [k2 [E2 F2]]. exists (k1 ++ k2). split.
    + by rewrite E2, E1, app_assoc.
    + by apply Forall_app.
Qed.

Lemma writes_within_same (P : string -> Prop) (w w' : World) :
  storage_writes w' = storage_writes w -> writes_within P w w'.
Proof. intros E. exists []. by rewrite app_nil_r. Qed.

(** C4, as stated, fails: a [CHECK_HEALTH] message answered by a healthy
    API that reports categories writes the key ["mbf_health_cache"]. *)
Lemma health_cache_key_written :
  ~ writes_within spec_storage_key (initial_world 0)
      (run_event healthy_api (EvMessage check_health_message)
         (initial_world 0)).
Proof.
  intros [ks [E F]].
  assert (storage_writes
            (run_event healthy_api (EvMessage check_health_message)
               (initial_world 0)) = ["mbf_health_cache"]) as W
    by (vm_compute; reflexivity).
  rewrite W in E. simpl in E. subst ks.
  inversion F as [|k l [H|H] _]; discriminate H.
Qed.

(** C4, amended.  Whatever events the background script handles (any
    messages, start-ups and periodic clean-ups, in any environment and from
    any state), every key it writes to [chrome.storage.local] is the token
    key, the auth-meta key or the health-cache key. *)
Theorem storage_writes_keys (env : Env) (es : list Event) (w : World) :
  writes_within storage_key w (run_events env es w).
Proof.
  apply (frame_run_events (writes_within storage_key)
           storage_key (fun _ => True) (fun k _ => storage_key k)
           (fun _ => True));
    unfold storage_key; auto; intros;
    try (apply writes_within_same; reflexivity).
  - split; intros; try (apply writes_within_same; reflexivity).
    + intros w'. unfold StorageManager.get.
      destruct (sm_cache w' !! k); apply writes_within_same; reflexivity.
    + intros w'. exists [k]. split; [reflexivity | by constructor].
    + intros w'. apply writes_within_same. simpl. apply app_nil_r.
    + intros w'. apply writes_within_same; reflexivity.
  - intros w'. apply writes_within_same; reflexivity.
Qed.

(** ** The message dispatcher *)

#[local] Instance same_responses_preorder : PreOrder same_responses.
Proof.
  split; [intros w; reflexivity|].
  intros w1 w2 w3 H1 H2. unfold same_responses in *. congruence.
Qed.

Lemma same_responses_framed :
  Framed same_responses (fun _ => True) (fun _ => True) (fun _ _ => True)
    (fun _ => True).
Proof.
  split; intros; try reflexivity; intros w; try reflexivity.
  unfold StorageManager.get. destruct (sm_cache w !! k); reflexivity.
Qed.

Lemma post_sendResponse (v : JsVal) :
  post same_responses (@one_response unit) (sendResponse v).
Proof. intros w. simpl. by exists v. Qed.

Lemma one_response_closed {A} (w w1 : World) (b : A) (w2 : World) :
  same_responses w w1 -> one_response w1 b w2 -> one_response w b w2.
Proof. intros E [r Hr]. exists r. by rewrite Hr, E. Qed.

Ltac resp_frame :=
  repeat first
    [ frame_step
    | match goal with
      | |- frame _ (StorageManager.get _) => eapply frame_SM_get
      | |- frame _ (StorageManager.remove _) => eapply frame_SM_remove
      | |- frame _ (ApiClient.makeRequest _ _ _) => eapply frame_makeRequest
      | |- frame _ (ApiClient.checkHealth _) => eapply frame_checkHealth
      | |- frame _ (CookieManager.getAllRelevantCookies _) =>
          eapply frame_getAllRelevantCookies
      | |- frame _ AuthManager.getToken => eapply frame_getToken
      | |- frame _ (AuthManager.handleAuthRequest _ _) =>
          eapply frame_handleAuthRequest
      | |- frame _ (AuthManager.getAuthStatus _) =>
          eapply frame_getAuthStatus
      | |- frame _ (AuthManager.forceReauth _ _) => eapply frame_forceReauth
      | |- frame _ (_makeCacheKey _ _) => eapply frame_makeCacheKey
      | |- Framed same_responses _ _ _ _ => exact same_responses_framed
      | |- PreOrder _ => exact _
      | |- same_responses _ _ => reflexivity
      | |- forall _, _ => intro
      | |- _ => exact I
      end ].

Ltac post_step :=
  lazymatch goal with
  | |- post _ _ (bind _ _) =>
      apply post_bind;
        [exact _ | apply @one_response_closed | resp_frame | intros]
  | |- post _ _ (throw _) => apply post_throw; exact _
  | |- post _ _ (sendResponse _) => apply post_sendResponse
  | |- post _ _ (if ?b then _ else _) => destruct b
  | |- post _ _ (match ?x with _ => _ end) => destruct x
  end.

Lemma try_catch_responds (body : M unit) (f : string -> JsVal) :
  post same_responses one_response body ->
  forall w, exists r w',
    try_catch body (fun e => sendResponse (f e)) w = (Ok tt, w')
    /\ responses w' = responses w ++ [r].
Proof.
  intros H w. specialize (H w). unfold try_catch.
  destruct (body w) as [[[]|msg] w1].
  - destruct H as [r Hr]. by exists r, w1.
  - exists (f msg), (with_response (f msg) w1). split; [done|].
    simpl. by rewrite H.
Qed.

(** Every handler of [MessageHandlers] answers exactly once and does not
    reject. *)
Lemma handler_responds env msg key h :
  MessageHandlers.find_own key MessageHandlers.own = Some h ->
  forall w, exists r w',
    h env msg w = (Ok tt, w') /\ responses w' = responses w ++ [r].
Proof.
  unfold MessageHandlers.own. simpl.
  repeat (destruct (String.eqb key _); [intros [= <-]|]); [..|discriminate].
  all: match goal with |- forall _, exists _ _, ?f _ _ _ = _ /\ _ => unfold f end.
  all: try (apply try_catch_responds; repeat post_step).
  intros w. eexists _, _. split; reflexivity.
Qed.

(** A message whose type is an own property of [MessageHandlers] is
    answered exactly once, and nothing propagates out of the listener. *)
Lemma onMessage_known env message h :
  MessageHandlers.find_own (ToString (msg_type message)) MessageHandlers.own
    = Some h ->
  forall w, exists r w',
    onMessage env message w = (Ok true, w')
    /\ responses w' = responses w ++ [r].
Proof.
  intros Hh w. unfold onMessage, MessageHandlers.lookup. rewrite Hh.
  destruct (handler_responds env message _ h Hh w) as (r & w' & E & Hr).
  exists r, w'. unfold bind, try_catch. by rewrite E.
Qed.

(** Whatever a handler does, a rejection is turned into a response with
    [success: false] and the error message. *)
Lemma listener_catches (h : M unit) (w w1 : World) (e : string) :
  h w = (Throw e, w1) ->
  try_catch h (fun message => sendResponse (failure message)) w
  = (Ok tt, with_response
              (JObj [("success", JBool false); ("error", JStr e)]) w1).
Proof. intros E. unfold try_catch. by rewrite E. Qed.

(** A type that [MessageHandlers] neither owns nor inherits is answered
    with the error response. *)
Lemma onMessage_unknown env message w :
  MessageHandlers.lookup (ToString (msg_type message))
    = MessageHandlers.Undefined ->
  onMessage env message w
  = (Ok false,
     with_response (JObj [("error", JStr "Unknown message type")]) w).
Proof. intros E. unfold onMessage. by rewrite E. Qed.

(** A type inherited from [Object.prototype] is not answered at all. *)
Lemma onMessage_inherited env message w :
  MessageHandlers.lookup (ToString (msg_type message))
    = MessageHandlers.Inherited ->
  onMessage env message w = (Throw "TypeError", w).
Proof. intros E. unfold onMessage. by rewrite E. Qed.

(** C5, at the failing input.  ["toString"] is not the type of any handler
    of [MessageHandlers], yet a message of that type gets no response: the
    listener throws, in every environment and from every state. *)
Theorem onMessage_toString_throws (env : Env) (w : World) :
  MessageHandlers.find_own "toString" MessageHandlers.own = None
  /\ onMessage env toString_message w = (Throw "TypeError", w)
  /\ responses (snd (onMessage env toString_message w)) = responses w.
Proof. repeat split. Qed.

(** ** The auth metadata record *)


(** The fifth field matters: two records that agree on the four fields of
    the specification are treated differently. *)
Lemma lastAttempt_is_read :
  let m1 := {| lastTime := 1000; lastUser := JStr "u"; lastCsrf := JStr "c";
               lastAttempt := 1000; failureCount := 1 |} in
  let m2 := {| lastTime := 1000; lastUser := JStr "u"; lastCsrf := JStr "c";
               lastAttempt := 50000; failureCount := 1 |} in
  shouldAuth (shouldPerformAuth 60000 (JStr "t") m1 (JStr "u") (JStr "c"))
    = true
  /\ shouldAuth (shouldPerformAuth 60000 (JStr "t") m2 (JStr "u") (JStr "c"))
    = false.
Proof. split; reflexivity. Qed.

#[local] Instance keeps_meta_typed_preorder : PreOrder keeps_meta_typed.
Proof. split; [by intros w H | intros w1 w2 w3 H1 H2 H; auto]. Qed.




(** ** Effects of an authentication attempt *)

Lemma bind_ok {A B} (m : M A) (k : A -> M B) w a w1 :
  m w = (Ok a, w1) -> bind m k w = k a w1.
Proof. intros E. unfold bind. by rewrite E. Qed.

Lemma bind_throw {A B} (m : M A) (k : A -> M B) w e w1 :
  m w = (Throw e, w1) -> bind m k w = (Throw e, w1).
Proof. intros E. unfold bind. by rewrite E. Qed.

Lemma nothrow_run {A} (m : M A) (w : World) :
  nothrow m -> exists a w', m w = (Ok a, w').
Proof.
  intros H. destruct (H w) as [a Ha].
  destruct (m w) as [r w'] eqn:E. simpl in Ha. subst. by exists a, w'.
Qed.

Lemma nothrow_getAuthMeta : nothrow AuthManager.getAuthMeta.
Proof.
  apply nothrow_bind; [|intros; apply nothrow_ret].
  intros w. unfold StorageManager.get.
  destruct (sm_cache w !! CONFIG.AUTH_META); by eexists.
Qed.

Lemma nothrow_Cache_get key : nothrow (Cache_get key).
Proof.
  intros w. unfold Cache_get.
  destruct (Cache.get (now w) key (cache w)). by eexists.
Qed.

Lemma nothrow_checkHealth env : nothrow (ApiClient.checkHealth env).
Proof.
  apply nothrow_bind; [apply nothrow_Cache_get|]. intros cached.
  destruct (truthy cached); [apply nothrow_ret|].
  apply nothrow_try_catch. intros msg.
  apply nothrow_bind; [apply nothrow_modify | intros; apply nothrow_ret].
Qed.

(** The cookies are always collected, into an object. *)
Lemma getAllRelevantCookies_object env w :
  exists fs w',
    CookieManager.getAllRelevantCookies env w = (Ok (JObj fs), w').
Proof.
  unfold CookieManager.getAllRelevantCookies, bind.
  destruct (CookieManager.getRequiredCookies env w) as [[a|e] w1] eqn:E1.
  - destruct (CookieManager.getRememberWebCookies env w1) as [[b|e] w2] eqn:E2.
    + by eexists _, _.
    + exfalso. revert E2. unfold CookieManager.getRememberWebCookies, bind.
      destruct (Cache_get _ w1) as [[c|?] ?] eqn:E;
        [|destruct (nothrow_Cache_get "remember_cookies" w1) as [? H];
          rewrite E in H; discriminate].
      destruct (truthy c); simpl; discriminate.
  - exfalso. revert E1. unfold CookieManager.getRequiredCookies, bind.
    destruct (Cache_get _ w) as [[c|?] ?] eqn:E;
      [|destruct (nothrow_Cache_get "required_cookies" w) as [? H];
        rewrite E in H; discriminate].
    destruct (truthy c); simpl; discriminate.
Qed.

Section TryBlock.

Context (R : relation World) `{!PreOrder R}.
Context (okkey okdel : string -> Prop) (okput : string -> StoreVal -> Prop)
  (okreq : string * JsVal -> Prop).
Context (HF : Framed R okkey okdel okput okreq).
Hypothesis okput_HEALTH_CACHE :
  forall c t, okput CONFIG.HEALTH_CACHE (SHealth c t).
Hypothesis okreq_any : forall r, okreq r.

(** If the [try] block throws, it stayed within [R]; if it returns, the
    attempt succeeded. *)
Lemma executeAuth_try_post env user csrf startTime :
  post R (fun _ => auth_succeeded user csrf startTime)
    (AuthManager._executeAuth_try env user csrf startTime).
Proof.
  unfold AuthManager._executeAuth_try.
  apply post_bind; [exact _ | auto | |].
  { eapply frame_checkHealth; eauto. }
  intros healthCheck.
  apply post_bind; [exact _ | auto | frame_rule @frame_prop |].
  intros status.
  apply post_bind; [exact _ | auto | |].
  { destruct (strict_neq _ _); frame_auto. }
  intros _.
  apply post_bind; [exact _ | auto | |].
  { eapply frame_getAllRelevantCookies; eauto. }
  intros cookies.
  apply post_bind; [exact _ | auto | |].
  { destruct (_ =? _)%nat; frame_auto. }
  intros _.
  apply post_bind; [exact _ | auto | |].
  { eapply frame_makeRequest; eauto. }
  intros response w.
  destruct (negb (truthy response) || negb (typeof_object response)) eqn:Hbad.
  { unfold bind at 1. simpl. reflexivity. }
  destruct response as [| |b|n|s|l|fs]; simpl in Hbad;
    rewrite ?orb_true_r in Hbad; try discriminate Hbad.
  - (* an array has no [token] *)
    unfold auth_succeeded. simpl.
    rewrite !lookup_insert_eq. eauto.
  - unfold auth_succeeded, bind at 1 2. simpl.
    unfold AuthManager.setToken.
    destruct (truthy (default JUndef (assoc "token" fs)));
      simpl; rewrite !lookup_insert_eq; eauto.
Qed.

End TryBlock.

#[local] Instance token_kept_preorder : PreOrder token_kept.
Proof.
  split; [intros w; split; reflexivity|].
  intros w1 w2 w3 [H1 H2] [H3 H4]. split; congruence.
Qed.




#[local] Instance requests_within_preorder (P : string * JsVal -> Prop) :
  PreOrder (requests_within P).
Proof.
  split.
  - intros w. exists []. by rewrite app_nil_r.
  - intros w1 w2 w3 [k1 [E1 F1]] [k2 [E2 F2]]. exists (k1 ++ k2). split.
    + by rewrite E2, E1, app_assoc.
    + by apply Forall_app.
Qed.

Lemma requests_within_same (P : string * JsVal -> Prop) (w w' : World) :
  requests w' = requests w -> requests_within P w w'.
Proof. intros E. exists []. by rewrite app_nil_r. Qed.

Lemma requests_within_framed (P : string * JsVal -> Prop) :
  Framed (requests_within P) (fun _ => True) (fun _ => True)
    (fun _ _ => True) P.
Proof.
  split; intros; try (apply requests_within_same; reflexivity);
    try (intros w; apply requests_within_same; reflexivity).
  - exists [r]. split; [reflexivity | by constructor].
  - intros w. unfold StorageManager.get.
    destruct (sm_cache w !! k); apply requests_within_same; reflexivity.
Qed.

Lemma prop_world (v : JsVal) (k : string) (w : World) :
  snd (prop v k w) = w.
Proof. by destruct v. Qed.

Lemma executeAuth_caught env user csrf w meta w1 e w2 :
  AuthManager.getAuthMeta w = (Ok meta, w1) ->
  AuthManager._executeAuth_try env user csrf (now w) w1 = (Throw e, w2) ->
  exists d w',
    AuthManager._executeAuth env user csrf w
    = (Ok (JObj [("success", JBool false); ("error", JStr e);
                 ("duration", d)]), w')
    /\ requests w' = requests w2.
Proof.
  intros E1 E2. unfold AuthManager._executeAuth.
  rewrite (bind_ok _ _ w (now w) w) by reflexivity.
  rewrite (bind_ok _ _ _ _ _ E1). unfold try_catch. rewrite E2.
  by eexists _, _.
Qed.

Lemma executeAuth_returned env user csrf w meta w1 r w2 :
  AuthManager.getAuthMeta w = (Ok meta, w1) ->
  AuthManager._executeAuth_try env user csrf (now w) w1 = (Ok r, w2) ->
  AuthManager._executeAuth env user csrf w = (Ok r, w2).
Proof.
  intros E1 E2. unfold AuthManager._executeAuth.
  rewrite (bind_ok _ _ w (now w) w) by reflexivity.
  rewrite (bind_ok _ _ _ _ _ E1). unfold try_catch. by rewrite E2.
Qed.

(** The requests of the [try] block of [_executeAuth], given the health
    answer and the cookies it collects. *)
Lemma executeAuth_try_requests env user csrf startTime w1 hc w2 cookies w3 :
  ApiClient.checkHealth env w1 = (Ok hc, w2) ->
  CookieManager.getAllRelevantCookies env w2 = (Ok (JObj cookies), w3) ->
  let sent := ("/set_http_data",
               JObj [("cookie", JObj cookies); ("csrf_token", csrf)]) in
  exists r w4,
    AuthManager._executeAuth_try env user csrf startTime w1 = (r, w4)
    /\ requests_within (fun r => r = ("/health", JUndef) \/ r = sent) w1 w4
    /\ (forall v, r = Ok v ->
        exists rs, requests w4 = requests w1 ++ rs /\ In sent rs)
    /\ (Object_keys cookies = [] ->
        (exists e, r = Throw e)
        /\ requests_within (fun r => fst r <> "/set_http_data") w1 w4).
Proof.
  intros E2 E3 sent.
  assert (forall P, P ("/health", JUndef) -> requests_within P w1 w2) as H12.
  { intros P HP.
    pose proof (frame_checkHealth (requests_within P) _ _ _ _
                  (requests_within_framed P) env
                  ltac:(done) HP w1) as H.
    by rewrite E2 in H. }
  assert (forall P, requests_within P w2 w3) as H23.
  { intros P.
    pose proof (frame_getAllRelevantCookies (requests_within P) _ _ _ _
                  (requests_within_framed P) env w2) as H.
    by rewrite E3 in H. }
  unfold AuthManager._executeAuth_try. rewrite (bind_ok _ _ _ _ _ E2).
  destruct (prop hc "status" w2) as [[status|e] w2'] eqn:E;
    pose proof (prop_world hc "status" w2) as Hw; rewrite E in Hw;
    simpl in Hw; subst w2'.
  2:{ rewrite (bind_throw _ _ _ _ _ E). eexists _, _.
      split; [reflexivity|]. split; [apply H12; auto|].
      split; [discriminate|]. intros _. split; [eauto|].
      apply H12. discriminate. }
  rewrite (bind_ok _ _ _ _ _ E).
  destruct (strict_neq status (JStr "healthy")).
  { destruct (prop hc "error" w2) as [[error|e] w2'] eqn:Ee;
      pose proof (prop_world hc "error" w2) as Hw; rewrite Ee in Hw;
      simpl in Hw; subst w2'.
    - erewrite (bind_throw _ _ w2 _ w2);
        [|by rewrite (bind_ok _ _ _ _ _ Ee)].
      eexists _, _. split; [reflexivity|]. split; [apply H12; auto|].
      split; [discriminate|]. intros _. split; [eauto|].
      apply H12. discriminate.
    - erewrite (bind_throw _ _ w2 _ w2);
        [|by rewrite (bind_throw _ _ _ _ _ Ee)].
      eexists _, _. split; [reflexivity|]. split; [apply H12; auto|].
      split; [discriminate|]. intros _. split; [eauto|].
      apply H12. discriminate. }
  rewrite (bind_ok _ _ w2 tt w2) by reflexivity.
  rewrite (bind_ok _ _ _ _ _ E3). simpl own_fields.
  destruct (length (Object_keys cookies) =? 0)%nat eqn:Hlen.
  { rewrite (bind_throw _ _ w3 "No cookies found" w3) by reflexivity.
    eexists _, _. split; [reflexivity|].
    split; [etrans; [apply H12; auto | apply H23]|].
    split; [discriminate|]. intros _. split; [eauto|].
    etrans; [apply H12; discriminate | apply H23]. }
  assert (Object_keys cookies <> []) as Hne.
  { intros Hnil. rewrite Hnil in Hlen. discriminate. }
  rewrite (bind_ok _ _ w3 tt w3) by reflexivity.
  set (w4 := with_now (now w3 + env_latency env (length (requests w3)))
               (with_request sent w3)).
  assert (requests_within (fun r => r = ("/health", JUndef) \/ r = sent)
            w1 w4) as H14.
  { etrans; [apply H12; auto|]. etrans; [apply H23|].
    exists [sent]. split; [reflexivity|]. constructor; auto. }
  assert (exists rs, requests w4 = requests w1 ++ rs /\ In sent rs) as Hin.
  { destruct (H12 (fun _ => True) I) as (r1 & R1 & _).
    destruct (H23 (fun _ => True)) as (r2 & R2 & _).
    exists (r1 ++ r2 ++ [sent]). split.
    - simpl. rewrite R2, R1. by rewrite <- !app_assoc.
    - apply in_or_app. right. apply in_or_app. right. by left. }
  destruct (env_fetch env (length (requests w3)) "/set_http_data"
              (JObj [("cookie", JObj cookies); ("csrf_token", csrf)]))
    as [response|e] eqn:Ef.
  2:{ rewrite (bind_throw _ _ w3 e w4)
        by (unfold ApiClient.sendAuthData, ApiClient.makeRequest;
            by rewrite Ef).
      eexists _, _. split; [reflexivity|]. split; [exact H14|].
      split; [discriminate|]. intros Hnil. contradiction. }
  rewrite (bind_ok _ _ w3 response w4)
    by (unfold ApiClient.sendAuthData, ApiClient.makeRequest;
        by rewrite Ef).
  destruct (negb (truthy response) || negb (typeof_object response)) eqn:Hbad.
  { rewrite (bind_throw _ _ w4 "Invalid API response" w4) by reflexivity.
    eexists _, _. split; [reflexivity|]. split; [exact H14|].
    split; [discriminate|]. intros Hnil. contradiction. }
  rewrite (bind_ok _ _ w4 tt w4) by reflexivity.
  destruct response as [| |b|n|s|l|fs]; simpl in Hbad;
    rewrite ?orb_true_r in Hbad; try discriminate Hbad.
  - eexists _, _. split; [reflexivity|]. simpl.
    split; [exact H14|]. split; [intros; exact Hin|].
    intros Hnil. contradiction.
  - unfold bind at 1. simpl. unfold AuthManager.setToken.
    destruct (truthy (default JUndef (assoc "token" fs)));
      (eexists _, _; split; [reflexivity|]; simpl;
       split; [exact H14|]; split; [intros; exact Hin|];
       intros Hnil; contradiction).
Qed.

Lemma assoc_obj_set_eq k v fs : assoc k (obj_set k v fs) = Some v.
Proof.
  induction fs as [|[k' v'] fs IH]; simpl.
  - by rewrite String.eqb_refl.
  - destruct (String.eqb k k') eqn:E; simpl; rewrite ?String.eqb_refl, ?E; done.
Qed.

Lemma assoc_obj_set_ne k k' v fs :
  k <> k' -> assoc k (obj_set k' v fs) = assoc k fs.
Proof.
  intros Hne. apply String.eqb_neq in Hne.
  induction fs as [|[k2 v2] fs IH]; simpl.
  - by rewrite Hne.
  - destruct (String.eqb k' k2) eqn:E; simpl.
    + apply String.eqb_eq in E. subst k2. by rewrite Hne.
    + by rewrite IH.
Qed.

(** *** The request that carries the cookies *)

Lemma requests_within_none w w' :
  requests_within (fun _ => False) w w' -> requests w' = requests w.
Proof.
  intros (rs & E & H). destruct rs as [| r rs]; [by rewrite E, app_nil_r |].
  inversion H; contradiction.
Qed.

(** The [try] block of [_executeAuth] sends the auth data exactly when the
    health check answers [healthy] and the cookie record is not empty, and
    its outcome is then decided by the answer to that request. *)
Lemma executeAuth_try_cases env user csrf startTime w1 hc w2 cookies w3 :
  ApiClient.checkHealth env w1 = (Ok hc, w2) ->
  CookieManager.getAllRelevantCookies env w2 = (Ok (JObj cookies), w3) ->
  let body := JObj [("cookie", JObj cookies); ("csrf_token", csrf)] in
  let n := length (requests w3) in
  exists r w4,
    AuthManager._executeAuth_try env user csrf startTime w1 = (r, w4)
    /\ (((exists e, r = Throw e)
         /\ requests w4 = requests w3
         /\ (assoc "status" (own_fields hc) <> Some (JStr "healthy")
             \/ Object_keys cookies = []))
        \/ (requests w4 = requests w3 ++ [("/set_http_data", body)]
            /\ match env_fetch env n "/set_http_data" body with
               | Ok response =>
                   if truthy response && typeof_object response then
                     let token :=
                       default JUndef (assoc "token" (own_fields response)) in
                     (exists duration,
                        r = Ok (JObj [("success", JBool true);
                                      ("token", token);
                                      ("duration", duration)]))
                     /\ (if truthy token then
                           storage w4 !! CONFIG.TOKEN = Some (SJs token)
                           /\ sm_cache w4 !! CONFIG.TOKEN
                              = Some (Some (SJs token))
                         else token_kept w3 w4)
                   else r = Throw "Invalid API response"
               | Throw e => r = Throw e
               end)).
Proof.
  intros E2 E3 body n.
  assert (requests w3 = requests w2) as H23.
  { apply requests_within_none.
    pose proof (frame_getAllRelevantCookies (requests_within (fun _ => False))
                  _ _ _ _ (requests_within_framed _) env w2) as H.
    by rewrite E3 in H. }
  unfold AuthManager._executeAuth_try. rewrite (bind_ok _ _ _ _ _ E2).
  destruct (prop hc "status" w2) as [[status|e] w2'] eqn:E;
    pose proof (prop_world hc "status" w2) as Hw; rewrite E in Hw;
    simpl in Hw; subst w2'.
  2:{ rewrite (bind_throw _ _ _ _ _ E). eexists _, _.
      split; [reflexivity |]. left. split; [eauto |]. split; [done |].
      left. destruct hc; simpl in E; try discriminate E; done. }
  rewrite (bind_ok _ _ _ _ _ E).
  destruct (strict_neq status (JStr "healthy")) eqn:Hs.
  { assert (assoc "status" (own_fields hc) <> Some (JStr "healthy")) as Hne.
    { intros Hh. destruct hc; simpl in Hh; try discriminate Hh.
      simpl in E. rewrite Hh in E. injection E as <-.
      discriminate Hs. }
    destruct (prop hc "error" w2) as [[error|e] w2'] eqn:Ee;
      pose proof (prop_world hc "error" w2) as Hw; rewrite Ee in Hw;
      simpl in Hw; subst w2'.
    - erewrite (bind_throw _ _ w2 _ w2);
        [| by rewrite (bind_ok _ _ _ _ _ Ee)].
      eexists _, _. split; [reflexivity |]. left. eauto.
    - erewrite (bind_throw _ _ w2 _ w2);
        [| by rewrite (bind_throw _ _ _ _ _ Ee)].
      eexists _, _. split; [reflexivity |]. left. eauto. }
  rewrite (bind_ok _ _ w2 tt w2) by reflexivity.
  rewrite (bind_ok _ _ _ _ _ E3). simpl own_fields.
  destruct (length (Object_keys cookies) =? 0)%nat eqn:Hlen.
  { rewrite (bind_throw _ _ w3 "No cookies found" w3) by reflexivity.
    eexists _, _. split; [reflexivity |]. left.
    split; [eauto |]. split; [done |]. right.
    apply Nat.eqb_eq in Hlen. by destruct (Object_keys cookies). }
  rewrite (bind_ok _ _ w3 tt w3) by reflexivity.
  set (w4 := with_now (now w3 + env_latency env n)
               (with_request ("/set_http_data", body) w3)).
  destruct (env_fetch env n "/set_http_data" body) as [response|e] eqn:Ef.
  2:{ rewrite (bind_throw _ _ w3 e w4)
        by (unfold ApiClient.sendAuthData, ApiClient.makeRequest;
            fold body; fold n; by rewrite Ef).
      eexists _, _. split; [reflexivity |]. right. by split. }
  rewrite (bind_ok _ _ w3 response w4)
    by (unfold ApiClient.sendAuthData, ApiClient.makeRequest;
        fold body; fold n; by rewrite Ef).
  destruct (negb (truthy response) || negb (typeof_object response)) eqn:Hbad.
  { rewrite (bind_throw _ _ w4 "Invalid API response" w4) by reflexivity.
    eexists _, _. split; [reflexivity |]. right. split; [done |].
    apply orb_true_iff in Hbad as [Hb | Hb]; apply negb_true_iff in Hb;
      rewrite Hb; by rewrite ?andb_false_r. }
  apply orb_false_elim in Hbad as [Tr To].
  apply negb_false_iff in Tr, To. rewrite Tr, To. cbn [andb].
  rewrite (bind_ok _ _ w4 tt w4) by reflexivity.
  destruct response as [| |b|m|x|l|fs]; try discriminate To;
    try discriminate Tr.
  - eexists _, _. split; [reflexivity |]. right. simpl.
    split; [done |]. split; [by eexists |].
    split; simpl; by rewrite ?lookup_insert_ne.
  - unfold bind at 1. simpl. unfold AuthManager.setToken.
    destruct (truthy (default JUndef (assoc "token" fs))) eqn:Tt; simpl;
      eexists _, _; (split; [reflexivity |]); right; (split; [done |]);
      (split; [by eexists |]); subst w4; simpl.
    + split; (rewrite lookup_insert_ne by done); by rewrite lookup_insert_eq.
    + split; simpl; by rewrite ?lookup_insert_ne.
Qed.

(** A required cookie of the jar with a value is in the record collected
    anew, with that value. *)
Lemma required_kept env names name value acc :
  CookieManager.cookies_get env name = Some value ->
  assoc name acc = Some (JStr value) ->
  assoc name
    (fold_left
       (fun result name =>
          match CookieManager.cookies_get env name with
          | Some value =>
              if truthy (JStr value) then obj_set name (JStr value) result
              else result
          | None => result
          end) names acc) = Some (JStr value).
Proof.
  intros Hg. revert acc. induction names as [| n names IH]; intros acc Ha;
    [done |].
  cbn [fold_left]. apply IH.
  destruct (CookieManager.cookies_get env n) as [v |] eqn:E; [| done].
  destruct (truthy (JStr v)); [| done].
  destruct (decide (name = n)) as [<- | Hne].
  - rewrite Hg in E. injection E as <-. apply assoc_obj_set_eq.
  - by rewrite assoc_obj_set_ne.
Qed.

Lemma required_collected env names name value acc :
  In name names ->
  CookieManager.cookies_get env name = Some value -> value <> "" ->
  assoc name
    (fold_left
       (fun result name =>
          match CookieManager.cookies_get env name with
          | Some value =>
              if truthy (JStr value) then obj_set name (JStr value) result
              else result
          | None => result
          end) names acc) = Some (JStr value).
Proof.
  intros Hin Hg Hv. revert acc.
  induction names as [| n names IH]; intros acc; [destruct Hin |].
  cbn [fold_left]. destruct (decide (n = name)) as [-> | Hne].
  - apply required_kept; [done |]. rewrite Hg.
    apply String.eqb_neq in Hv. cbn [truthy]. rewrite Hv. cbn [negb].
    apply assoc_obj_set_eq.
  - destruct Hin as [-> | Hin]; [done |]. by apply IH.
Qed.

Lemma remember_keys cookies name acc :
  (forall c, In c cookies ->
     String.prefix CONFIG.REMEMBER_WEB_PREFIX (fst c) = true) ->
  String.prefix CONFIG.REMEMBER_WEB_PREFIX name = false ->
  assoc name
    (spread acc
       (fold_left
          (fun acc cookie => obj_set (fst cookie) (JStr (snd cookie)) acc)
          cookies []))
  = assoc name acc.
Proof.
  intros Hp Hn.
  assert (Hk : forall fs : list (string * JsVal),
             (forall k v, In (k, v) fs ->
                String.prefix CONFIG.REMEMBER_WEB_PREFIX k = true) ->
             assoc name (spread acc fs) = assoc name acc).
  { unfold spread. intros fs. revert acc.
    induction fs as [| [k v] fs IH]; intros acc Hfs; [done |].
    cbn [fold_left fst snd]. rewrite IH by (intros; eapply Hfs; by right).
    apply assoc_obj_set_ne. intros ->.
    rewrite (Hfs k v) in Hn by (by left). discriminate. }
  apply Hk.
  assert (Hf : forall (cs : list (string * string)) (a : list (string * JsVal)),
             (forall c, In c cs ->
                String.prefix CONFIG.REMEMBER_WEB_PREFIX (fst c) = true) ->
             (forall k v, In (k, v) a ->
                String.prefix CONFIG.REMEMBER_WEB_PREFIX k = true) ->
             forall k v,
               In (k, v)
                 (fold_left
                    (fun acc cookie =>
                       obj_set (fst cookie) (JStr (snd cookie)) acc) cs a) ->
               String.prefix CONFIG.REMEMBER_WEB_PREFIX k = true).
  { induction cs as [| c cs IH]; intros a Hcs Ha k v; [apply Ha |].
    cbn [fold_left]. apply IH; [intros; apply Hcs; by right |].
    intros k' v' Hin.
    assert (Hset : forall fs : list (string * JsVal),
               In (k', v') (obj_set (fst c) (JStr (snd c)) fs) ->
               (k', v') = (fst c, JStr (snd c)) \/ In (k', v') fs).
    { induction fs as [| [k2 v2] fs IHfs]; cbn [obj_set].
      - intros [<- | []]. by left.
      - destruct (String.eqb (fst c) k2).
        + intros [<- | H]; [by left | right; by right].
        + intros [<- | H]; [right; by left |].
          destruct (IHfs H) as [? | ?]; [by left | right; by right]. }
    destruct (Hset a Hin) as [[= -> _] | H]; [apply Hcs; by left |].
    by apply (Ha k' v'). }
  intros k v. apply Hf; [exact Hp | intros ? ? []].
Qed.

(** ** Forced re-authentication *)

(** An attempt always returns a result object. *)
Lemma executeAuth_returns_object env user csrf w :
  exists res w', AuthManager._executeAuth env user csrf w = (Ok (JObj res), w').
Proof.
  destruct (nothrow_run _ w nothrow_getAuthMeta) as (meta & w1 & E1).
  destruct (AuthManager._executeAuth_try env user csrf (now w) w1)
    as [[r|e] w2] eqn:Et.
  - pose proof (executeAuth_try_post (requests_within (fun _ => True))
                  _ _ _ _ (requests_within_framed _)
                  ltac:(done) ltac:(done) env user csrf (now w) w1) as Hp.
    rewrite Et in Hp. destruct Hp as ([token ->] & _).
    eexists _, _. apply (executeAuth_returned _ _ _ _ _ _ _ _ E1 Et).
  - destruct (executeAuth_caught _ _ _ _ _ _ _ _ E1 Et) as (d & w' & Ex & _).
    by eexists _, _.
Qed.

Lemma shouldPerformAuth_after_reset now token user csrf :
  truthy user = true -> truthy csrf = true ->
  let d := shouldPerformAuth now token
             {| lastTime := 0; lastUser := JNull; lastCsrf := JNull;
                lastAttempt := 0; failureCount := 0 |} user csrf in
  shouldAuth d = true /\ (reason d = no_token \/ reason d = user_changed).
Proof.
  intros Hu Hc. unfold shouldPerformAuth.
  destruct (truthy token); simpl; [|auto].
  rewrite Hc, Hu. simpl.
  assert (strict_neq user JNull = true) as ->
    by (destruct user; simpl in *; done).
  auto.
Qed.

Lemma performAuthentication_returns env fs user csrf w :
  assoc "currentUser" fs = Some user ->
  assoc "csrfToken" fs = Some csrf ->
  (forall e, pendingAuthRequest w <> Some (Throw e)) ->
  exists v w', AuthManager.performAuthentication env (JObj fs) w = (Ok v, w').
Proof.
  intros Hu Hc Hpend. unfold AuthManager.performAuthentication.
  rewrite (bind_ok _ _ w user w) by (simpl; by rewrite Hu).
  rewrite (bind_ok _ _ w csrf w) by (simpl; by rewrite Hc).
  erewrite bind_ok; [|reflexivity].
  destruct (pendingAuthRequest w) as [[v|e]|] eqn:Ep.
  - by eexists _, _.
  - by destruct (Hpend e).
  - destruct (executeAuth_returns_object env user csrf w) as (res & w1 & E).
    erewrite bind_ok; [|unfold promise_of; by rewrite E].
    erewrite bind_ok; [|reflexivity].
    by eexists _, _.
Qed.

(** ** The key of pending user-status requests *)

Lemma string_compare_trans (c : comparison) (s1 s2 s3 : string) :
  String.compare s1 s2 = c -> String.compare s2 s3 = c ->
  String.compare s1 s3 = c.
Proof.
  revert s2 s3. induction s1 as [|a s1 IH]; intros [|b s2] [|d s3]; simpl;
    try congruence.
  unfold Ascii.compare.
  destruct (N.compare_spec (Ascii.N_of_ascii a) (Ascii.N_of_ascii b)) as [E1|L1|G1];
    destruct (N.compare_spec (Ascii.N_of_ascii b) (Ascii.N_of_ascii d)) as [E2|L2|G2];
    destruct (N.compare_spec (Ascii.N_of_ascii a) (Ascii.N_of_ascii d)) as [E3|L3|G3];
    try lia; try congruence; eauto.
Qed.

#[local] Instance string_le_trans : Transitive string_le.
Proof.
  intros s1 s2 s3. unfold string_le, String.leb. intros H1 H2.
  destruct (String.compare s1 s2) eqn:E1; [| |discriminate].
  - apply String.compare_eq_iff in E1. by subst.
  - destruct (String.compare s2 s3) eqn:E2; [| |discriminate].
    + apply String.compare_eq_iff in E2. subst. by rewrite E1.
    + by rewrite (string_compare_trans Lt s1 s2 s3).
Qed.

#[local] Instance string_le_antisym : AntiSymm (=) string_le.
Proof. intros s1 s2. apply String.leb_antisym. Qed.

Lemma sort_insert_perm x l : sort_insert x l ≡ₚ x :: l.
Proof.
  induction l as [|y l IH]; simpl; [done|].
  destruct (sort_le x y); [done|]. rewrite IH. apply perm_swap.
Qed.

Lemma sort_perm l : foldr sort_insert [] l ≡ₚ l.
Proof.
  induction l as [|x l IH]; simpl; [done|].
  by rewrite sort_insert_perm, IH.
Qed.

Lemma sort_insert_sorted x l :
  Sorted string_le (ToString <$> l) ->
  Sorted string_le (ToString <$> sort_insert x l).
Proof.
  induction l as [|y l IH]; simpl; intros Hs.
  - repeat constructor.
  - destruct (sort_le x y) eqn:E.
    + simpl. constructor; [done|]. by constructor.
    + inversion Hs as [|?? Hs' Hhd]; subst. simpl.
      constructor; [by apply IH|].
      assert (string_le (ToString y) (ToString x)) as Hyx.
      { destruct (String.leb_total (ToString x) (ToString y)) as [H|H];
          [unfold sort_le in E; congruence | done]. }
      destruct l as [|z l]; simpl.
      * by constructor.
      * destruct (sort_le x z); simpl; constructor; [done|].
        by inversion Hhd.
Qed.

Lemma sort_sorted l : Sorted string_le (ToString <$> foldr sort_insert [] l).
Proof.
  induction l as [|x l IH]; simpl; [constructor|].
  by apply sort_insert_sorted.
Qed.

(** Sorting makes the list of string values independent of the order. *)
Lemma sort_strings_perm l1 l2 :
  l1 ≡ₚ l2 ->
  ToString <$> foldr sort_insert [] l1 = ToString <$> foldr sort_insert [] l2.
Proof.
  intros Hp. apply (Sorted_unique string_le); try apply sort_sorted.
  apply fmap_Permutation. by rewrite !sort_perm.
Qed.

Lemma filter_all {A} (f : A -> bool) (l : list A) :
  Forall (fun x => f x = true) l -> List.filter f l = l.
Proof.
  induction 1 as [|x l Hx _ IH]; simpl; [done|]. by rewrite Hx, IH.
Qed.

Lemma filter_none {A} (f : A -> bool) (l : list A) :
  Forall (fun x => f x = false) l -> List.filter f l = [].
Proof.
  induction 1 as [|x l Hx _ IH]; simpl; [done|]. by rewrite Hx.
Qed.

Lemma Array_sort_join_perm ids1 ids2 :
  Forall (fun v => nullish v = false) ids1 ->
  ids1 ≡ₚ ids2 ->
  Array_join "," (Array_sort ids1) = Array_join "," (Array_sort ids2).
Proof.
  intros Hn1 Hp.
  assert (Forall (fun v => nullish v = false) ids2) as Hn2
    by (by rewrite <- Hp).
  assert (forall ids, Forall (fun v => nullish v = false) ids ->
            Array_join "," (Array_sort ids)
            = join "," (ToString <$> foldr sort_insert [] ids)) as Hj.
  { intros ids Hn. unfold Array_sort, Array_join.
    rewrite (filter_all (fun v => negb (strict_eq v JUndef)) ids),
      (filter_none (fun v => strict_eq v JUndef) ids), app_nil_r.
    - f_equal. apply map_ext_in. intros v Hv.
      assert (nullish v = false) as ->; [|done].
      apply (proj1 (Forall_forall _ _) Hn).
      rewrite <- (sort_perm ids). by apply list_elem_of_In.
    - eapply Forall_impl; [exact Hn|]. by intros [] ?.
    - eapply Forall_impl; [exact Hn|]. by intros [] ?. }
  rewrite (Hj ids1 Hn1), (Hj ids2 Hn2). f_equal. by apply sort_strings_perm.
Qed.

Lemma makeCacheKey_eval cardId users w :
  _makeCacheKey cardId users w
  = (match ids_of users with
     | Ok ids =>
         Ok (ToString cardId +:+ ":" +:+ Array_join "," (Array_sort ids))
     | Throw e => Throw e
     end, w).
Proof.
  unfold _makeCacheKey.
  assert (mapM (fun u => let* user_id := prop u "user_id" in
                         ret (js_or user_id u)) users w
          = (ids_of users, w)) as E.
  { induction users as [|u users IH]; [done|]. cbn [mapM ids_of].
    destruct (id_of u) as [v|e] eqn:Ev.
    - rewrite (bind_ok _ _ w v w)
        by (destruct u; simpl in Ev; try discriminate Ev;
            injection Ev as <-; reflexivity).
      destruct (ids_of users) as [vs|e].
      + by rewrite (bind_ok _ _ _ _ _ IH).
      + by rewrite (bind_throw _ _ _ _ _ IH).
    - rewrite (bind_throw _ _ w e w)
        by (destruct u; simpl in Ev; try discriminate Ev;
            injection Ev as <-; reflexivity).
      done. }
  destruct (ids_of users) as [ids|e].
  - by rewrite (bind_ok _ _ _ _ _ E).
  - by rewrite (bind_throw _ _ _ _ _ E).
Qed.

Lemma ids_of_spec users :
  (Forall (fun u => nullish u = false) users
   /\ ids_of users = Ok (id_val <$> users))
  \/ (Exists (fun u => nullish u = true) users
      /\ ids_of users = Throw "TypeError: Cannot read properties").
Proof.
  induction users as [|u users [[Hf IH]|[He IH]]]; simpl.
  - left. by split.
  - destruct u as [| |b|n|s|l|fs];
      try (right; split; [by constructor | done]);
      left; (split; [by constructor | by rewrite IH]).
  - right. split; [by apply Exists_cons_tl|].
    destruct u as [| |b|n|s|l|fs]; simpl; try done; by rewrite IH.
Qed.

Lemma id_val_not_nullish u : nullish u = false -> nullish (id_val u) = false.
Proof.
  destruct u as [| |b|n|s|l|fs]; try done. intros _.
  unfold id_val, id_of, js_or.
  destruct (truthy (default JUndef (assoc "user_id" fs))) eqn:E; [|done].
  by destruct (default JUndef (assoc "user_id" fs)).
Qed.

(** The key does not depend on the order of the users. *)
Lemma makeCacheKey_perm cardId users1 users2 w :
  users1 ≡ₚ users2 ->
  _makeCacheKey cardId users1 w = _makeCacheKey cardId users2 w.
Proof.
  intros Hp. rewrite !makeCacheKey_eval.
  destruct (ids_of_spec users1) as [[F1 ->]|[X1 ->]];
    destruct (ids_of_spec users2) as [[F2 ->]|[X2 ->]]; try done.
  - do 4 f_equal. apply Array_sort_join_perm.
    + apply Forall_fmap. eapply Forall_impl; [exact F1|].
      intros u. apply id_val_not_nullish.
    + by apply fmap_Permutation.
  - exfalso. rewrite <- Hp in X2.
    apply Exists_exists in X2 as (u & Hu & Hn).
    apply (proj1 (Forall_forall _ _) F1) in Hu. congruence.
  - exfalso. rewrite Hp in X1.
    apply Exists_exists in X1 as (u & Hu & Hn).
    apply (proj1 (Forall_forall _ _) F2) in Hu. congruence.
Qed.

(** A request whose key is pending is answered from the pending promise. *)
Lemma FETCH_USERS_CARD_STATUS_joins env token card users w key p :
  truthy token = true -> truthy card = true -> users <> [] ->
  _makeCacheKey card users w = (Ok key, w) ->
  PendingUserStatusRequests w !! key = Some p ->
  MessageHandlers.FETCH_USERS_CARD_STATUS env
    (fetch_status_message token card users) w
  = (Ok tt, with_response (status_response p) w).
Proof.
  intros Tt Tc Hne Ek Hpend.
  destruct users as [|u us]; [done|].
  unfold MessageHandlers.FETCH_USERS_CARD_STATUS, fetch_status_message,
    try_catch.
  cbn [msg_data].
  rewrite (bind_ok _ _ w token w) by reflexivity.
  rewrite (bind_ok _ _ w card w) by reflexivity.
  rewrite (bind_ok _ _ w (JArr (u :: us)) w) by reflexivity.
  rewrite Tt, Tc. cbn [negb orb].
  rewrite (bind_ok _ _ _ _ _ Ek).
  rewrite (bind_ok _ _ w (PendingUserStatusRequests w) w) by reflexivity.
  rewrite Hpend. by destruct p.
Qed.

(** C10.  For every card and every two user lists that are permutations of
    each other, the key computed for [FETCH_USERS_CARD_STATUS] (and by
    [ApiClient._makeCacheKey]) is the same.  Hence a request that arrives
    while a request for the same card and the same users, in any order, is
    pending makes no API call and is answered from the pending promise. *)
Theorem pending_key_order_independent
    (env : Env) (token card : JsVal) (users1 users2 : list JsVal)
    (w : World) :
  users1 ≡ₚ users2 ->
  _makeCacheKey card users1 w = _makeCacheKey card users2 w
  /\ forall key p,
       truthy token = true -> truthy card = true -> users2 <> [] ->
       fst (_makeCacheKey card users1 w) = Ok key ->
       PendingUserStatusRequests w !! key = Some p ->
       exists w',
         onMessage env (fetch_status_message token card users2) w
         = (Ok true, w')
         /\ requests w' = requests w
         /\ responses w' = responses w ++ [status_response p].
Proof.
  intros Hp. split; [by apply makeCacheKey_perm|].
  intros key p Tt Tc Hne Hkey Hpend.
  assert (_makeCacheKey card users2 w = (Ok key, w)) as Ek.
  { rewrite <- (makeCacheKey_perm card users1 users2 w Hp).
    rewrite makeCacheKey_eval in Hkey |- *. simpl in Hkey. by rewrite Hkey. }
  unfold onMessage.
  change (MessageHandlers.lookup
            (ToString (msg_type (fetch_status_message token card users2))))
    with (MessageHandlers.Handler MessageHandlers.FETCH_USERS_CARD_STATUS).
  cbv iota.
  rewrite (bind_ok _ _ w tt (with_response (status_response p) w)).
  - by eexists.
  - unfold try_catch.
    by rewrite (FETCH_USERS_CARD_STATUS_joins env token card users2 w key p).
Qed.

(** ** The guard of [performAuthentication] *)

Lemma guard_inv_initial : guard_inv AuthGuard.initial.
Proof. split; [intros p H; discriminate H | done]. Qed.

Lemma guard_inv_step e s s' o :
  guard_inv s -> AuthGuard.step e s = Some (s', o) -> guard_inv s'.
Proof.
  intros [Hrun Hg] Hstep. destruct e as [|p outcome|p]; simpl in Hstep.
  - destruct (AuthGuard.guard s) as [p|] eqn:G;
      injection Hstep as <- <-; [by split; rewrite ?G|].
    split; simpl.
    + intros q Hq. apply lookup_app_Some in Hq as [Hq|[Hlen Hq]].
      * apply Hrun in Hq. congruence.
      * f_equal. apply list_lookup_singleton_Some in Hq as [Hq _]. lia.
    + rewrite Hg. split; [done|]. rewrite length_app. simpl. lia.
  - destruct (AuthGuard.promises s !! p) as [[|r]|] eqn:Hp;
      try discriminate Hstep.
    injection Hstep as <- <-. split; simpl.
    + intros q Hq. destruct (decide (p = q)) as [->|Hne].
      * rewrite list_lookup_insert_eq in Hq; [discriminate Hq|].
        by apply lookup_lt_Some in Hp.
      * rewrite list_lookup_insert_ne in Hq by done. by apply Hrun.
    + destruct (AuthGuard.guard s); [|done].
      by rewrite length_insert.
  - destruct (AuthGuard.promises s !! p) as [[|r]|] eqn:Hp;
      try discriminate Hstep.
    case_bool_decide as Hin; [|discriminate Hstep].
    injection Hstep as <- <-.
    destruct (AuthGuard.guard s) as [q|] eqn:G.
    + destruct Hg as [Hs _]. rewrite Hs in Hin.
      apply list_elem_of_singleton in Hin. subst q.
      split; simpl.
      * intros p' Hq. pose proof (Hrun p' Hq) as G'.
        rewrite ?G in G'. injection G' as <-. congruence.
      * rewrite Hs. simpl. by rewrite Nat.eqb_refl.
    + rewrite Hg in Hin. by apply not_elem_of_nil in Hin.
Qed.

Lemma guard_inv_run es s s' :
  guard_inv s -> AuthGuard.run es s = Some s' -> guard_inv s'.
Proof.
  revert s. induction es as [|e es IH]; intros s Hi Hr; simpl in Hr.
  - by injection Hr as <-.
  - destruct (AuthGuard.step e s) as [[s1 o]|] eqn:Hs; [|discriminate Hr].
    eapply IH; [|exact Hr]. eapply guard_inv_step; eauto.
Qed.

Lemma running_spec s p :
  In p (AuthGuard.running s)
  <-> AuthGuard.promises s !! p = Some AuthGuard.Running.
Proof.
  unfold AuthGuard.running. rewrite filter_In, in_seq. split.
  - intros [_ H]. destruct (AuthGuard.promises s !! p) as [[|]|]; done.
  - intros H. split; [|by rewrite H].
    apply lookup_lt_Some in H. lia.
Qed.

Lemma running_NoDup s : List.NoDup (AuthGuard.running s).
Proof. apply List.NoDup_filter, seq_NoDup. Qed.

(** The guard in the sequential model: with a promise pending the call
    hands it back and changes nothing; otherwise the guard is null again
    when the call is over. *)
Lemma performAuthentication_guard env fs w :
  (forall p, pendingAuthRequest w = Some p ->
     AuthManager.performAuthentication env (JObj fs) w = (p, w))
  /\ (pendingAuthRequest w = None ->
      pendingAuthRequest
        (snd (AuthManager.performAuthentication env (JObj fs) w)) = None).
Proof.
  unfold AuthManager.performAuthentication.
  rewrite (bind_ok _ _ w (default JUndef (assoc "currentUser" fs)) w)
    by reflexivity.
  rewrite (bind_ok _ _ w (default JUndef (assoc "csrfToken" fs)) w)
    by reflexivity.
  rewrite (bind_ok _ _ w (pendingAuthRequest w) w) by reflexivity.
  split.
  - intros p ->. reflexivity.
  - intros ->. unfold bind, promise_of, modify, try_finally, await.
    by destruct (AuthManager._executeAuth env _ _ w) as [r w1].
Qed.

(** C2.  In every state reached by interleaving calls, settlements and
    resumptions: at most one [_executeAuth] is running, and it is the one
    held by the guard; a call made while the guard is non-null returns the
    pending promise and changes nothing, so starts no authentication; and
    when the pending authentication settles, with a value or with an error,
    the suspended call resumes and resets the guard to [null].  The same
    holds of [performAuthentication] run to completion: under a pending
    promise it returns that promise and leaves the world as it is, and
    otherwise it leaves the guard [null]. *)
Theorem pending_auth_guard (es : list AuthGuard.Event) (s : AuthGuard.State) :
  AuthGuard.run es AuthGuard.initial = Some s ->
  (length (AuthGuard.running s) <= 1)%nat
  /\ (forall p, In p (AuthGuard.running s) -> AuthGuard.guard s = Some p)
  /\ (forall p, AuthGuard.guard s = Some p ->
        AuthGuard.step AuthGuard.Call s = Some (s, AuthGuard.Returned p))
  /\ (forall p outcome,
        In p (AuthGuard.running s) ->
        exists s1 s2,
          AuthGuard.step (AuthGuard.Settle p outcome) s
            = Some (s1, AuthGuard.Silent)
          /\ AuthGuard.guard s1 = Some p
          /\ AuthGuard.running s1 = []
          /\ AuthGuard.step (AuthGuard.Resume p) s1
            = Some (s2, AuthGuard.Silent)
          /\ AuthGuard.guard s2 = None)
  /\ (forall env fs w,
        (forall p, pendingAuthRequest w = Some p ->
           AuthManager.performAuthentication env (JObj fs) w = (p, w))
        /\ (pendingAuthRequest w = None ->
            pendingAuthRequest
              (snd (AuthManager.performAuthentication env (JObj fs) w))
            = None)).
Proof.
  intros Hr.
  pose proof (guard_inv_run es _ s guard_inv_initial Hr) as Hi.
  assert (forall p, In p (AuthGuard.running s) -> AuthGuard.guard s = Some p)
    as Hrun by (intros p Hp; apply Hi; by apply running_spec).
  split; [|split; [exact Hrun|split; [|split]]].
  - pose proof (running_NoDup s) as Hnd.
    destruct (AuthGuard.running s) as [|x [|y l]]; simpl; try lia.
    exfalso. assert (x = y) as ->.
    { assert (Some x = Some y) as [= ->]; [|done].
      rewrite <- (Hrun x), <- (Hrun y); simpl; auto. }
    inversion Hnd as [|?? Hn _]. apply Hn. by left.
  - intros p G. simpl. by rewrite G.
  - intros p outcome Hp.
    pose proof (Hrun p Hp) as G.
    apply running_spec in Hp.
    assert (AuthGuard.step (AuthGuard.Settle p outcome) s
            = Some ({| AuthGuard.guard := AuthGuard.guard s;
                       AuthGuard.promises :=
                         <[p := AuthGuard.Settled outcome]>
                           (AuthGuard.promises s);
                       AuthGuard.suspended := AuthGuard.suspended s |},
                    AuthGuard.Silent)) as E1
      by (simpl; by rewrite Hp).
    pose proof (guard_inv_step _ _ _ _ Hi E1) as Hi1.
    eexists _, _. split; [exact E1|]. split; [exact G|].
    assert (forall q, ~ In q (AuthGuard.running
              {| AuthGuard.guard := AuthGuard.guard s;
                 AuthGuard.promises :=
                   <[p := AuthGuard.Settled outcome]> (AuthGuard.promises s);
                 AuthGuard.suspended := AuthGuard.suspended s |})) as Hnone.
    { intros q Hq. pose proof Hq as Hq'. apply running_spec in Hq'.
      apply Hi1 in Hq'. simpl in Hq', Hq. rewrite G in Hq'.
      injection Hq' as <-. apply running_spec in Hq. simpl in Hq.
      rewrite list_lookup_insert_eq in Hq; [discriminate Hq|].
      by apply lookup_lt_Some in Hp. }
    split.
    { revert Hnone. generalize (AuthGuard.running
        {| AuthGuard.guard := AuthGuard.guard s;
           AuthGuard.promises :=
             <[p := AuthGuard.Settled outcome]> (AuthGuard.promises s);
           AuthGuard.suspended := AuthGuard.suspended s |}).
      intros [|q l] Hnone; [done|]. destruct (Hnone q). by left. }
    destruct Hi as [_ Hs]. rewrite G in Hs. destruct Hs as [Hs Hlen].
    simpl. rewrite list_lookup_insert_eq by done.
    rewrite bool_decide_eq_true_2; [done|].
    rewrite Hs. by apply list_elem_of_singleton.
  - intros env fs w. apply performAuthentication_guard.
Qed.

Lemma pending_auth_guard_witness :
  let s := {| AuthGuard.guard := Some 0%nat;
              AuthGuard.promises := [AuthGuard.Running];
              AuthGuard.suspended := [0%nat] |} in
  (length (AuthGuard.running s) <= 1)%nat
  /\ AuthGuard.step AuthGuard.Call s = Some (s, AuthGuard.Returned 0%nat)
  /\ exists s1 s2,
       AuthGuard.step (AuthGuard.Settle 0%nat (Throw "failed")) s
         = Some (s1, AuthGuard.Silent)
       /\ AuthGuard.guard s1 = Some 0%nat
       /\ AuthGuard.running s1 = []
       /\ AuthGuard.step (AuthGuard.Resume 0%nat) s1
         = Some (s2, AuthGuard.Silent)
       /\ AuthGuard.guard s2 = None.
Proof.
  intros s.
  destruct (pending_auth_guard [AuthGuard.Call] s eq_refl)
    as (Hone & _ & Hcall & Hsettle & _).
  split; [exact Hone|]. split; [by apply Hcall|].
  apply Hsettle. by left.
Defined.

(** ** Instances on concrete inputs *)

Lemma shouldPerformAuth_decision_witness :
  shouldAuth
    (shouldPerformAuth 7300000 (JStr "tok")
       {| lastTime := 0; lastUser := JStr "bob"; lastCsrf := JStr "x1";
          lastAttempt := 0; failureCount := 0 |}
       (JStr "bob") (JStr "x1")) = true
  /\ shouldAuth
       (shouldPerformAuth 7300000 (JStr "tok")
          {| lastTime := 0; lastUser := JStr "bob"; lastCsrf := JStr "x1";
             lastAttempt := 0; failureCount := 0 |}
          (JStr "bob") JNull) = false.
Proof.
  split.
  - apply (shouldPerformAuth_decision 7300000 (JStr "tok")
             {| lastTime := 0; lastUser := JStr "bob"; lastCsrf := JStr "x1";
                lastAttempt := 0; failureCount := 0 |} (JStr "bob") (JStr "x1")).
    right. repeat split. right. right. left. simpl. lia.
  - apply (shouldPerformAuth_decision 7300000 (JStr "tok")
             {| lastTime := 0; lastUser := JStr "bob"; lastCsrf := JStr "x1";
                lastAttempt := 0; failureCount := 0 |} (JStr "bob") JNull).
    split; [reflexivity | left; reflexivity].
Defined.

Lemma cache_ttl_expiry_witness :
  Cache.get 60000 "health_check"
    (Cache.set 0 "health_check" (JStr "ok") 60000 ∅)
  = (JStr "ok", Cache.set 0 "health_check" (JStr "ok") 60000 ∅)
  /\ fst (Cache.get 60001 "health_check"
            (Cache.set 0 "health_check" (JStr "ok") 60000 ∅)) = JNull.
Proof.
  destruct (cache_ttl_expiry ∅ 0 "health_check" (JStr "ok") 60000)
    as (Hhit & Hmiss & _).
  split.
  - apply Hhit. lia.
  - apply (Hmiss 60001). lia.
Defined.

Lemma pending_key_order_independent_witness :
  _makeCacheKey (JStr "12") [JStr "30"; JStr "7"] status_pending_world
  = _makeCacheKey (JStr "12") [JStr "7"; JStr "30"] status_pending_world
  /\ exists w',
       onMessage healthy_api
         (fetch_status_message (JStr "t") (JStr "12") [JStr "7"; JStr "30"])
         status_pending_world = (Ok true, w')
       /\ requests w' = requests status_pending_world
       /\ responses w'
          = responses status_pending_world
            ++ [status_response (Ok (JObj [("30", JStr "trade")]))].
Proof.
  destruct (pending_key_order_independent healthy_api (JStr "t") (JStr "12")
              [JStr "30"; JStr "7"] [JStr "7"; JStr "30"]
              status_pending_world (perm_swap _ _ _)) as [Hkey Hjoin].
  split; [exact Hkey|].
  apply (Hjoin "12:30,7"); try reflexivity. discriminate.
Defined.

(** ** The model on concrete runs *)

(** First authentication on a fresh start: health check, cookies sent,
    token and metadata stored, 20 ms later. *)
Example first_authentication :
  let w := run_event healthy_api
             (EvMessage (handle_auth_message "bob" "x1")) (initial_world 100) in
  responses w
  = [JObj [("success", JBool true); ("token", JStr "tok");
           ("duration", JNum 20); ("shouldAuth", JBool true);
           ("reason", JStr "no_token")]]
  /\ requests w
    = [("/health", JUndef);
       ("/set_http_data",
        JObj [("cookie",
               JObj [("theme", JStr "dark");
                     ("mangabuff_session", JStr "s1")]);
              ("csrf_token", JStr "x1")])]
  /\ storage_writes w = ["mbf_health_cache"; "mbf_token"; "mbf_auth_meta"].
Proof. vm_compute. auto. Qed.

(** The same request again is throttled and answered from the store. *)
Example second_authentication_throttled :
  let w := run_events healthy_api
             [EvMessage (handle_auth_message "bob" "x1");
              EvMessage (handle_auth_message "bob" "x1")]
             (initial_world 100) in
  nth_error (responses w) 1
  = Some (JObj [("success", JBool true); ("shouldAuth", JBool false);
                ("reason", JStr "throttled"); ("token", JStr "tok")])
  /\ length (requests w) = 2%nat.
Proof. vm_compute. auto. Qed.

(** Without cookies the attempt fails before any auth data is sent, and
    the failure is recorded in the metadata. *)
Example authentication_without_cookies :
  let w := run_event no_cookies
             (EvMessage (handle_auth_message "bob" "x1")) (initial_world 100) in
  responses w
  = [JObj [("success", JBool false); ("error", JStr "No cookies found");
           ("duration", JNum 1); ("shouldAuth", JBool true);
           ("reason", JStr "no_token")]]
  /\ requests w = [("/health", JUndef)]
  /\ storage w !! CONFIG.AUTH_META
    = Some (SMeta {| lastTime := 0; lastUser := JNull; lastCsrf := JNull;
                     lastAttempt := 100; failureCount := 1 |}).
Proof. vm_compute. auto. Qed.

(** Keys: ids of objects and plain ids, sorted as strings. *)
Example makeCacheKey_example :
  fst (_makeCacheKey (JStr "12")
         [JObj [("user_id", JStr "7")]; JStr "30";
          JObj [("user_id", JStr "15")]] (initial_world 0))
  = Ok "12:15,30,7".
Proof. vm_compute. reflexivity. Qed.

(** * Further properties of the background script *)

(** ** The store and its cache *)

#[local] Instance keeps_store_inv_preorder : PreOrder keeps_store_inv.
Proof. split; [by intros w H | intros w1 w2 w3 H1 H2 H; auto]. Qed.

Lemma read_lookup (w : World) (k : string) :
  store_inv w -> StorageManager.read k (storage w) = storage w !! k.
Proof.
  intros (_ & Ht & _). unfold StorageManager.read.
  destruct (storage w !! k) as [x|] eqn:E; [|done]. by rewrite (Ht k x E).
Qed.

Lemma keeps_store_inv_framed :
  Framed keeps_store_inv (fun _ => True) (fun _ => True)
    (fun k v => truthy (js_of_store v) = true
                /\ (k = CONFIG.TOKEN -> exists tok, v = SJs tok))
    (fun _ => True).
Proof.
  split; intros; try (intros Ht; exact Ht); intros w Hi;
    pose proof Hi as (Hc & Ht & Hk).
  - unfold StorageManager.get.
    destruct (sm_cache w !! k) eqn:E; simpl; [done|].
    split; [|by split]. simpl. intros k' v'.
    destruct (decide (k = k')) as [<-|Hne].
    + rewrite lookup_insert_eq. intros [= <-]. by apply read_lookup.
    + rewrite lookup_insert_ne by done. apply Hc.
  - destruct H as [Hv Hs]. split; [|split]; simpl.
    + intros k' v'. destruct (decide (k = k')) as [<-|Hne].
      * rewrite !lookup_insert_eq. by intros [= <-].
      * rewrite !lookup_insert_ne by done. apply Hc.
    + intros k' x. destruct (decide (k = k')) as [<-|Hne].
      * rewrite lookup_insert_eq. by intros [= <-].
      * rewrite lookup_insert_ne by done. apply Ht.
    + destruct (decide (k = CONFIG.TOKEN)) as [->|Hne].
      * rewrite lookup_insert_eq. intros x [= <-]. by apply Hs.
      * rewrite lookup_insert_ne by done. apply Hk.
  - split; [|split]; simpl.
    + intros k' v'. destruct (decide (k = k')) as [<-|Hne].
      * by rewrite lookup_delete_eq.
      * rewrite !lookup_delete_ne by done. apply Hc.
    + intros k' x. destruct (decide (k = k')) as [<-|Hne].
      * by rewrite lookup_delete_eq.
      * rewrite lookup_delete_ne by done. apply Ht.
    + destruct (decide (k = CONFIG.TOKEN)) as [->|Hne].
      * by rewrite lookup_delete_eq.
      * rewrite lookup_delete_ne by done. apply Hk.
  - split; [|by split]. simpl. intros k' v'.
    destruct (decide (k = k')) as [<-|Hne].
    + by rewrite lookup_delete_eq.
    + rewrite lookup_delete_ne by done. apply Hc.
Qed.

Lemma store_inv_reachable env es t :
  store_inv (run_events env es (initial_world t)).
Proof.
  apply (frame_run_events keeps_store_inv _ _ _ _ keeps_store_inv_framed);
    auto.
  - intros v Hv. split; [exact Hv | eauto].
  - intros m. split; [done | discriminate].
  - intros c ts. split; [done | discriminate].
  - intros w v H. exact H.
  - intros w (Hc & Ht & Hk). split; [|by split]. simpl. intros k v.
    by rewrite lookup_empty.
  - split; [|split]; simpl; intros *; by rewrite lookup_empty.
Qed.

(** X2.  Whatever the script has handled since a fresh start, a token held
    by [chrome.storage.local] is a truthy value: an empty token is never
    stored. *)
Theorem stored_token_truthy (env : Env) (es : list Event) (t : Z) (x : StoreVal) :
  storage (run_events env es (initial_world t)) !! CONFIG.TOKEN = Some x ->
  exists tok, x = SJs tok /\ truthy tok = true.
Proof.
  intros Hx. destruct (store_inv_reachable env es t) as (_ & Ht & Hk).
  destruct (Hk x Hx) as [tok ->]. exists tok. split; [done|].
  apply (Ht _ _ Hx).
Qed.

Lemma stored_token_truthy_witness :
  exists tok, SJs (JStr "tok") = SJs tok /\ truthy tok = true.
Proof.
  apply (stored_token_truthy healthy_api
           [EvMessage (handle_auth_message "bob" "x1")] 100).
  vm_compute. reflexivity.
Defined.


(** ** Health checks *)

Lemma Cache_get_hit key v e w :
  cache w !! key = Some (v, e) -> now w <= e -> Cache_get key w = (Ok v, w).
Proof.
  intros Hk He. unfold Cache_get, Cache.get. rewrite Hk.
  destruct (now w >? e) eqn:G; [apply gtb_gt in G; lia|].
  by destruct w.
Qed.

(** What a health check that misses the cache leaves behind: its result,
    cached for at least 30 seconds from the time it returns. *)
Lemma checkHealth_miss env w r w1 :
  ApiClient.checkHealth env w = (Ok r, w1) ->
  requests w1 <> requests w ->
  exists e, cache w1 !! "health_check" = Some (r, e) /\ now w1 + 30000 <= e.
Proof.
  unfold ApiClient.checkHealth. unfold bind at 1.
  destruct (Cache_get "health_check" w) as [[cached|?] w0] eqn:E0;
    [|destruct (nothrow_Cache_get "health_check" w) as [? H];
      rewrite E0 in H; discriminate].
  assert (requests w0 = requests w) as R0.
  { unfold Cache_get in E0.
    destruct (Cache.get (now w) "health_check" (cache w)).
    by injection E0 as _ <-. }
  destruct (truthy cached); [intros [= _ <-]; congruence|].
  unfold try_catch, bind at 1.
  destruct (ApiClient.makeRequest env "/health" JUndef w0)
    as [[data|msg] w'] eqn:Em.
  - unfold bind at 1.
    destruct (prop data "status" w') as [[status|msg] w''] eqn:Es;
      pose proof (prop_world data "status" w') as Hw; rewrite Es in Hw;
      simpl in Hw; subst w''.
    + assert (forall k w2, exists v, prop data k w2 = (Ok v, w2)) as Hprop.
      { intros k w2. destruct data; try discriminate Es; by eexists. }
      erewrite bind_ok; [|reflexivity].
      match goal with
      | |- context [bind (prop data "category") _ ?w2] =>
          destruct (Hprop "category" w2) as [category Ec];
          rewrite (bind_ok _ _ _ _ _ Ec)
      end.
      destruct (truthy category); simpl; intros [= <- <-] _; simpl;
        (eexists; split; [apply lookup_insert_eq | lia]).
    + simpl. intros [= <- <-] _. simpl.
      eexists; split; [apply lookup_insert_eq | lia].
  - simpl. intros [= <- <-] _. simpl.
    eexists; split; [apply lookup_insert_eq | lia].
Qed.

(** X4.  The result of a health check that went to the API, healthy or
    not, is reused: for the next 30 seconds a health check returns the same
    result without a request and without any other change. *)
Theorem checkHealth_reused (env : Env) (w w1 : World) (r : JsVal) (d : Z) :
  ApiClient.checkHealth env w = (Ok r, w1) ->
  requests w1 <> requests w ->
  truthy r = true ->
  0 <= d <= 30000 ->
  ApiClient.checkHealth env (with_now (now w1 + d) w1)
  = (Ok r, with_now (now w1 + d) w1).
Proof.
  intros E Hreq Tr Hd.
  destruct (checkHealth_miss env w r w1 E Hreq) as (e & Hc & He).
  unfold ApiClient.checkHealth.
  rewrite (bind_ok _ _ _ r (with_now (now w1 + d) w1)).
  - by rewrite Tr.
  - apply (Cache_get_hit _ _ e); [exact Hc | simpl; lia].
Qed.

Lemma checkHealth_reused_witness :
  let w1 := snd (ApiClient.checkHealth healthy_api (initial_world 0)) in
  ApiClient.checkHealth healthy_api (with_now (now w1 + 30000) w1)
  = (Ok (JObj [("status", JStr "healthy");
               ("category", JObj [("trade", JStr "T")])]),
     with_now (now w1 + 30000) w1).
Proof.
  apply (checkHealth_reused healthy_api (initial_world 0)).
  - vm_compute. reflexivity.
  - vm_compute. discriminate.
  - reflexivity.
  - lia.
Defined.

(** X5.  A health check never throws.  When it misses the cache and the
    request fails with message [msg], it returns the object [{ status:
    "unhealthy", error: msg }], having issued that one request and written
    nothing to [chrome.storage.local]. *)
Theorem checkHealth_swallows_errors (env : Env) (w : World) :
  (exists r w1, ApiClient.checkHealth env w = (Ok r, w1))
  /\ forall msg,
       truthy (fst (Cache.get (now w) "health_check" (cache w))) = false ->
       env_fetch env (length (requests w)) "/health" JUndef = Throw msg ->
       exists w1,
         ApiClient.checkHealth env w
         = (Ok (JObj [("status", JStr "unhealthy"); ("error", JStr msg)]), w1)
         /\ requests w1 = requests w ++ [("/health", JUndef)]
         /\ storage w1 = storage w
         /\ storage_writes w1 = storage_writes w.
Proof.
  split; [apply nothrow_run, nothrow_checkHealth|].
  intros msg Hmiss Hfetch.
  unfold ApiClient.checkHealth, bind at 1, Cache_get.
  destruct (Cache.get (now w) "health_check" (cache w)) as [cached c0].
  simpl in Hmiss. rewrite Hmiss.
  unfold try_catch, bind at 1, ApiClient.makeRequest. simpl.
  rewrite Hfetch. simpl. by eexists.
Qed.

Lemma checkHealth_swallows_errors_witness :
  exists w1,
    ApiClient.checkHealth
      {| env_fetch := fun _ _ _ => Throw "Failed to fetch";
         env_latency := fun _ => 5; env_cookies := [] |} (initial_world 0)
    = (Ok (JObj [("status", JStr "unhealthy");
                 ("error", JStr "Failed to fetch")]), w1)
    /\ requests w1 = requests (initial_world 0) ++ [("/health", JUndef)]
    /\ storage w1 = storage (initial_world 0)
    /\ storage_writes w1 = storage_writes (initial_world 0).
Proof.
  apply (checkHealth_swallows_errors
           {| env_fetch := fun _ _ _ => Throw "Failed to fetch";
              env_latency := fun _ => 5; env_cookies := [] |}
           (initial_world 0)); reflexivity.
Defined.

(** ** Authentication requests *)

(** X6.  A request without credentials changes nothing.  When [authData]
    is [null] or [undefined], or its [currentUser] or [csrfToken] is
    missing or empty, [handleAuthRequest] answers [success: false] and
    [shouldAuth: false] with an error and leaves the whole state as it is:
    no request, no write, no cache entry. *)
Theorem handleAuthRequest_without_credentials
    (env : Env) (authData : JsVal) (w : World) :
  (nullish authData = true
   \/ truthy (default JUndef (assoc "currentUser" (own_fields authData)))
      = false
   \/ truthy (default JUndef (assoc "csrfToken" (own_fields authData)))
      = false) ->
  exists e,
    AuthManager.handleAuthRequest env authData w
    = (Ok (JObj [("success", JBool false); ("error", JStr e);
                 ("shouldAuth", JBool false)]), w).
Proof.
  intros H. unfold AuthManager.handleAuthRequest, try_catch.
  destruct authData as [| |b|n|s|l|fs]; simpl in H;
    try (by eexists);
    try (destruct H as [H|[H|H]]; try discriminate H).
  - erewrite bind_ok; [|reflexivity]. erewrite bind_ok; [|reflexivity].
    rewrite H. by eexists.
  - erewrite bind_ok; [|reflexivity]. erewrite bind_ok; [|reflexivity].
    rewrite H, orb_true_r. by eexists.
Qed.

Lemma handleAuthRequest_without_credentials_witness :
  exists e,
    AuthManager.handleAuthRequest healthy_api
      (JObj [("currentUser", JStr "bob"); ("csrfToken", JStr "")])
      (initial_world 0)
    = (Ok (JObj [("success", JBool false); ("error", JStr e);
                 ("shouldAuth", JBool false)]), initial_world 0).
Proof.
  apply (handleAuthRequest_without_credentials healthy_api
           (JObj [("currentUser", JStr "bob"); ("csrfToken", JStr "")])
           (initial_world 0)).
  right. right. reflexivity.
Defined.

(** X7.  Throttling.  With a token in the store, credentials equal to
    those of the last authentication, no failure on record and at most two
    hours since the last authentication, [handleAuthRequest] answers
    [shouldAuth: false] with reason [throttled] and the stored token, and
    leaves the whole state as it is: the API is not contacted. *)
Theorem handleAuthRequest_throttled
    (env : Env) (user csrf : string) (tok : JsVal) (meta : AuthMeta)
    (w : World) :
  sm_cache w !! CONFIG.TOKEN = Some (Some (SJs tok)) ->
  sm_cache w !! CONFIG.AUTH_META = Some (Some (SMeta meta)) ->
  truthy tok = true ->
  user <> "" -> csrf <> "" ->
  lastUser meta = JStr user -> lastCsrf meta = JStr csrf ->
  failureCount meta <= 0 ->
  now w - lastTime meta <= 7200000 ->
  AuthManager.handleAuthRequest env
    (JObj [("currentUser", JStr user); ("csrfToken", JStr csrf)]) w
  = (Ok (JObj [("success", JBool true); ("shouldAuth", JBool false);
               ("reason", JStr "throttled"); ("token", tok)]), w).
Proof.
  intros Ht Hm Tt Hu Hc Lu Lc Hf Hn.
  apply String.eqb_neq in Hu, Hc.
  unfold AuthManager.handleAuthRequest, try_catch.
  rewrite (bind_ok _ _ w (JStr user) w) by reflexivity.
  rewrite (bind_ok _ _ w (JStr csrf) w) by reflexivity.
  change (truthy (JStr user)) with (negb (String.eqb user "")).
  change (truthy (JStr csrf)) with (negb (String.eqb csrf "")).
  rewrite Hu, Hc. cbn [negb orb].
  rewrite (bind_ok _ _ w tok w)
    by (unfold AuthManager.getToken, bind, StorageManager.get;
        by rewrite Ht).
  rewrite (bind_ok _ _ w meta w)
    by (unfold AuthManager.getAuthMeta, bind, StorageManager.get;
        by rewrite Hm).
  rewrite (bind_ok _ _ w (now w) w) by reflexivity.
  assert (shouldPerformAuth (now w) tok meta (JStr user) (JStr csrf)
          = {| shouldAuth := false; reason := throttled |}) as ->; [|done].
  unfold shouldPerformAuth. rewrite Tt.
  change (truthy (JStr user)) with (negb (String.eqb user "")).
  change (truthy (JStr csrf)) with (negb (String.eqb csrf "")).
  rewrite Hu, Hc. cbn [negb]. rewrite Lu, Lc. unfold strict_neq, strict_eq.
  rewrite !String.eqb_refl. cbn [negb].
  destruct (now w - lastTime meta >? CONFIG.AUTH_THROTTLE_INTERVAL) eqn:G.
  { apply gtb_gt in G. unfold CONFIG.AUTH_THROTTLE_INTERVAL in G. lia. }
  destruct (failureCount meta >? 0) eqn:F; [apply gtb_gt in F; lia|].
  reflexivity.
Qed.

Lemma handleAuthRequest_throttled_witness :
  let w := run_event healthy_api
             (EvMessage (handle_auth_message "bob" "x1")) (initial_world 100) in
  AuthManager.handleAuthRequest healthy_api
    (JObj [("currentUser", JStr "bob"); ("csrfToken", JStr "x1")]) w
  = (Ok (JObj [("success", JBool true); ("shouldAuth", JBool false);
               ("reason", JStr "throttled"); ("token", JStr "tok")]), w).
Proof.
  intros w.
  apply (handleAuthRequest_throttled healthy_api "bob" "x1" (JStr "tok")
           {| lastTime := 120; lastUser := JStr "bob"; lastCsrf := JStr "x1";
              lastAttempt := 100; failureCount := 0 |} w);
    try (vm_compute; reflexivity); try discriminate.
Defined.

(** ** Token and status handlers *)

Lemma prop_cases v k w :
  (exists x, prop v k w = (Ok x, w)) \/ (exists e, prop v k w = (Throw e, w)).
Proof. destruct v; simpl; eauto. Qed.

Ltac step_prop v k w :=
  let E := fresh "E" in
  destruct (prop_cases v k w) as [[? E]|[? E]];
  [rewrite (bind_ok _ _ _ _ _ E) | rewrite (bind_throw _ _ _ _ _ E)].

Lemma getToken_run w :
  exists token w1,
    AuthManager.getToken w = (Ok token, w1)
    /\ requests w1 = requests w
    /\ responses w1 = responses w
    /\ PendingUserStatusRequests w1 = PendingUserStatusRequests w.
Proof.
  unfold AuthManager.getToken, bind, StorageManager.get.
  destruct (sm_cache w !! CONFIG.TOKEN); by eexists _, _.
Qed.

(** X9.  [FETCH_USERS_CARD_STATUS] answers exactly once and leaves
    [PendingUserStatusRequests] as it found it: a settled request is never
    left in the map and a pending one is never dropped.  It contacts the
    API at most once, and only when the message carries a truthy token, a
    truthy card id and a non-empty array of users whose key is not
    pending; the request carries exactly these values. *)
Theorem FETCH_USERS_CARD_STATUS_effects (env : Env) (msg : Message) (w : World) :
  exists r w',
    MessageHandlers.FETCH_USERS_CARD_STATUS env msg w = (Ok tt, w')
    /\ responses w' = responses w ++ [r]
    /\ PendingUserStatusRequests w' = PendingUserStatusRequests w
    /\ (requests w' = requests w
        \/ exists token card_id u us key,
             truthy token = true /\ truthy card_id = true
             /\ prop (msg_data msg) "token" w = (Ok token, w)
             /\ prop (msg_data msg) "card_id" w = (Ok card_id, w)
             /\ prop (msg_data msg) "users" w = (Ok (JArr (u :: us)), w)
             /\ fst (_makeCacheKey card_id (u :: us) w) = Ok key
             /\ PendingUserStatusRequests w !! key = None
             /\ requests w' =
                  requests w ++
                  [("/users_card_status",
                    JObj [("token", token); ("card_id", card_id);
                          ("users", JArr (u :: us))])]).
Proof.
  unfold MessageHandlers.FETCH_USERS_CARD_STATUS, try_catch.
  step_prop (msg_data msg) "token" w; [|by eexists _, _; eauto].
  step_prop (msg_data msg) "card_id" w; [|by eexists _, _; eauto].
  step_prop (msg_data msg) "users" w; [|by eexists _, _; eauto].
  rename x into token, x0 into card_id, x1 into users.
  destruct users as [| |b|n|s|[|u us]|fs]; try (by eexists _, _; eauto).
  destruct (negb (truthy token) || negb (truthy card_id)) eqn:Hbad;
    [by eexists _, _; eauto|].
  apply orb_false_elim in Hbad as [Tt Tc].
  apply negb_false_iff in Tt, Tc.
  pose proof (makeCacheKey_eval card_id (u :: us) w) as Ek.
  destruct (ids_of (u :: us)) as [ids|e] eqn:Ei.
  2:{ rewrite (bind_throw _ _ _ _ _ Ek). by eexists _, _; eauto. }
  rewrite (bind_ok _ _ _ _ _ Ek).
  rewrite (bind_ok _ _ w (PendingUserStatusRequests w) w) by reflexivity.
  destruct (PendingUserStatusRequests w !! _) as [p|] eqn:Hp.
  - destruct p; eexists _, _; eauto.
  - unfold bind, promise_of, modify, ApiClient.makeRequest. simpl.
    assert (delete (ToString card_id +:+ ":" +:+ Array_join "," (Array_sort ids))
              (<[ToString card_id +:+ ":" +:+ Array_join "," (Array_sort ids)
                 := env_fetch env (length (requests w)) "/users_card_status"
                      (JObj [("token", token); ("card_id", card_id);
                             ("users", JArr (u :: us))])]>
                 (PendingUserStatusRequests w))
            = PendingUserStatusRequests w) as Hdel.
    { rewrite delete_insert_eq. by apply delete_id. }
    destruct (env_fetch env (length (requests w)) "/users_card_status" _)
      eqn:Ef; simpl; rewrite Hdel;
      (eexists _, _; split; [reflexivity|]; split; [reflexivity|];
       split; [reflexivity|]; right;
       exists token, card_id, u, us; eexists;
       split; [exact Tt|]; split; [exact Tc|];
       split; [exact E|]; split; [exact E0|]; split; [exact E1|];
       split; [by rewrite Ek|]; split; [exact Hp | reflexivity]).
Qed.

Lemma SET_USER_STATUS_effects env msg w :
  exists r w',
    MessageHandlers.SET_USER_STATUS env msg w = (Ok tt, w')
    /\ responses w' = responses w ++ [r]
    /\ ((requests w' = requests w
         /\ assoc "success" (own_fields r) = Some (JBool false))
        \/ exists token user_id category,
             fst (AuthManager.getToken w) = Ok token
             /\ truthy token = true /\ truthy user_id = true
             /\ truthy category = true
             /\ prop (msg_data msg) "user_id" w = (Ok user_id, w)
             /\ prop (msg_data msg) "category" w = (Ok category, w)
             /\ requests w' =
                  requests w ++
                  [("/set_user_status",
                    JObj [("token", token); ("user_id", user_id);
                          ("category", category)])]).
Proof.
  unfold MessageHandlers.SET_USER_STATUS, try_catch.
  step_prop (msg_data msg) "user_id" w; [|by eexists _, _; eauto].
  step_prop (msg_data msg) "category" w; [|by eexists _, _; eauto].
  rename x into user_id, x0 into category.
  destruct (negb (truthy user_id) || negb (truthy category)) eqn:Hbad.
  { rewrite (bind_throw _ _ w "Missing required parameters" w) by reflexivity.
    by eexists _, _; eauto. }
  apply orb_false_elim in Hbad as [Tu Tc].
  apply negb_false_iff in Tu, Tc.
  rewrite (bind_ok _ _ w tt w) by reflexivity.
  destruct (getToken_run w) as (token & w1 & Et & Hreq & Hresp & _).
  rewrite (bind_ok _ _ _ _ _ Et).
  destruct (truthy token) eqn:Tt; cbn [negb].
  2:{ rewrite (bind_throw _ _ w1 "No authentication token available" w1)
        by reflexivity.
      exists (failure "No authentication token available"),
        (with_response (failure "No authentication token available") w1).
      split; [reflexivity|]. simpl. rewrite Hresp, Hreq. eauto. }
  rewrite (bind_ok _ _ w1 tt w1) by reflexivity.
  unfold bind, ApiClient.makeRequest. simpl.
  destruct (env_fetch env (length (requests w1)) "/set_user_status" _);
    (eexists _, _; split; [reflexivity|]; simpl; rewrite Hresp, Hreq;
     split; [reflexivity|]; right;
     exists token, user_id, category; rewrite Et; auto 10).
Qed.

Lemma FETCH_USERS_BY_CATEGORY_effects env msg w :
  exists r w',
    MessageHandlers.FETCH_USERS_BY_CATEGORY env msg w = (Ok tt, w')
    /\ responses w' = responses w ++ [r]
    /\ ((requests w' = requests w
         /\ assoc "success" (own_fields r) = Some (JBool false))
        \/ exists token category card_id page,
             fst (AuthManager.getToken w) = Ok token
             /\ truthy token = true /\ truthy category = true
             /\ truthy card_id = true
             /\ prop (msg_data msg) "category" w = (Ok category, w)
             /\ prop (msg_data msg) "card_id" w = (Ok card_id, w)
             /\ prop (msg_data msg) "page" w = (Ok page, w)
             /\ requests w' =
                  requests w ++
                  [("/get_cards_by_category",
                    JObj [("token", token); ("category", category);
                          ("card_id", card_id);
                          ("page", js_or page (JNum 0))])]).
Proof.
  unfold MessageHandlers.FETCH_USERS_BY_CATEGORY, try_catch.
  step_prop (msg_data msg) "category" w; [|by eexists _, _; eauto].
  step_prop (msg_data msg) "card_id" w; [|by eexists _, _; eauto].
  step_prop (msg_data msg) "page" w; [|by eexists _, _; eauto].
  rename x into category, x0 into card_id, x1 into page.
  destruct (negb (truthy category) || negb (truthy card_id)) eqn:Hbad.
  { rewrite (bind_throw _ _ w "Missing required parameters" w) by reflexivity.
    by eexists _, _; eauto. }
  apply orb_false_elim in Hbad as [Tu Tc].
  apply negb_false_iff in Tu, Tc.
  rewrite (bind_ok _ _ w tt w) by reflexivity.
  destruct (getToken_run w) as (token & w1 & Et & Hreq & Hresp & _).
  rewrite (bind_ok _ _ _ _ _ Et).
  destruct (truthy token) eqn:Tt; cbn [negb].
  2:{ rewrite (bind_throw _ _ w1 "No authentication token available" w1)
        by reflexivity.
      exists (failure "No authentication token available"),
        (with_response (failure "No authentication token available") w1).
      split; [reflexivity|]. simpl. rewrite Hresp, Hreq. eauto. }
  rewrite (bind_ok _ _ w1 tt w1) by reflexivity.
  unfold bind, ApiClient.makeRequest. simpl.
  destruct (env_fetch env (length (requests w1)) "/get_cards_by_category" _);
    (eexists _, _; split; [reflexivity|]; simpl; rewrite Hresp, Hreq;
     split; [reflexivity|]; right;
     exists token, category, card_id, page; rewrite Et; auto 10).
Qed.

(** X10.  [SET_USER_STATUS] and [FETCH_USERS_BY_CATEGORY] answer exactly
    once.  Either they make no request and answer [success: false] (a
    missing parameter, or no token in the store), or they make exactly one
    request, which carries the stored, truthy token and the truthy
    parameters of the message ([page] defaulting to 0). *)
Theorem status_handlers_use_stored_token (env : Env) (msg : Message) (w : World) :
  (exists r w',
     MessageHandlers.SET_USER_STATUS env msg w = (Ok tt, w')
     /\ responses w' = responses w ++ [r]
     /\ ((requests w' = requests w
          /\ assoc "success" (own_fields r) = Some (JBool false))
         \/ exists token user_id category,
              fst (AuthManager.getToken w) = Ok token
              /\ truthy token = true /\ truthy user_id = true
              /\ truthy category = true
              /\ prop (msg_data msg) "user_id" w = (Ok user_id, w)
              /\ prop (msg_data msg) "category" w = (Ok category, w)
              /\ requests w' =
                   requests w ++
                   [("/set_user_status",
                     JObj [("token", token); ("user_id", user_id);
                           ("category", category)])]))
  /\ (exists r w',
        MessageHandlers.FETCH_USERS_BY_CATEGORY env msg w = (Ok tt, w')
        /\ responses w' = responses w ++ [r]
        /\ ((requests w' = requests w
             /\ assoc "success" (own_fields r) = Some (JBool false))
            \/ exists token category card_id page,
                 fst (AuthManager.getToken w) = Ok token
                 /\ truthy token = true /\ truthy category = true
                 /\ truthy card_id = true
                 /\ prop (msg_data msg) "category" w = (Ok category, w)
                 /\ prop (msg_data msg) "card_id" w = (Ok card_id, w)
                 /\ prop (msg_data msg) "page" w = (Ok page, w)
                 /\ requests w' =
                      requests w ++
                      [("/get_cards_by_category",
                        JObj [("token", token); ("category", category);
                              ("card_id", card_id);
                              ("page", js_or page (JNum 0))])])).
Proof.
  split; [apply SET_USER_STATUS_effects | apply FETCH_USERS_BY_CATEGORY_effects].
Qed.


(** * The pagination of a category *)

Section Pagination.
Import PaginationManager.

Ltac zcmp :=
  rewrite ?Z.gtb_ltb, ?Z.geb_leb in *;
  repeat
    (match goal with
     | |- context [?a <=? ?b] => destruct (Z.leb_spec a b)
     | |- context [?a <? ?b] => destruct (Z.ltb_spec a b)
     end; try lia).

Ltac zcases :=
  zcmp;
  repeat
    (match goal with
     | |- context [?a =? ?b] => destruct (Z.eqb_spec a b)
     end; try lia).

Lemma through_5 a : through a (a + 4) = [a; a + 1; a + 2; a + 3; a + 4].
Proof.
  unfold through. replace (a + 4 - a + 1) with 5 by lia.
  unfold seqZ. simpl.
  repeat (apply (f_equal2 cons); [lia |]). reflexivity.
Qed.

Lemma through_6 a :
  through a (a + 5) = [a; a + 1; a + 2; a + 3; a + 4; a + 5].
Proof.
  unfold through. replace (a + 5 - a + 1) with 6 by lia.
  unfold seqZ. simpl.
  repeat (apply (f_equal2 cons); [lia |]). reflexivity.
Qed.

Lemma pageNumbers_one c t :
  t <= 1 -> pageNumbers c t = [first_button c].
Proof.
  intros Ht. unfold pageNumbers. destruct (Z.leb_spec t 1); [done | lia].
Qed.

Lemma pageNumbers_few c t :
  1 < t <= 7 -> pageNumbers c t = List.map (button c) (upto 0 t).
Proof.
  intros Ht. unfold pageNumbers.
  destruct (Z.leb_spec t 1); [lia |].
  destruct (Z.leb_spec t 7); [done | lia].
Qed.

Lemma pageNumbers_start c t :
  7 < t -> c <= 3 ->
  pageNumbers c t =
    [first_button c; button c 1; button c 2; button c 3; button c 4;
     button c 5; Ellipsis; last_button c t].
Proof.
  intros Ht Hc. unfold pageNumbers.
  destruct (Z.leb_spec t 1); [lia |].
  destruct (Z.leb_spec t 7); [lia |].
  destruct (Z.leb_spec c 3); [| lia].
  rewrite Z.min_l by lia.
  change (through 1 5) with [1; 2; 3; 4; 5].
  cbn [List.flat_map app]. unfold button, first_button, last_button.
  cbn [Z.gtb Z.compare Pos.compare Pos.compare_cont andb].
  zcmp; reflexivity.
Qed.

Lemma pageNumbers_end c t :
  7 < t -> 3 < c -> t - 4 <= c ->
  pageNumbers c t =
    [first_button c; Ellipsis; button c (t - 6); button c (t - 6 + 1);
     button c (t - 6 + 2); button c (t - 6 + 3); button c (t - 6 + 4);
     last_button c t].
Proof.
  intros Ht Hc Hc'. unfold pageNumbers.
  destruct (Z.leb_spec t 1); [lia |].
  destruct (Z.leb_spec t 7); [lia |].
  destruct (Z.leb_spec c 3); [lia |].
  rewrite Z.geb_leb. destruct (Z.leb_spec (t - 4) c); [| lia].
  rewrite Z.max_r by lia.
  replace (t - 1) with (t - 6 + 5) at 1 by lia.
  rewrite through_6.
  cbn [List.flat_map app]. unfold button, first_button, last_button.
  zcmp; reflexivity.
Qed.

Lemma pageNumbers_middle c t :
  7 < t -> 3 < c -> c < t - 4 ->
  pageNumbers c t =
    [first_button c; Ellipsis; button c (c - 2); button c (c - 2 + 1);
     button c (c - 2 + 2); button c (c - 2 + 3); button c (c - 2 + 4);
     Ellipsis; last_button c t].
Proof.
  intros Ht Hc Hc'. unfold pageNumbers.
  destruct (Z.leb_spec t 1); [lia |].
  destruct (Z.leb_spec t 7); [lia |].
  destruct (Z.leb_spec c 3); [lia |].
  rewrite Z.geb_leb. destruct (Z.leb_spec (t - 4) c); [lia |].
  replace (c + 2) with (c - 2 + 4) by lia.
  rewrite through_5.
  cbn [List.flat_map app]. unfold button, first_button, last_button.
  zcmp; reflexivity.
Qed.

Lemma few_pages t : 1 < t <= 7 -> t = 2 \/ t = 3 \/ t = 4 \/ t = 5 \/ t = 6 \/ t = 7.
Proof. lia. Qed.

Lemma pretty_number t : pretty t = number (t - 1).
Proof. unfold number. f_equal. lia. Qed.

(** The five shapes of the row of numbered buttons. *)
Ltac page_shapes c t :=
  let Hone := fresh "Hone" in
  let Hfew := fresh "Hfew" in
  let Hs := fresh "Hstart" in
  let He := fresh "Hend" in
  destruct (Z.le_gt_cases t 1) as [Hone | Hone];
  [ rewrite (pageNumbers_one c t) by lia
  | destruct (Z.le_gt_cases t 7) as [Hfew | Hfew];
    [ rewrite (pageNumbers_few c t) by lia;
      destruct (few_pages t) as [-> | [-> | [-> | [-> | [-> | ->]]]]];
      [lia | | | | | |];
      change (upto 0 2) with [0; 1];
      change (upto 0 3) with [0; 1; 2];
      change (upto 0 4) with [0; 1; 2; 3];
      change (upto 0 5) with [0; 1; 2; 3; 4];
      change (upto 0 6) with [0; 1; 2; 3; 4; 5];
      change (upto 0 7) with [0; 1; 2; 3; 4; 5; 6]
    | destruct (Z.le_gt_cases c 3) as [Hs | Hs];
      [ rewrite (pageNumbers_start c t) by lia
      | destruct (Z.le_gt_cases (t - 4) c) as [He | He];
        [ rewrite (pageNumbers_end c t) by lia
        | rewrite (pageNumbers_middle c t) by lia ] ] ] ];
  unfold first_button, last_button, button; cbn [List.map].

(** X11. For at least one page, the numbered buttons start at the first
    page and end at the last one, every step from a button to the next is
    one page except across an ellipsis, which stands only where pages are
    left out, and there are [min totalPages 7] numbered buttons. *)
Theorem pagination_layout (currentPage totalPages : Z) :
  1 <= totalPages ->
  let items := pageNumbers currentPage totalPages in
  marked (-1) false items = true /\
  head (omap page_of items) = Some 0 /\
  last (omap page_of items) = Some (totalPages - 1) /\
  length (omap page_of items) = Z.to_nat (Z.min totalPages 7).
Proof.
  intros Ht items. subst items.
  page_shapes currentPage totalPages;
    cbn [marked omap page_of head last length option_bind mbind];
    try (rewrite Z.min_r by lia); try (rewrite Z.min_l by lia);
    (split; [zcases; reflexivity |]);
    repeat split; try reflexivity; try (f_equal; lia);
    assert (totalPages = 1) as -> by lia; reflexivity.
Qed.

Lemma pagination_layout_witness :
  let items := pageNumbers 10 20 in
  marked (-1) false items = true /\
  head (omap page_of items) = Some 0 /\
  last (omap page_of items) = Some (20 - 1) /\
  length (omap page_of items) = Z.to_nat (Z.min 20 7).
Proof. apply (pagination_layout 10 20). lia. Defined.

(** X12. The current page, when it exists, has a button in the row, and it
    is the only active one. *)
Theorem pagination_current_page (currentPage totalPages : Z) :
  0 <= currentPage < totalPages ->
  omap page_of (List.filter is_active (pageNumbers currentPage totalPages))
  = [currentPage].
Proof.
  intros Hc.
  page_shapes currentPage totalPages;
    cbn [List.filter is_active]; zcases; simpl; f_equal; lia.
Qed.

Lemma pagination_current_page_witness :
  omap page_of (List.filter is_active (pageNumbers 10 20)) = [10].
Proof. apply (pagination_current_page 10 20). lia. Defined.

Lemma pageNumbers_buttons c t item :
  In item (pageNumbers c t) ->
  item = Ellipsis \/
  exists i, item = PageItem i (number i) (i =? c) false /\
            (1 <= t -> 0 <= i < t).
Proof.
  assert (Hb : forall i, (1 <= t -> 0 <= i < t) ->
    button c i = Ellipsis \/
    exists j, button c i = PageItem j (number j) (j =? c) false /\
              (1 <= t -> 0 <= j < t)) by (intros i Hi; right; by exists i).
  assert (Hf : first_button c = Ellipsis \/
    exists j, first_button c = PageItem j (number j) (j =? c) false /\
              (1 <= t -> 0 <= j < t)).
  { right. exists 0. unfold first_button. rewrite (Z.eqb_sym c 0).
    split; [reflexivity | lia]. }
  assert (Hl : last_button c t = Ellipsis \/
    exists j, last_button c t = PageItem j (number j) (j =? c) false /\
              (1 <= t -> 0 <= j < t)).
  { right. exists (t - 1). unfold last_button.
    rewrite (Z.eqb_sym c (t - 1)), pretty_number. split; [reflexivity | lia]. }
  unfold pageNumbers.
  destruct (Z.leb_spec t 1) as [Ht1 | Ht1].
  { intros [<- | []]. exact Hf. }
  destruct (Z.leb_spec t 7) as [Ht7 | Ht7].
  { intros Hin. apply in_map_iff in Hin. destruct Hin as (i & <- & Hi).
    apply Hb. unfold upto in Hi. apply list_elem_of_In, elem_of_seqZ in Hi.
    lia. }
  destruct (if c <=? 3 then _ else _) as [startPage endPage].
  fold (first_button c). fold (last_button c t).
  intros [<- | Hin]; [exact Hf |]. revert Hin.
  rewrite !in_app_iff, in_flat_map.
  destruct (startPage >? 1), (endPage <? t - 1), (t >? 1); cbn [In];
    (intros [[] | [Hin | [Hin | [Hin | Hin]]]];
     [ try (destruct Hin as [<- | []]; by left); destruct Hin
     | destruct Hin as (i & _ & Hin); revert Hin; rewrite Z.gtb_ltb;
       destruct (Z.ltb_spec 0 i), (Z.ltb_spec i (t - 1)); cbn [andb In];
       try (intros []; fail); intros [<- | []]; apply Hb; lia
     | try (destruct Hin as [<- | []]; by left); destruct Hin
     | try (destruct Hin as [<- | []]; exact Hl); destruct Hin ]).
Qed.

(** X13. What a click does: whatever button of the pagination is clicked,
    the page asked for exists and is not the page already shown. *)
Theorem pagination_click_safe (currentPage totalPages : Z) item page :
  In item (pageItems currentPage totalPages) ->
  click totalPages item = Some page ->
  0 <= page < totalPages /\ page <> currentPage.
Proof.
  unfold pageItems. intros Hin Hclick.
  assert (Hrange : 0 <= page < totalPages).
  { destruct item as [i txt a d |]; [| discriminate].
    simpl in Hclick. destruct d, a; try discriminate. simpl in Hclick.
    revert Hclick. zcmp; cbn [andb]; intros [= <-]; lia. }
  split; [exact Hrange |].
  cbn [app] in Hin. destruct Hin as [<- | Hin].
  { simpl in Hclick. revert Hclick. zcmp; cbn [andb]; intros [= <-]; lia. }
  apply in_app_or in Hin. destruct Hin as [Hin | [<- | []]].
  - apply pageNumbers_buttons in Hin. destruct Hin as [-> | (i & -> & _)].
    + discriminate.
    + simpl in Hclick. destruct (Z.eqb_spec i currentPage); [discriminate |].
      simpl in Hclick. revert Hclick. zcmp; cbn [andb]; intros [= <-]; lia.
  - simpl in Hclick. revert Hclick. zcmp; cbn [andb]; intros [= <-]; lia.
Qed.

Lemma pagination_click_safe_witness :
  0 <= 11 < 20 /\ 11 <> 10.
Proof.
  apply (pagination_click_safe 10 20
           (PageItem 11 (number 11) false false) 11).
  - vm_compute. tauto.
  - reflexivity.
Defined.

(** X14. For an existing current page, every numbered button shows its page
    counted from one; a click on it opens that page, except the button of
    the current page, which does nothing.  "Back" opens the page before and
    "forward" the page after, and they do nothing on the first and on the
    last page. *)
Theorem pagination_click_opens (currentPage totalPages : Z) :
  0 <= currentPage < totalPages ->
  (forall item, In item (pageNumbers currentPage totalPages) ->
     item = Ellipsis \/
     exists i, item = PageItem i (pretty (i + 1)) (i =? currentPage) false /\
               click totalPages item
               = (if i =? currentPage then None else Some i)) /\
  exists back forward,
    pageItems currentPage totalPages
    = back :: pageNumbers currentPage totalPages ++ [forward] /\
    click totalPages back
    = (if currentPage =? 0 then None else Some (currentPage - 1)) /\
    click totalPages forward
    = (if currentPage =? totalPages - 1 then None
       else Some (currentPage + 1)).
Proof.
  intros Hc. split.
  - intros item Hin. apply pageNumbers_buttons in Hin.
    destruct Hin as [-> | (i & -> & Hi)]; [by left | right].
    exists i. split; [reflexivity |]. specialize (Hi ltac:(lia)).
    simpl. destruct (Z.eqb_spec i currentPage); [reflexivity |].
    simpl. zcmp. reflexivity.
  - eexists _, _. split; [reflexivity |]. simpl.
    split; zcases; reflexivity.
Qed.

Lemma pagination_click_opens_witness :
  (forall item, In item (pageNumbers 10 20) ->
     item = Ellipsis \/
     exists i, item = PageItem i (pretty (i + 1)) (i =? 10) false /\
               click 20 item = (if i =? 10 then None else Some i)) /\
  exists back forward,
    pageItems 10 20 = back :: pageNumbers 10 20 ++ [forward] /\
    click 20 back = (if 10 =? 0 then None else Some (10 - 1)) /\
    click 20 forward = (if 10 =? 20 - 1 then None else Some (10 + 1)).
Proof. apply (pagination_click_opens 10 20). lia. Defined.

End Pagination.


(** * The content scripts and the background script together *)

Lemma getToken_world w token w0 :
  AuthManager.getToken w = (Ok token, w0) ->
  now w0 = now w /\ requests w0 = requests w /\ responses w0 = responses w
  /\ storage w0 = storage w /\ storage_writes w0 = storage_writes w.
Proof.
  unfold AuthManager.getToken, bind, StorageManager.get.
  destruct (sm_cache w !! CONFIG.TOKEN); intros [= <- <-]; done.
Qed.

Lemma drop_responses {A} (l : list A) (r : A) :
  drop (length l) (l ++ [r]) = [r].
Proof. by rewrite drop_app_length. Qed.

Lemma json_token token :
  prop (json (JObj [("token", token)])) "token" = ret (json token).
Proof. by destruct token. Qed.

(** A message of a type that [MessageHandlers] owns, whose handler answers
    [r]: the content script gets [r], serialised. *)
Lemma sendMessage_handler env type data h w w1 r :
  MessageHandlers.find_own type MessageHandlers.own = Some h ->
  h env (message type (json data)) w = (Ok tt, w1) ->
  responses w1 = responses w ++ [r] ->
  Runtime.sendMessage env (JStr type) data w
  = (Runtime.Response (json r), w1).
Proof.
  intros Hh Hrun Hr. unfold Runtime.sendMessage, onMessage.
  cbn [msg_type json ToString]. unfold MessageHandlers.lookup. rewrite Hh.
  unfold bind, try_catch. fold (message type (json data)). rewrite Hrun.
  cbn [snd ret]. by rewrite Hr, drop_responses.
Qed.

Lemma sendMessage_GET_TOKEN env data w token w0 :
  AuthManager.getToken w = (Ok token, w0) ->
  Runtime.sendMessage env (JStr "GET_TOKEN") data w
  = (Runtime.Response (json (JObj [("token", token)])),
     with_response (JObj [("token", token)]) w0).
Proof.
  intros H. destruct (getToken_world _ _ _ H) as (_ & _ & Hr & _).
  apply (sendMessage_handler env "GET_TOKEN" data MessageHandlers.GET_TOKEN);
    [reflexivity | | by simpl; rewrite Hr].
  unfold MessageHandlers.GET_TOKEN, try_catch.
  by rewrite (bind_ok _ _ _ _ _ H).
Qed.

Lemma TokenManager_getToken_run env w token w0 :
  AuthManager.getToken w = (Ok token, w0) ->
  Badge.TokenManager.getToken env w
  = (Ok (json token), with_response (JObj [("token", token)]) w0).
Proof.
  intros H. destruct (getToken_world _ _ _ H) as (Hn & _).
  unfold Badge.TokenManager.getToken, try_catch, bind,
    Badge.MessageSender.send.
  rewrite (sendMessage_GET_TOKEN _ _ _ _ _ H).
  simpl now. rewrite Hn, Z.sub_diag. cbn [Z.leb Z.compare].
  destruct token; reflexivity.
Qed.

(** X15. The token a content script gets.  [TokenManager.getToken] returns
    the token held by the background script, [null] when there is none; it
    never throws, and asking contacts neither the API nor
    [chrome.storage.local] for writing. *)
Theorem content_getToken (env : Env) (w : World) :
  exists token w0,
    AuthManager.getToken w = (Ok token, w0)
    /\ Badge.TokenManager.getToken env w
       = (Ok (json token), with_response (JObj [("token", token)]) w0)
    /\ requests w0 = requests w
    /\ storage w0 = storage w
    /\ storage_writes w0 = storage_writes w.
Proof.
  destruct (getToken_run w) as (token & w0 & H & _).
  exists token, w0. destruct (getToken_world _ _ _ H) as (_ & ? & _ & ? & ?).
  split; [exact H |]. split; [by apply TokenManager_getToken_run | done].
Qed.


Lemma truthy_json v : truthy (json v) = truthy v.
Proof. by destruct v. Qed.

Lemma FETCH_USERS_CARD_STATUS_invalid env msg w token :
  prop (msg_data msg) "token" w = (Ok token, w) ->
  truthy token = false ->
  exists e,
    MessageHandlers.FETCH_USERS_CARD_STATUS env msg w
    = (Ok tt, with_response (failure e) w).
Proof.
  intros E Tt. unfold MessageHandlers.FETCH_USERS_CARD_STATUS, try_catch.
  rewrite (bind_ok _ _ _ _ _ E).
  step_prop (msg_data msg) "card_id" w; [| by eexists].
  step_prop (msg_data msg) "users" w; [| by eexists].
  rewrite Tt. cbn [negb orb].
  destruct x0 as [| |b|n|s|[|u us]|fs]; by eexists.
Qed.

(** A response with [success: false] rejects the promise of [send]. *)
Lemma send_rejected env type data timeout w w1 e :
  Runtime.sendMessage env (JStr type) data w
  = (Runtime.Response (failure e), w1) ->
  exists e', Badge.MessageSender.send env type data timeout w
             = (Throw e', w1).
Proof.
  intros H. unfold Badge.MessageSender.send. rewrite H.
  destruct (timeout <=? now w1 - now w); by eexists.
Qed.

(** X16. Without a token no badge request leaves the browser.  When the
    background script holds no token, [fetchUserStatuses] returns the
    empty object whatever the card and the users are, and the API is not
    contacted; nothing is written to [chrome.storage.local]. *)
Theorem fetchUserStatuses_without_token
    (env : Env) (cardId : JsVal) (users : list JsVal) (w w0 : World)
    (token : JsVal) :
  AuthManager.getToken w = (Ok token, w0) ->
  truthy token = false ->
  exists w',
    Badge.ApiClient.fetchUserStatuses env cardId users w = (Ok (JObj []), w')
    /\ requests w' = requests w
    /\ storage w' = storage w
    /\ storage_writes w' = storage_writes w.
Proof.
  intros H Tt. destruct users as [| u us]; [by exists w |].
  destruct (getToken_world _ _ _ H) as (_ & Hq & Hr & Hs & Hw).
  unfold Badge.ApiClient.fetchUserStatuses, try_catch.
  rewrite (bind_ok _ _ _ _ _ (TokenManager_getToken_run env _ _ _ H)).
  set (w1 := with_response (JObj [("token", token)]) w0).
  set (data := JObj [("token", json token);
                     ("card_id", JStr (ToString cardId));
                     ("users", JArr (u :: us))]).
  destruct (FETCH_USERS_CARD_STATUS_invalid env
              (message "FETCH_USERS_CARD_STATUS" (json data)) w1 (json token))
    as [e He].
  { subst data. by destruct token. }
  { by rewrite truthy_json. }
  destruct (send_rejected env "FETCH_USERS_CARD_STATUS" data 360000 w1
              (with_response (failure e) w1) e) as [e' Hsend].
  { change (Runtime.Response (failure e))
      with (Runtime.Response (json (failure e))).
    apply (sendMessage_handler env "FETCH_USERS_CARD_STATUS" data
             MessageHandlers.FETCH_USERS_CARD_STATUS);
      [reflexivity | exact He | reflexivity]. }
  rewrite (bind_throw _ _ _ _ _ Hsend).
  eexists. split; [reflexivity |]. simpl. auto.
Qed.

Lemma fetchUserStatuses_without_token_witness :
  exists w',
    Badge.ApiClient.fetchUserStatuses healthy_api (JStr "7")
      [JObj [("user_id", JStr "1")]] (initial_world 0)
    = (Ok (JObj []), w')
    /\ requests w' = requests (initial_world 0)
    /\ storage w' = storage (initial_world 0)
    /\ storage_writes w' = storage_writes (initial_world 0).
Proof.
  apply (fetchUserStatuses_without_token healthy_api (JStr "7")
           [JObj [("user_id", JStr "1")]] (initial_world 0)
           (with_sm_cache (<[CONFIG.TOKEN := None]> ∅) (initial_world 0))
           JNull); reflexivity.
Defined.


(** Serialising twice is serialising once. *)
Lemma json_idem v : json (json v) = json v.
Proof.
  revert v. fix IH 1. intros [| |b|n|s|l|fs]; try reflexivity.
  - cbn [json]. f_equal. rewrite List.map_map.
    revert l. fix IHl 1. intros [|e l]; [reflexivity |].
    cbn [List.map]. f_equal; [| apply IHl].
    pose proof (IH e) as He. destruct e; try reflexivity; exact He.
  - cbn [json]. f_equal.
    revert fs. fix IHfs 1. intros [|[k e] fs]; [reflexivity |].
    pose proof (IH e) as He. pose proof (IHfs fs) as Hfs.
    destruct e; try exact Hfs; f_equal; try exact Hfs; f_equal; exact He.
Qed.


Lemma ids_of_defined users :
  Forall (fun u => nullish u = false) users ->
  exists ids, ids_of users = Ok ids.
Proof.
  induction 1 as [| u users Hu _ [ids IH]]; [by eexists |].
  cbn [ids_of]. rewrite IH.
  destruct u; try discriminate; by eexists.
Qed.

(** The run of [FETCH_USERS_CARD_STATUS] that reaches the API. *)
Lemma FETCH_USERS_CARD_STATUS_run env msg w token card_id u us :
  prop (msg_data msg) "token" w = (Ok token, w) ->
  prop (msg_data msg) "card_id" w = (Ok card_id, w) ->
  prop (msg_data msg) "users" w = (Ok (JArr (u :: us)), w) ->
  truthy token = true -> truthy card_id = true ->
  Forall (fun u => nullish u = false) (u :: us) ->
  PendingUserStatusRequests w = ∅ ->
  let body := JObj [("token", token); ("card_id", card_id);
                    ("users", JArr (u :: us))] in
  let n := length (requests w) in
  exists w',
    MessageHandlers.FETCH_USERS_CARD_STATUS env msg w = (Ok tt, w')
    /\ responses w' = responses w
                      ++ [status_response
                            (env_fetch env n "/users_card_status" body)]
    /\ requests w' = requests w ++ [("/users_card_status", body)]
    /\ now w' = now w + env_latency env n
    /\ PendingUserStatusRequests w' = ∅
    /\ storage w' = storage w
    /\ storage_writes w' = storage_writes w.
Proof.
  intros Et Ec Eu Tt Tc Hus Hp body n.
  destruct (ids_of_defined _ Hus) as [ids Hids].
  unfold MessageHandlers.FETCH_USERS_CARD_STATUS, try_catch.
  rewrite (bind_ok _ _ _ _ _ Et), (bind_ok _ _ _ _ _ Ec),
    (bind_ok _ _ _ _ _ Eu).
  rewrite Tt, Tc. cbn [negb orb].
  pose proof (makeCacheKey_eval card_id (u :: us) w) as Ek.
  rewrite Hids in Ek. rewrite (bind_ok _ _ _ _ _ Ek).
  rewrite (bind_ok _ _ w (PendingUserStatusRequests w) w) by reflexivity.
  rewrite Hp, lookup_empty.
  unfold bind, promise_of, modify, ApiClient.makeRequest. simpl.
  fold body. fold n. rewrite Hp, delete_insert_eq, delete_empty.
  destruct (env_fetch env n "/users_card_status" body) eqn:Ef; simpl;
    eexists; (split; [reflexivity |]); simpl; auto 10.
Qed.


Lemma getToken_pending w token w0 :
  AuthManager.getToken w = (Ok token, w0) ->
  PendingUserStatusRequests w0 = PendingUserStatusRequests w.
Proof.
  unfold AuthManager.getToken, bind, StorageManager.get.
  destruct (sm_cache w !! CONFIG.TOKEN); intros [= <- <-]; done.
Qed.

Lemma json_elems_defined users :
  Forall (fun u => nullish u = false) users ->
  Forall (fun u => nullish u = false)
    (List.map (fun e => match e with
                        | JUndef => JNull
                        | _ => json e
                        end) users).
Proof.
  induction 1 as [| u users Hu _ IH]; constructor; [| exact IH].
  by destruct u.
Qed.

(** X17. Badges are asked for with the stored token.  With a token in the
    background script, users that are neither [null] nor [undefined], a
    card id and no request pending, [fetchUserStatuses] contacts the API
    exactly once, with the token, the card id as a string and the users.
    It returns the data of the answer, and the empty object when the answer
    has no data, when the request fails and when the answer takes six
    minutes or more. *)
Theorem fetchUserStatuses_with_token
    (env : Env) (cardId : JsVal) (users : list JsVal) (w w0 : World)
    (token : JsVal) :
  AuthManager.getToken w = (Ok token, w0) ->
  truthy token = true ->
  ToString cardId <> "" ->
  users <> [] ->
  Forall (fun u => nullish u = false) users ->
  PendingUserStatusRequests w = ∅ ->
  let body := json (JObj [("token", token);
                          ("card_id", JStr (ToString cardId));
                          ("users", JArr users)]) in
  let n := length (requests w) in
  exists w',
    Badge.ApiClient.fetchUserStatuses env cardId users w
    = (Ok (if 360000 <=? env_latency env n then JObj []
           else match env_fetch env n "/users_card_status" body with
                | Ok data => js_or (json data) (JObj [])
                | Throw _ => JObj []
                end), w')
    /\ requests w' = requests w ++ [("/users_card_status", body)]
    /\ PendingUserStatusRequests w' = ∅
    /\ storage w' = storage w.
Proof.
  intros H Tt Hc Hne Hus Hp body n.
  destruct users as [| u us]; [done |].
  destruct (getToken_world _ _ _ H) as (Hn & Hq & Hr & Hs & Hw).
  pose proof (getToken_pending _ _ _ H) as Hp0.
  unfold Badge.ApiClient.fetchUserStatuses, try_catch.
  rewrite (bind_ok _ _ _ _ _ (TokenManager_getToken_run env _ _ _ H)).
  set (w1 := with_response (JObj [("token", token)]) w0).
  set (data := JObj [("token", json token);
                     ("card_id", JStr (ToString cardId));
                     ("users", JArr (u :: us))]).
  set (users' := List.map (fun e => match e with
                                    | JUndef => JNull
                                    | _ => json e
                                    end) (u :: us)).
  assert (Hbody : body = JObj [("token", json token);
                               ("card_id", JStr (ToString cardId));
                               ("users", JArr users')]).
  { subst body. by destruct token. }
  assert (Hdata : json data = body).
  { rewrite Hbody. subst data.
    pose proof (json_idem token) as Hi. pose proof (truthy_json token) as Hj.
    rewrite Tt in Hj.
    destruct (json token) eqn:Ej; try discriminate Hj;
      cbn [json] in *; rewrite ?Hi; reflexivity. }
  apply String.eqb_neq in Hc.
  destruct (FETCH_USERS_CARD_STATUS_run env
              (message "FETCH_USERS_CARD_STATUS" (json data)) w1
              (json token) (JStr (ToString cardId))
              (match u with JUndef => JNull | _ => json u end)
              (List.map (fun e => match e with
                                  | JUndef => JNull
                                  | _ => json e
                                  end) us))
    as (w2 & Hrun & Hr2 & Hq2 & Hn2 & Hp2 & Hs2 & Hw2);
    try (cbn [message msg_data]; rewrite Hdata, Hbody; reflexivity).
  { by rewrite truthy_json. }
  { simpl. by rewrite Hc. }
  { by apply (json_elems_defined (u :: us)). }
  { simpl. by rewrite Hp0. }
  cbn zeta in *. simpl requests in *. simpl now in Hn2.
  rewrite Hq in *. fold n in Hr2, Hq2, Hn2.
  assert (Hb2 : JObj [("token", json token);
                      ("card_id", JStr (ToString cardId));
                      ("users",
                       JArr ((match u with JUndef => JNull | _ => json u end)
                             :: List.map (fun e => match e with
                                                   | JUndef => JNull
                                                   | _ => json e
                                                   end) us))] = body)
    by (rewrite Hbody; reflexivity).
  rewrite Hb2 in Hr2, Hq2.
  pose proof (sendMessage_handler env "FETCH_USERS_CARD_STATUS" data
                MessageHandlers.FETCH_USERS_CARD_STATUS w1 w2 _
                eq_refl Hrun Hr2) as Hsend.
  exists w2. split; [| rewrite Hs2; simpl; auto].
  unfold bind at 1, Badge.MessageSender.send. rewrite Hsend.
  replace (now w2 - now w1) with (env_latency env n)
    by (rewrite Hn2; simpl; lia).
  destruct (360000 <=? env_latency env n); [reflexivity |].
  destruct (env_fetch env n "/users_card_status" body) as [d | e];
    [| reflexivity].
  destruct d; reflexivity.
Qed.

Lemma fetchUserStatuses_with_token_witness :
  let body := json (JObj [("token", JStr "tok");
                          ("card_id", JStr (ToString (JStr "7")));
                          ("users", JArr [JObj [("user_id", JStr "1")]])]) in
  let n := length (requests (world_with_token (JStr "tok"))) in
  exists w',
    Badge.ApiClient.fetchUserStatuses badge_api (JStr "7")
      [JObj [("user_id", JStr "1")]] (world_with_token (JStr "tok"))
    = (Ok (if 360000 <=? env_latency badge_api n then JObj []
           else match env_fetch badge_api n "/users_card_status" body with
                | Ok data => js_or (json data) (JObj [])
                | Throw _ => JObj []
                end), w')
    /\ requests w'
       = requests (world_with_token (JStr "tok"))
         ++ [("/users_card_status", body)]
    /\ PendingUserStatusRequests w' = ∅
    /\ storage w' = storage (world_with_token (JStr "tok")).
Proof.
  apply (fetchUserStatuses_with_token badge_api (JStr "7")
           [JObj [("user_id", JStr "1")]] (world_with_token (JStr "tok"))
           (snd (AuthManager.getToken (world_with_token (JStr "tok"))))
           (JStr "tok")).
  - reflexivity.
  - reflexivity.
  - discriminate.
  - discriminate.
  - repeat constructor.
  - reflexivity.
Defined.


Lemma assoc_json k v fs :
  assoc k fs = Some v -> v <> JUndef ->
  assoc k (own_fields (json (JObj fs))) = Some (json v).
Proof.
  intros H Hv. induction fs as [| [k' v'] fs IH]; [discriminate |].
  cbn [assoc] in H. destruct (String.eqb k k') eqn:Ek.
  - injection H as ->. destruct v; try done; cbn; by rewrite Ek.
  - specialize (IH H). destruct v'; try exact IH; cbn; by rewrite Ek.
Qed.

Lemma json_category_data category cardId page :
  let data := json (JObj [("category", category); ("card_id", cardId);
                          ("page", page)]) in
  prop data "category" = ret (json category)
  /\ prop data "card_id" = ret (json cardId)
  /\ prop data "page" = ret (json page).
Proof. destruct category, cardId, page; repeat split; reflexivity. Qed.

(** X18. A page of a category is asked for with the stored token.
    [fetchUsersByCategory] never throws.  Either it returns the empty array
    without contacting the API (the background script holds no token, or
    the category or the card id is missing), or the API is contacted exactly
    once, with the stored token, the category, the card id and the page,
    zero when none is given. *)
Theorem fetchUsersByCategory_requests
    (env : Env) (category cardId page : JsVal) (w : World) :
  exists v w',
    Badge.ApiClient.fetchUsersByCategory env category cardId page w
    = (Ok v, w')
    /\ ((requests w' = requests w /\ v = JArr [])
        \/ exists token,
             fst (AuthManager.getToken w) = Ok token
             /\ truthy token = true /\ truthy category = true
             /\ truthy cardId = true
             /\ requests w'
                = requests w
                  ++ [("/get_cards_by_category",
                       JObj [("token", token); ("category", json category);
                             ("card_id", json cardId);
                             ("page", js_or (json page) (JNum 0))])]).
Proof.
  set (data := JObj [("category", category); ("card_id", cardId);
                     ("page", page)]).
  destruct (FETCH_USERS_BY_CATEGORY_effects env
              (message "FETCH_USERS_BY_CATEGORY" (json data)) w)
    as (r & w1 & Hrun & Hr & Hcases).
  pose proof (sendMessage_handler env "FETCH_USERS_BY_CATEGORY" data
                MessageHandlers.FETCH_USERS_BY_CATEGORY w w1 r
                eq_refl Hrun Hr) as Hsend.
  assert (Hok : exists v,
             Badge.ApiClient.fetchUsersByCategory env category cardId page w
             = (Ok v, w1)).
  { unfold Badge.ApiClient.fetchUsersByCategory, try_catch, bind,
      Badge.MessageSender.send. fold data. rewrite Hsend.
    destruct (60000 <=? now w1 - now w); [by eexists |].
    destruct (json r) as [| |b|n|s|l|fs]; simpl; unfold bind, ret, throw;
      repeat match goal with
             | |- context [if ?c then _ else _] => destruct c
             end; by eexists. }
  destruct Hcases as [[Hq Hfail] | (token & c & ci & p & Ht & Tt & Tc & Tci
                                    & Ec & Eci & Ep & Hq)].
  - exists (JArr []), w1. split; [| by left].
    destruct r as [| |b|n|s|l|fs]; try discriminate Hfail.
    cbn [own_fields] in Hfail.
    pose proof (assoc_json _ _ _ Hfail ltac:(discriminate)) as Hj.
    unfold Badge.ApiClient.fetchUsersByCategory, try_catch, bind,
      Badge.MessageSender.send. fold data. rewrite Hsend.
    destruct (60000 <=? now w1 - now w); [reflexivity |].
    destruct (json (JObj fs)) as [| |b|n|s|l|fs'] eqn:Ej; try discriminate Ej.
    cbn [own_fields] in Hj. simpl. rewrite Hj. reflexivity.
  - destruct Hok as [v Hv]. exists v, w1. split; [exact Hv | right].
    destruct (json_category_data category cardId page) as (Jc & Jci & Jp).
    cbn zeta in Jc, Jci, Jp. fold data in Jc, Jci, Jp.
    cbn [message msg_data] in Ec, Eci, Ep.
    rewrite Jc in Ec. rewrite Jci in Eci. rewrite Jp in Ep.
    injection Ec as <-. injection Eci as <-. injection Ep as <-.
    rewrite truthy_json in Tc, Tci.
    exists token. auto 10.
Qed.


Lemma SM_get_world key w v w0 :
  StorageManager.get key w = (Ok v, w0) ->
  now w0 = now w /\ requests w0 = requests w /\ responses w0 = responses w
  /\ storage w0 = storage w /\ storage_writes w0 = storage_writes w.
Proof.
  unfold StorageManager.get.
  destruct (sm_cache w !! key); intros [= <- <-]; done.
Qed.

(** Categories stored less than five minutes ago are the answer. *)
Lemma GET_HEALTH_CATEGORY_fresh env msg w category timestamp w0 :
  StorageManager.get CONFIG.HEALTH_CACHE w
  = (Ok (Some (SHealth category timestamp)), w0) ->
  now w - timestamp < CONFIG.CACHE_DURATION ->
  MessageHandlers.GET_HEALTH_CATEGORY env msg w
  = (Ok tt, with_response (js_or category (JObj [])) w0).
Proof.
  intros H Hfresh. destruct (SM_get_world _ _ _ _ H) as (Hn & _).
  unfold MessageHandlers.GET_HEALTH_CATEGORY, try_catch.
  rewrite (bind_ok _ _ _ _ _ H).
  rewrite (bind_ok _ _ w0 (now w0) w0) by reflexivity.
  rewrite Hn. destruct (Z.ltb_spec (now w - timestamp) CONFIG.CACHE_DURATION);
    [reflexivity | lia].
Qed.

Lemma assoc_json_none k fs :
  assoc k fs = None -> assoc k (own_fields (json (JObj fs))) = None.
Proof.
  induction fs as [| [k' v'] fs IH]; [done |].
  cbn [assoc]. destruct (String.eqb k k') eqn:Ek; [discriminate |].
  intros H. specialize (IH H).
  destruct v'; try exact IH; cbn; by rewrite Ek.
Qed.

(** X19. Categories are served from the store for five minutes.  When the
    background script stored the categories less than five minutes ago,
    [fetchCategories] returns an array without contacting the API and
    without writing to [chrome.storage.local].  When the stored categories
    are an object without the keys [success], [category] and [categories],
    the array lists, in order, its entries that are objects with a [badge]
    and a [color]. *)
Theorem fetchCategories_cached
    (env : Env) (w w0 : World) (category : JsVal) (timestamp : Z) :
  StorageManager.get CONFIG.HEALTH_CACHE w
  = (Ok (Some (SHealth category timestamp)), w0) ->
  now w - timestamp < 5 * 60 * 1000 ->
  exists cats w',
    Badge.CategoryNavigator.fetchCategories env w = (Ok (JArr cats), w')
    /\ requests w' = requests w
    /\ storage w' = storage w
    /\ storage_writes w' = storage_writes w
    /\ forall fs,
         category = JObj fs ->
         assoc "success" fs = None ->
         assoc "category" fs = None ->
         assoc "categories" fs = None ->
         cats
         = List.map
             (fun '(key, val) =>
                JObj [("category", JStr key);
                      ("badge",
                       default JUndef (assoc "badge" (own_fields val)));
                      ("color",
                       default JUndef (assoc "color" (own_fields val)))])
             (List.filter
                (fun '(key, val) => Badge.CategoryNavigator.has_badge val)
                (own_fields (json category))).
Proof.
  intros H Hfresh. destruct (SM_get_world _ _ _ _ H) as (Hn & Hq & Hr & Hs & Hw).
  set (r := js_or category (JObj [])).
  set (w1 := with_response r w0).
  pose proof (sendMessage_handler env "GET_HEALTH_CATEGORY" (JObj [])
                MessageHandlers.GET_HEALTH_CATEGORY w w1 r eq_refl
                (GET_HEALTH_CATEGORY_fresh env _ w _ _ _ H Hfresh)
                ltac:(simpl; by rewrite Hr)) as Hsend.
  assert (Hrun : Badge.CategoryNavigator.fetchCategories env w
                 = Badge.CategoryNavigator.fetchCategories env w)
    by reflexivity.
  unfold Badge.CategoryNavigator.fetchCategories at 2 in Hrun.
  unfold try_catch, bind at 1, Badge.MessageSender.send in Hrun.
  rewrite Hsend in Hrun. simpl now in Hrun.
  rewrite Hn, Z.sub_diag in Hrun. cbn [Z.leb Z.compare] in Hrun.
  assert (Harr : exists cats,
             Badge.CategoryNavigator.fetchCategories env w
             = (Ok (JArr cats), w1)).
  { rewrite Hrun.
    destruct (json r) as [| |b|n|s|l|fs]; simpl; unfold bind, ret, throw;
      simpl;
      repeat match goal with
             | |- context [if ?c then _ else _] => destruct c; simpl
             end; by eexists. }
  destruct Harr as [cats Hcats]. exists cats, w1.
  split; [exact Hcats |]. repeat (split; [done |]).
  intros fs -> Hsu Hca Hcs.
  apply assoc_json_none in Hsu, Hca, Hcs.
  rewrite Hrun in Hcats. subst r. cbn [js_or truthy] in Hcats.
  destruct (json (JObj fs)) as [| |b|n|s|l|fs'] eqn:Ej; try discriminate Ej.
  cbn [own_fields] in *. simpl in Hcats. unfold bind, ret in Hcats.
  simpl in Hcats. rewrite Hsu in Hcats. simpl in Hcats.
  rewrite Hca, Hcs in Hcats. simpl in Hcats.
  by injection Hcats as <-.
Qed.

Lemma fetchCategories_cached_witness :
  exists cats w',
    Badge.CategoryNavigator.fetchCategories healthy_api
      (with_now 1000
         (world_with_categories
            (JObj [("trade", JObj [("badge", JStr "T");
                                   ("color", JStr "red")]);
                   ("note", JStr "n")]) 0))
    = (Ok (JArr cats), w')
    /\ requests w' = []
    /\ storage w'
       = storage (world_with_categories
                    (JObj [("trade", JObj [("badge", JStr "T");
                                           ("color", JStr "red")]);
                           ("note", JStr "n")]) 0)
    /\ storage_writes w' = [CONFIG.HEALTH_CACHE]
    /\ forall fs,
         JObj [("trade", JObj [("badge", JStr "T"); ("color", JStr "red")]);
               ("note", JStr "n")] = JObj fs ->
         assoc "success" fs = None ->
         assoc "category" fs = None ->
         assoc "categories" fs = None ->
         cats
         = List.map
             (fun '(key, val) =>
                JObj [("category", JStr key);
                      ("badge",
                       default JUndef (assoc "badge" (own_fields val)));
                      ("color",
                       default JUndef (assoc "color" (own_fields val)))])
             (List.filter
                (fun '(key, val) => Badge.CategoryNavigator.has_badge val)
                (own_fields
                   (json (JObj [("trade", JObj [("badge", JStr "T");
                                                ("color", JStr "red")]);
                                ("note", JStr "n")])))).
Proof.
  apply (fetchCategories_cached healthy_api
           (with_now 1000
              (world_with_categories
                 (JObj [("trade", JObj [("badge", JStr "T");
                                        ("color", JStr "red")]);
                        ("note", JStr "n")]) 0))
           (snd (StorageManager.get CONFIG.HEALTH_CACHE
                   (with_now 1000
                      (world_with_categories
                         (JObj [("trade", JObj [("badge", JStr "T");
                                                ("color", JStr "red")]);
                                ("note", JStr "n")]) 0))))
           (JObj [("trade", JObj [("badge", JStr "T"); ("color", JStr "red")]);
                  ("note", JStr "n")]) 0).
  - reflexivity.
  - reflexivity.
Defined.


(** * The authentication content script *)

(** X21. Credentials are sent complete or not at all.  With the cache of
    page values empty, as on load and after each change of the profile
    element, [processAuthentication] either hands to the background script
    one [HANDLE_AUTH] message with the user name and the CSRF token of the
    page, both non-empty strings, on a page with [isAuth]; or it sends
    nothing and the background script is left as it is. *)
Theorem processAuthentication_credentials
    (env : Env) (page : AuthContent.Page) (w : World) :
  let w' := snd (AuthContent.AuthManager.processAuthentication env page ∅ w) in
  (exists user csrf,
     AuthContent.isAuth page = true
     /\ AuthContent.avatar_alt page = Some user /\ user <> ""
     /\ AuthContent.csrf_meta page = Some csrf /\ csrf <> ""
     /\ w' = snd (onMessage env
                    (message "HANDLE_AUTH"
                       (JObj [("currentUser", JStr user);
                              ("csrfToken", JStr csrf)])) w))
  \/ ((AuthContent.isAuth page = false
       \/ truthy (AuthContent.DOMHelper.read_username page) = false
       \/ truthy (AuthContent.DOMHelper.read_csrf page) = false)
      /\ w' = w).
Proof.
  unfold AuthContent.AuthManager.processAuthentication,
    AuthContent.DOMHelper.isAuthenticated,
    AuthContent.DOMHelper.getCsrfToken,
    AuthContent.DOMHelper.getCurrentUserName.
  destruct (AuthContent.isAuth page) eqn:Ha; [| right; auto].
  cbn [negb]. unfold AuthContent.DomCache. rewrite lookup_empty.
  cbv beta iota zeta.
  rewrite lookup_insert_ne by discriminate. rewrite lookup_empty.
  cbv beta iota zeta.
  destruct (truthy (AuthContent.DOMHelper.read_csrf page)) eqn:Tc;
    [| right; auto].
  destruct (truthy (AuthContent.DOMHelper.read_username page)) eqn:Tu;
    [| right; auto].
  left. cbn [negb orb].
  unfold AuthContent.DOMHelper.read_csrf,
    AuthContent.DOMHelper.read_username in *.
  destruct (AuthContent.csrf_meta page) as [csrf |]; [| discriminate].
  destruct (AuthContent.avatar_alt page) as [user |]; [| discriminate].
  unfold js_or in *.
  destruct (truthy (JStr csrf)) eqn:Ec; [| discriminate].
  destruct (truthy (JStr user)) eqn:Eu; [| discriminate].
  exists user, csrf.
  assert (user <> "") by (intros ->; discriminate).
  assert (csrf <> "") by (intros ->; discriminate).
  repeat (split; [done |]).
  unfold Runtime.sendMessage.
  by destruct (drop _ _).
Qed.

(** X22. Page values are reused for less than five seconds.  A CSRF token
    or a user name read from the page is returned again by every call
    less than 5000 ms later, whatever the page shows by then; a call 5000 ms
    later or more reads the page again. *)
Theorem DOMHelper_cache_ttl
    (page page' : AuthContent.Page) (t t' : Z) (c : AuthContent.DomCache) :
  c !! "csrf" = None -> c !! "username" = None ->
  let '(token, c1) := AuthContent.DOMHelper.getCsrfToken page t c in
  let '(user, c2) := AuthContent.DOMHelper.getCurrentUserName page t c1 in
  token = AuthContent.DOMHelper.read_csrf page
  /\ user = AuthContent.DOMHelper.read_username page
  /\ fst (AuthContent.DOMHelper.getCsrfToken page' t' c2)
     = (if t' - t <? 5000 then AuthContent.DOMHelper.read_csrf page
        else AuthContent.DOMHelper.read_csrf page')
  /\ fst (AuthContent.DOMHelper.getCurrentUserName page' t' c2)
     = (if t' - t <? 5000 then AuthContent.DOMHelper.read_username page
        else AuthContent.DOMHelper.read_username page').
Proof.
  intros Hc Hu.
  unfold AuthContent.DOMHelper.getCsrfToken,
    AuthContent.DOMHelper.getCurrentUserName.
  unfold AuthContent.DomCache in *.
  rewrite Hc. cbv beta iota zeta.
  rewrite lookup_insert_ne by discriminate. rewrite Hu. cbv beta iota zeta.
  rewrite lookup_insert_ne by discriminate.
  rewrite !lookup_insert_eq.
  change AuthContent.CONFIG.DOM_CACHE_TTL with 5000.
  destruct (t' - t <? 5000); done.
Qed.

Lemma DOMHelper_cache_ttl_witness :
  let '(token, c1) :=
    AuthContent.DOMHelper.getCsrfToken signed_in_page 0 ∅ in
  let '(user, c2) :=
    AuthContent.DOMHelper.getCurrentUserName signed_in_page 0 c1 in
  token = AuthContent.DOMHelper.read_csrf signed_in_page
  /\ user = AuthContent.DOMHelper.read_username signed_in_page
  /\ fst (AuthContent.DOMHelper.getCsrfToken
            {| AuthContent.isAuth := false; AuthContent.csrf_meta := None;
               AuthContent.avatar_alt := None |} 5000 c2)
     = (if 5000 - 0 <? 5000
        then AuthContent.DOMHelper.read_csrf signed_in_page
        else AuthContent.DOMHelper.read_csrf
               {| AuthContent.isAuth := false;
                  AuthContent.csrf_meta := None;
                  AuthContent.avatar_alt := None |})
  /\ fst (AuthContent.DOMHelper.getCurrentUserName
            {| AuthContent.isAuth := false; AuthContent.csrf_meta := None;
               AuthContent.avatar_alt := None |} 5000 c2)
     = (if 5000 - 0 <? 5000
        then AuthContent.DOMHelper.read_username signed_in_page
        else AuthContent.DOMHelper.read_username
               {| AuthContent.isAuth := false;
                  AuthContent.csrf_meta := None;
                  AuthContent.avatar_alt := None |}).
Proof.
  apply (DOMHelper_cache_ttl signed_in_page
           {| AuthContent.isAuth := false; AuthContent.csrf_meta := None;
              AuthContent.avatar_alt := None |} 0 5000 ∅); reflexivity.
Defined.


(** * The cookies sent to the API *)

Lemma obj_set_Forall (P : string * JsVal -> Prop) k v fs :
  Forall P fs -> P (k, v) -> Forall P (obj_set k v fs).
Proof.
  intros Hfs Hkv. induction Hfs as [| [k' v'] fs Hx Hfs IH]; cbn [obj_set].
  - by constructor.
  - destruct (String.eqb k k'); by constructor.
Qed.

Lemma cookies_get_In env name value :
  CookieManager.cookies_get env name = Some value ->
  In (name, value) (env_cookies env).
Proof.
  unfold CookieManager.cookies_get.
  destruct (List.find _ _) as [[n v] |] eqn:E; [| discriminate].
  intros [= <-]. apply List.find_some in E as [Hin Heq].
  apply String.eqb_eq in Heq. simpl in Heq. by subst.
Qed.

Lemma required_forwarded env names acc :
  Forall (forwarded env) acc ->
  (forall n, In n names -> In n CONFIG.REQUIRED_COOKIES) ->
  Forall (forwarded env)
    (fold_left
       (fun result name =>
          match CookieManager.cookies_get env name with
          | Some value =>
              if truthy (JStr value) then obj_set name (JStr value) result
              else result
          | None => result
          end) names acc).
Proof.
  revert acc. induction names as [| n names IH]; intros acc Hacc Hn; [done |].
  cbn [fold_left]. apply IH; [| intros; apply Hn; by right].
  destruct (CookieManager.cookies_get env n) as [value |] eqn:E; [| done].
  destruct (truthy (JStr value)); [| done].
  apply obj_set_Forall; [done |]. exists value.
  split; [reflexivity |]. split; [by apply cookies_get_In |].
  left. apply Hn. by left.
Qed.

Lemma remember_forwarded env cookies acc :
  Forall (forwarded env) acc ->
  (forall c, In c cookies ->
     In c (env_cookies env)
     /\ String.prefix CONFIG.REMEMBER_WEB_PREFIX (fst c) = true) ->
  Forall (forwarded env)
    (fold_left
       (fun acc cookie => obj_set (fst cookie) (JStr (snd cookie)) acc)
       cookies acc).
Proof.
  revert acc. induction cookies as [| c cookies IH]; intros acc Hacc Hc;
    [done |].
  cbn [fold_left]. apply IH; [| intros; apply Hc; by right].
  apply obj_set_Forall; [done |]. exists (snd c).
  destruct (Hc c ltac:(by left)) as [Hin Hp].
  split; [reflexivity |]. split; [by destruct c | by right].
Qed.

Lemma spread_Forall (P : string * JsVal -> Prop) a b :
  Forall P a -> Forall P b -> Forall P (spread a b).
Proof.
  unfold spread. revert a. induction b as [| [k v] b IH]; intros a Ha Hb;
    [done |].
  cbn [fold_left]. inversion Hb; subst.
  apply IH; [| done]. by apply obj_set_Forall.
Qed.

Lemma Cache_get_other t k k' x d :
  k <> k' ->
  fst (Cache.get t k (<[k' := x]> (snd (Cache.get t k' d))))
  = fst (Cache.get t k d).
Proof.
  intros Hk. unfold Cache.get at 2.
  destruct (d !! k') as [[v e] |] eqn:E; [destruct (t >? e) |];
    cbn [snd]; unfold Cache.get;
    rewrite lookup_insert_ne by done; rewrite ?lookup_delete_ne by done;
    destruct (d !! k) as [[v' e'] |]; try done; by destruct (t >? e').
Qed.

(** X24. Only the cookies the script is meant to send leave the browser.
    Whenever the cookies are collected anew (neither cached record is
    there, or both have expired), every entry of the object that
    [getAllRelevantCookies] returns is a cookie of the jar whose name is one
    of the required names or starts with [remember_web], with the value it
    has in the jar. *)
Theorem cookies_forwarded (env : Env) (w : World) :
  truthy (fst (Cache.get (now w) "required_cookies" (cache w))) = false ->
  truthy (fst (Cache.get (now w) "remember_cookies" (cache w))) = false ->
  exists fs w',
    CookieManager.getAllRelevantCookies env w = (Ok (JObj fs), w')
    /\ Forall (forwarded env) fs
    /\ requests w' = requests w
    /\ storage w' = storage w.
Proof.
  intros H1 H2.
  unfold CookieManager.getAllRelevantCookies,
    CookieManager.getRequiredCookies.
  unfold bind at 1 2. unfold Cache_get at 1.
  destruct (Cache.get (now w) "required_cookies" (cache w)) as [v1 d1] eqn:E1.
  cbn [fst] in H1. rewrite H1.
  unfold bind at 1, Cache_set at 1, modify. cbn [ret].
  unfold CookieManager.getRememberWebCookies.
  unfold bind at 1 2. unfold Cache_get at 1. cbn [now cache with_cache].
  unfold Cache.set.
  match goal with
  | |- context [Cache.get (now w) "remember_cookies" (<[?k := ?x]> d1)] =>
      pose proof (Cache_get_other (now w) "remember_cookies" k x (cache w)
                    ltac:(done)) as Ho;
      rewrite E1 in Ho; cbn [snd] in Ho;
      destruct (Cache.get (now w) "remember_cookies" (<[k := x]> d1))
        as [v2 d2] eqn:E2
  end.
  cbn [fst] in Ho. subst v2. rewrite H2.
  unfold bind, Cache_set, modify. cbn [ret own_fields].
  eexists _, _. split; [reflexivity |].
  split; [| done].
  apply spread_Forall.
  - apply required_forwarded; [constructor | done].
  - apply remember_forwarded; [constructor |].
    intros c Hc. apply List.filter_In in Hc. exact Hc.
Qed.

Lemma cookies_forwarded_witness :
  exists fs w',
    CookieManager.getAllRelevantCookies healthy_api (initial_world 0)
    = (Ok (JObj fs), w')
    /\ Forall (forwarded healthy_api) fs
    /\ requests w' = requests (initial_world 0)
    /\ storage w' = storage (initial_world 0).
Proof.
  apply (cookies_forwarded healthy_api (initial_world 0)); reflexivity.
Defined.


(** * The users of a page *)

Section Users.
Import UserDataExtractor.

Lemma Map_get_set key v m : Map_get key (Map_set key v m) = Some v.
Proof.
  induction m as [| [k v'] m IH]; cbn [Map_set Map_get].
  - by rewrite String.eqb_refl.
  - destruct (String.eqb key k) eqn:E; cbn [Map_get]; rewrite E; [done | exact IH].
Qed.

Lemma Map_set_new key v m :
  Map_get key m = None -> Map_set key v m = m ++ [(key, v)].
Proof.
  induction m as [| [k v'] m IH]; cbn [Map_set Map_get]; [done |].
  destruct (String.eqb key k); [discriminate |].
  intros H. by rewrite IH.
Qed.

Lemma Map_set_length key v m :
  is_Some (Map_get key m) -> length (Map_set key v m) = length m.
Proof.
  induction m as [| [k v'] m IH]; cbn [Map_set Map_get].
  - by intros [? ?].
  - destruct (String.eqb key k); [done |]. intros H. simpl. by rewrite IH.
Qed.

Lemma Map_get_delete key key' m :
  String.eqb key key' = false ->
  Map_get key (Map_delete key' m) = Map_get key m.
Proof.
  intros Hne. unfold Map_delete.
  induction m as [| [k v] m IH]; [done |]. cbn [List.filter fst Map_get].
  destruct (String.eqb key' k) eqn:E; cbn [negb Map_get].
  - apply String.eqb_eq in E. subst k. by rewrite Hne.
  - by rewrite IH.
Qed.

Lemma Map_delete_length key m : (length (Map_delete key m) <= length m)%nat.
Proof. apply List.filter_length_le. Qed.

(** A fresh reading of the page: what it returns and leaves cached. *)
Lemma extract_fresh url links t c :
  (length c <= 10)%nat ->
  let users := users_of links in
  let c1 := Map_set url (users, t) c in
  let c2 :=
    if (10 <? length c1)%nat then
      match c1 with
      | (oldestKey, _) :: _ => Map_delete oldestKey c1
      | [] => c1
      end
    else c1 in
  Map_get url c2 = Some (users, t) /\ (length c2 <= 10)%nat.
Proof.
  intros Hc users c1 c2.
  assert (H1 : Map_get url c1 = Some (users, t)) by apply Map_get_set.
  subst c2. destruct (Nat.ltb_spec 10 (length c1)) as [Hlen | Hlen];
    [| split; [exact H1 | lia]].
  destruct (Map_get url c) as [x |] eqn:Hg.
  { assert (length c1 = length c) by (by apply Map_set_length). lia. }
  subst c1. rewrite (Map_set_new _ _ _ Hg) in *.
  destruct c as [| [k0 v0] c']; [simpl in Hlen; lia |].
  cbn [Map_get] in Hg. destruct (String.eqb url k0) eqn:Hk; [discriminate |].
  change (((k0, v0) :: c') ++ [(url, (users, t))])
    with ((k0, v0) :: (c' ++ [(url, (users, t))])) in *.
  cbv beta iota. split.
  - by rewrite Map_get_delete.
  - unfold Map_delete. cbn [List.filter fst]. rewrite String.eqb_refl.
    cbn [negb]. etrans; [apply List.filter_length_le |].
    rewrite length_app. simpl in *. lia.
Qed.

(** X25. The cache of users holds at most ten pages.  If it holds at most
    ten pages before [extractUsersFromPage], it holds at most ten after,
    and the users returned are cached for the page they were read from: the
    page that was just read is never the one that is dropped. *)
Theorem userCache_bounded
    (url : string) (links : list Link) (t : Z) (c : UserCache) :
  (length c <= 10)%nat ->
  let '(users, c') := extractUsersFromPage url links t c in
  (length c' <= 10)%nat
  /\ exists timestamp, Map_get url c' = Some (users, timestamp).
Proof.
  intros Hc. unfold extractUsersFromPage.
  destruct (extract_fresh url links t c Hc) as [Hg Hl].
  cbv zeta in Hg, Hl.
  destruct (Map_get url c) as [[users ts] |] eqn:E.
  - destruct (t - ts <? 30000).
    + split; [exact Hc | by exists ts].
    + split; [exact Hl | by exists t].
  - split; [exact Hl | by exists t].
Qed.

Lemma userCache_bounded_witness :
  let '(users, c') :=
    extractUsersFromPage "https://site/cards/7/users"
      [{| href := "https://site/users/12"; name_text := Some "bob";
          img_src := None |}] 0 [] in
  (length c' <= 10)%nat
  /\ exists timestamp,
       Map_get "https://site/cards/7/users" c' = Some (users, timestamp).
Proof.
  apply (userCache_bounded "https://site/cards/7/users"
           [{| href := "https://site/users/12"; name_text := Some "bob";
               img_src := None |}] 0 []).
  simpl. lia.
Defined.

(** X26. The users of a page are reused for less than thirty seconds.
    After a reading of the page, every call for the same address less than
    30000 ms later returns the users read then, whatever the page shows by
    then; a call 30000 ms later or more reads the page again. *)
Theorem extractUsers_reused
    (url : string) (links links' : list Link) (t t' : Z) (c : UserCache) :
  (length c <= 10)%nat ->
  Map_get url c = None ->
  let '(users, c1) := extractUsersFromPage url links t c in
  users = users_of links
  /\ fst (extractUsersFromPage url links' t' c1)
     = (if t' - t <? 30000 then users else users_of links').
Proof.
  intros Hc Hg. unfold extractUsersFromPage at 1. rewrite Hg.
  destruct (extract_fresh url links t c Hc) as [Hg1 _]. cbv zeta in Hg1.
  split; [reflexivity |].
  unfold extractUsersFromPage. rewrite Hg1.
  by destruct (t' - t <? 30000).
Qed.

Lemma extractUsers_reused_witness :
  let '(users, c1) :=
    extractUsersFromPage "https://site/cards/7/users"
      [{| href := "https://site/users/12"; name_text := Some "bob";
          img_src := None |}] 0 [] in
  users = users_of [{| href := "https://site/users/12";
                       name_text := Some "bob"; img_src := None |}]
  /\ fst (extractUsersFromPage "https://site/cards/7/users" [] 30000 c1)
     = (if 30000 - 0 <? 30000 then users else users_of []).
Proof.
  apply (extractUsers_reused "https://site/cards/7/users"
           [{| href := "https://site/users/12"; name_text := Some "bob";
               img_src := None |}] [] 0 30000 []).
  - simpl. lia.
  - reflexivity.
Defined.

Lemma substring_all s : String.substring 0 (String.length s) s = s.
Proof. induction s as [| a s IH]; [done |]. simpl. by rewrite IH. Qed.

Lemma USER_ID_here_sound s id :
  USER_ID_here s = Some id ->
  id <> "" /\ all_digits id = true /\ s = "/users/" +:+ id.
Proof.
  unfold USER_ID_here.
  destruct (String.prefix "/users/" s) eqn:Hp; [| discriminate].
  assert (s = "/users/" +:+ String.substring 7 (String.length s - 7) s) as Hs.
  { repeat (destruct s as [| ? s]; [discriminate Hp |];
            cbn [String.prefix] in Hp;
            match type of Hp with
            | context [Ascii.ascii_dec ?a ?b] =>
                destruct (Ascii.ascii_dec a b) as [<- | ?];
                [| discriminate Hp]
            end).
    cbn [String.length Nat.sub String.substring].
    by rewrite Nat.sub_0_r, substring_all. }
  destruct (String.substring 7 (String.length s - 7) s) as [| a d] eqn:Ed;
    [discriminate |].
  cbn [String.eqb negb andb].
  destruct (all_digits (String a d)) eqn:Hd; [| discriminate].
  intros [= <-]. done.
Qed.

Lemma USER_ID_match_sound s id :
  USER_ID_match s = Some id ->
  id <> "" /\ all_digits id = true
  /\ exists before, s = before +:+ "/users/" +:+ id.
Proof.
  induction s as [| a s IH]; cbn [USER_ID_match].
  - destruct (USER_ID_here "") eqn:E; [| discriminate].
    intros [= ->]. apply USER_ID_here_sound in E as (? & ? & ?).
    split; [done |]. split; [done |]. by exists "".
  - destruct (USER_ID_here (String a s)) eqn:E.
    + intros [= ->]. apply USER_ID_here_sound in E as (? & ? & ?).
      split; [done |]. split; [done |]. by exists "".
    + intros H. destruct (IH H) as (? & ? & before & ->).
      split; [done |]. split; [done |]. by exists (String a before).
Qed.

(** X27. Users are known by their number.  Every user that
    [extractUsersFromPage] reads from the page comes from a link whose
    address ends in [/users/] followed by digits; its [user_id] is that
    non-empty run of digits, and its name and image are those of the link,
    the empty string where the link has none. *)
Theorem users_of_ids (links : list Link) (user : JsVal) :
  In user (users_of links) ->
  exists link id before,
    In link links
    /\ user = JObj [("user_id", JStr id);
                    ("username", JStr (default "" (name_text link)));
                    ("image", JStr (default "" (img_src link)))]
    /\ id <> "" /\ all_digits id = true
    /\ href link = before +:+ "/users/" +:+ id.
Proof.
  intros Hin. apply list_elem_of_In in Hin.
  unfold users_of in Hin. apply list_elem_of_omap in Hin.
  destruct Hin as (link & Hl & Hu). apply list_elem_of_In in Hl.
  unfold user_of in Hu.
  destruct (USER_ID_match (href link)) as [id |] eqn:E; [| discriminate].
  injection Hu as <-.
  apply USER_ID_match_sound in E as (? & ? & before & ?).
  by exists link, id, before.
Qed.

Lemma users_of_ids_witness :
  exists link id before,
    In link [{| href := "https://site/users/12"; name_text := Some "bob";
                img_src := None |}]
    /\ JObj [("user_id", JStr "12"); ("username", JStr "bob");
             ("image", JStr "")]
       = JObj [("user_id", JStr id);
               ("username", JStr (default "" (name_text link)));
               ("image", JStr (default "" (img_src link)))]
    /\ id <> "" /\ all_digits id = true
    /\ href link = before +:+ "/users/" +:+ id.
Proof.
  apply (users_of_ids
           [{| href := "https://site/users/12"; name_text := Some "bob";
               img_src := None |}]
           (JObj [("user_id", JStr "12"); ("username", JStr "bob");
                  ("image", JStr "")])).
  vm_compute. by left.
Defined.

End Users.


(** * Waiting for the page *)

Lemma check_runs present selector timeout fuel : forall k,
  (k < Wait.checks timeout)%nat ->
  (Wait.checks timeout - k <= fuel)%nat ->
  Wait.check fuel present selector timeout k (50 * Z.of_nat k)
  = Some (match List.find present (seq k (Wait.checks timeout - k)) with
          | Some i => Ok i
          | None => Throw ("Timeout waiting for " +:+ selector)
          end).
Proof.
  induction fuel as [| fuel IH]; intros k Hk Hf; [lia |].
  cbn [Wait.check].
  destruct (Wait.checks timeout - k)%nat as [| m] eqn:Em; [lia |].
  cbn [seq List.find].
  destruct (present k); [reflexivity |].
  rewrite Z.geb_leb.
  assert (Hq : (timeout <= 50 * Z.of_nat k + 50)
               <-> (S k >= Wait.checks timeout)%nat).
  { unfold Wait.checks in *.
    pose proof (Z.div_mod (timeout + 49) 50 ltac:(lia)) as Hd.
    pose proof (Z.mod_pos_bound (timeout + 49) 50 ltac:(lia)) as Hm.
    lia. }
  destruct (Z.leb_spec timeout (50 * Z.of_nat k + 50)) as [Hle | Hgt].
  - assert (m = 0)%nat as -> by lia. reflexivity.
  - replace (50 * Z.of_nat k + 50) with (50 * Z.of_nat (S k)) by lia.
    rewrite IH by lia.
    by replace (Wait.checks timeout - S k)%nat with m by lia.
Qed.

(** X28. [waitForElement] gives up after a bounded number of checks.  It
    resolves at the first check that finds the element, and rejects when
    none of the first [ceil (timeout / 50)] checks does (one check when the
    timeout is not positive): two hundred checks for the timeout of ten
    seconds, the last one 50 ms of timer time before the timeout. *)
Theorem waitForElement_checks
    (present : nat -> bool) (selector : string) (timeout : Z) (fuel : nat) :
  (Wait.checks timeout <= fuel)%nat ->
  Wait.waitForElement fuel present selector timeout
  = Some (match List.find present (seq 0 (Wait.checks timeout)) with
          | Some i => Ok i
          | None => Throw ("Timeout waiting for " +:+ selector)
          end)
  /\ Wait.checks 10000 = 200%nat.
Proof.
  intros Hf. split; [| reflexivity].
  unfold Wait.waitForElement.
  pose proof (check_runs present selector timeout fuel 0%nat) as H.
  rewrite Nat.sub_0_r in H. apply H; [| exact Hf].
  unfold Wait.checks. lia.
Qed.

Lemma waitForElement_checks_witness :
  Wait.waitForElement 200 (fun k => (3 <=? k)%nat) ".card-show__owners" 10000
  = Some (match List.find (fun k => (3 <=? k)%nat)
                  (seq 0 (Wait.checks 10000)) with
          | Some i => Ok i
          | None => Throw ("Timeout waiting for " +:+ ".card-show__owners")
          end)
  /\ Wait.checks 10000 = 200%nat.
Proof.
  apply (waitForElement_checks (fun k => (3 <=? k)%nat)
           ".card-show__owners" 10000 200).
  change (200 <= 200)%nat. lia.
Defined.


(** * The pagination of the page is given back *)

Section Restore.
Import PaginationState.

Lemma updates_keep_original serialize html calls st :
  html <> "" ->
  originalPaginationHtml st = Some html ->
  is_Some (paginationEl st) ->
  let st' := updates serialize calls st in
  originalPaginationHtml st' = Some html
  /\ is_Some (paginationEl st')
  /\ (calls <> [] -> isCustomPagination st' = true).
Proof.
  intros Hh. revert st. induction calls as [| [c t] calls IH];
    intros st Ho [el Hel]; cbn [updates fold_left].
  - split; [done |]. split; [by exists el | done].
  - set (st1 := updatePaginationForCategory serialize c t st).
    assert (H1 : originalPaginationHtml st1 = Some html
                 /\ is_Some (paginationEl st1)
                 /\ isCustomPagination st1 = true).
    { subst st1. unfold updatePaginationForCategory, saveOriginalPagination,
        saved. rewrite Hel, Ho. apply String.eqb_neq in Hh. rewrite Hh.
      simpl. split; [done |]. split; [by eexists | done]. }
    destruct H1 as (Ho1 & He1 & Hc1).
    destruct (IH st1 Ho1 He1) as (Ho2 & He2 & Hc2).
    split; [exact Ho2 |]. split; [exact He2 |]. intros _.
    destruct calls as [| call calls']; [exact Hc1 | by apply Hc2].
Qed.

(** X29. The pagination of the page is given back.  On a page whose
    pagination is not empty, after any number of calls of
    [updatePaginationForCategory], [restoreOriginalPagination] puts back
    the HTML that the page had before the first call, with none of the
    listeners of the custom buttons; the HTML of a custom pagination is
    never taken for the original. *)
Theorem pagination_restored
    (serialize : list PaginationManager.Item -> string) (html : string)
    (calls : list (Z * Z)) :
  html <> "" ->
  paginationEl
    (restoreOriginalPagination (updates serialize calls (on_page html)))
  = Some {| innerHTML := html; listeners := [] |}.
Proof.
  intros Hh. destruct calls as [| [c t] calls]; [reflexivity |].
  cbn [updates fold_left fst snd].
  set (st1 := updatePaginationForCategory serialize c t (on_page html)).
  destruct (updates_keep_original serialize html calls st1 Hh)
    as (Ho & [el He] & _).
  { subst st1. unfold updatePaginationForCategory, saveOriginalPagination.
    reflexivity. }
  { subst st1. by eexists. }
  assert (Hc : isCustomPagination (updates serialize calls st1) = true).
  { destruct calls as [| call calls'].
    - reflexivity.
    - by apply (updates_keep_original serialize html (call :: calls') st1 Hh);
        [reflexivity | by eexists |]. }
  fold (updates serialize calls st1).
  unfold restoreOriginalPagination, saved. rewrite He, Ho, Hc.
  apply String.eqb_neq in Hh. by rewrite Hh.
Qed.

Lemma pagination_restored_witness :
  paginationEl
    (restoreOriginalPagination
       (updates (fun items => "<li>custom</li>") [(0, 12); (5, 12)]
          (on_page "<li>1</li><li>2</li>")))
  = Some {| innerHTML := "<li>1</li><li>2</li>"; listeners := [] |}.
Proof.
  apply (pagination_restored (fun items => "<li>custom</li>")
           "<li>1</li><li>2</li>" [(0, 12); (5, 12)]).
  discriminate.
Defined.

End Restore.

(** * The request that carries the cookies *)

(** The record of cookies collected anew: the required cookies of the jar
    that have a value, then those with the [remember_web] prefix. *)
Lemma getAllRelevantCookies_fresh env w :
  truthy (fst (Cache.get (now w) "required_cookies" (cache w))) = false ->
  truthy (fst (Cache.get (now w) "remember_cookies" (cache w))) = false ->
  exists w',
    CookieManager.getAllRelevantCookies env w
    = (Ok (JObj
             (spread
                (fold_left
                   (fun result name =>
                      match CookieManager.cookies_get env name with
                      | Some value =>
                          if truthy (JStr value)
                          then obj_set name (JStr value) result
                          else result
                      | None => result
                      end) CONFIG.REQUIRED_COOKIES [])
                (fold_left
                   (fun acc cookie =>
                      obj_set (fst cookie) (JStr (snd cookie)) acc)
                   (List.filter
                      (fun cookie =>
                         String.prefix CONFIG.REMEMBER_WEB_PREFIX (fst cookie))
                      (env_cookies env)) []))), w').
Proof.
  intros H1 H2.
  unfold CookieManager.getAllRelevantCookies,
    CookieManager.getRequiredCookies.
  unfold bind at 1 2. unfold Cache_get at 1.
  destruct (Cache.get (now w) "required_cookies" (cache w)) as [v1 d1] eqn:E1.
  cbn [fst] in H1. rewrite H1.
  unfold bind at 1, Cache_set at 1, modify. cbn [ret].
  unfold CookieManager.getRememberWebCookies.
  unfold bind at 1 2. unfold Cache_get at 1. cbn [now cache with_cache].
  unfold Cache.set.
  match goal with
  | |- context [Cache.get (now w) "remember_cookies" (<[?k := ?x]> d1)] =>
      pose proof (Cache_get_other (now w) "remember_cookies" k x (cache w)
                    ltac:(done)) as Ho;
      rewrite E1 in Ho; cbn [snd] in Ho;
      destruct (Cache.get (now w) "remember_cookies" (<[k := x]> d1))
        as [v2 d2] eqn:E2
  end.
  cbn [fst] in Ho. subst v2. rewrite H2.
  unfold bind, Cache_set, modify. cbn [ret own_fields].
  by eexists.
Qed.

(** C7.  An attempt collects the relevant cookies after the health check.
    Its only requests are health checks and the one that sends exactly
    these cookies and the csrf token to [/set_http_data]; a successful
    attempt has sent them.  When the collected cookie record is empty, the
    attempt returns [success: false] with an error and no request to
    [/set_http_data] is made.  When the health check answers [healthy] and
    the record is not empty, the request is made: it is the last request
    of the attempt, right after the cookies were collected.  The record
    collected anew holds every required cookie of the jar that has a value,
    with that value. *)
Theorem executeAuth_sends_cookies (env : Env) (user csrf : JsVal) (w : World) :
  let w1 := snd (AuthManager.getAuthMeta w) in
  let w2 := snd (ApiClient.checkHealth env w1) in
  exists health cookies w3 res w',
    fst (ApiClient.checkHealth env w1) = Ok health
    /\ CookieManager.getAllRelevantCookies env w2 = (Ok (JObj cookies), w3)
    /\ AuthManager._executeAuth env user csrf w = (Ok (JObj res), w')
    /\ let sent := ("/set_http_data",
                    JObj [("cookie", JObj cookies); ("csrf_token", csrf)]) in
       requests_within (fun r => r = ("/health", JUndef) \/ r = sent) w w'
       /\ (assoc "success" res = Some (JBool true) ->
           exists rs, requests w' = requests w ++ rs /\ In sent rs)
       /\ (Object_keys cookies = [] ->
           assoc "success" res = Some (JBool false)
           /\ (exists e, assoc "error" res = Some (JStr e))
           /\ requests_within (fun r => fst r <> "/set_http_data") w w')
       /\ (assoc "status" (own_fields health) = Some (JStr "healthy") ->
           Object_keys cookies <> [] ->
           requests w' = requests w3 ++ [sent])
       /\ (truthy (fst (Cache.get (now w2) "required_cookies" (cache w2)))
           = false ->
           truthy (fst (Cache.get (now w2) "remember_cookies" (cache w2)))
           = false ->
           forall name value,
             In name CONFIG.REQUIRED_COOKIES ->
             CookieManager.cookies_get env name = Some value ->
             value <> "" ->
             assoc name cookies = Some (JStr value)).
Proof.
  intros w1 w2.
  destruct (nothrow_run _ w nothrow_getAuthMeta) as (meta & w1' & E1).
  assert (w1 = w1') as -> by (subst w1; by rewrite E1).
  destruct (nothrow_run _ w1' (nothrow_checkHealth env)) as (hc & w2' & E2).
  assert (w2 = w2') as -> by (subst w2; by rewrite E2).
  destruct (getAllRelevantCookies_object env w2') as (cookies & w3 & E3).
  assert (forall P, requests_within P w w1') as H01.
  { intros P.
    pose proof (frame_getAuthMeta (requests_within P) _ _ _ _
                  (requests_within_framed P) I w) as H.
    by rewrite E1 in H. }
  destruct (executeAuth_try_requests env user csrf (now w) w1' hc w2'
              cookies w3 E2 E3) as (r & w4 & Et & Hall & Hok & Hnone).
  destruct (executeAuth_try_cases env user csrf (now w) w1' hc w2'
              cookies w3 E2 E3) as (r' & w4' & Et' & Hcases).
  rewrite Et in Et'. injection Et' as <- <-.
  assert (Hjar :
    truthy (fst (Cache.get (now w2') "required_cookies" (cache w2'))) = false ->
    truthy (fst (Cache.get (now w2') "remember_cookies" (cache w2'))) = false ->
    forall name value,
      In name CONFIG.REQUIRED_COOKIES ->
      CookieManager.cookies_get env name = Some value ->
      value <> "" ->
      assoc name cookies = Some (JStr value)).
  { intros M1 M2 name value Hin Hg Hv.
    destruct (getAllRelevantCookies_fresh env w2' M1 M2) as [w3' Ef].
    rewrite E3 in Ef.
    match type of Ef with
    | _ = (Ok (JObj ?x), _) =>
        assert (cookies = x) as -> by congruence
    end.
    rewrite remember_keys.
    - by apply required_collected.
    - intros c Hc. by apply List.filter_In in Hc as [_ Hc].
    - cbn [In CONFIG.REQUIRED_COOKIES] in Hin.
      destruct Hin as [<- | [<- | [<- | [<- | []]]]]; reflexivity. }
  assert (Hsent : forall w',
    requests w' = requests w4 ->
    assoc "status" (own_fields hc) = Some (JStr "healthy") ->
    Object_keys cookies <> [] ->
    requests w'
    = requests w3
      ++ [("/set_http_data",
           JObj [("cookie", JObj cookies); ("csrf_token", csrf)])]).
  { intros w' Hw' Hh Hne. rewrite Hw'.
    destruct Hcases as [(_ & _ & [Hn | Hn]) | [Hq _]]; done. }
  exists hc, cookies, w3.
  destruct r as [v|e].
  - pose proof (executeAuth_try_post (requests_within (fun _ => True))
                  _ _ _ _ (requests_within_framed _)
                  ltac:(done) ltac:(done) env user csrf (now w) w1') as Hp.
    rewrite Et in Hp. destruct Hp as ([token ->] & _).
    eexists _, w4. split; [by rewrite E2 |]. split; [exact E3|].
    split; [apply (executeAuth_returned _ _ _ _ _ _ _ _ E1 Et)|].
    split; [etrans; [apply H01 | exact Hall]|]. split; [| split; [| split]].
    + intros _. destruct (Hok _ eq_refl) as (rs & Hrs & Hin).
      destruct (H01 (fun _ => True)) as (r0 & R0 & _).
      exists (r0 ++ rs). split.
      * by rewrite Hrs, R0, app_assoc.
      * apply in_or_app. by right.
    + intros Hnil. destruct (Hnone Hnil) as [[e He] _]. discriminate He.
    + by apply Hsent.
    + exact Hjar.
  - destruct (executeAuth_caught _ _ _ _ _ _ _ _ E1 Et)
      as (d & w' & Ex & Hreq).
    eexists _, w'. split; [by rewrite E2 |]. split; [exact E3|].
    split; [exact Ex|].
    assert (forall P, requests_within P w w4 -> requests_within P w w') as Hw'.
    { intros P [rs [Hrs HP]]. exists rs. by rewrite Hreq. }
    split; [apply Hw'; etrans; [apply H01 | exact Hall]|].
    split; [discriminate|]. split; [| split].
    + intros Hnil. split; [reflexivity|]. split; [by exists e|].
      apply Hw'. etrans; [apply H01|]. by apply Hnone.
    + by apply Hsent.
    + exact Hjar.
Qed.

Lemma executeAuth_sends_cookies_witness :
  (exists res w',
     AuthManager._executeAuth healthy_api (JStr "bob") (JStr "x1")
       (initial_world 100) = (Ok (JObj res), w')
     /\ requests w'
        = [("/health", JUndef);
           ("/set_http_data",
            JObj [("cookie", JObj [("theme", JStr "dark");
                                   ("mangabuff_session", JStr "s1")]);
                  ("csrf_token", JStr "x1")])])
  /\ (exists res w',
        AuthManager._executeAuth no_cookies (JStr "bob") (JStr "x1")
          (initial_world 100) = (Ok (JObj res), w')
        /\ assoc "success" res = Some (JBool false)
        /\ (exists e, assoc "error" res = Some (JStr e))
        /\ requests_within (fun r => fst r <> "/set_http_data")
             (initial_world 100) w').
Proof.
  split.
  - destruct (executeAuth_sends_cookies healthy_api (JStr "bob") (JStr "x1")
                (initial_world 100))
      as (health & cookies & w3 & res & w' & E2 & E3 & Ex & _ & _ & _
          & Hsent & _).
    vm_compute in E2. injection E2 as <-.
    vm_compute in E3. injection E3 as <- <-.
    exists res, w'. split; [exact Ex |].
    rewrite Hsent; [reflexivity | reflexivity | discriminate].
  - destruct (executeAuth_sends_cookies no_cookies (JStr "bob") (JStr "x1")
                (initial_world 100))
      as (health & cookies & w3 & res & w' & _ & E3 & Ex & _ & _ & Hnone & _).
    vm_compute in E3. injection E3 as <- _.
    exists res, w'. split; [exact Ex|]. by apply Hnone.
Defined.

(** * The token of a successful authentication *)




(** * Handlers in flight together *)

(** ** A task run alone is the call run to completion *)

Lemma Task_induction {A} (P : Task A -> Prop) :
  (forall r, P (Done r)) ->
  (forall b, (forall w, P (fst (b w))) -> P (Block b)) ->
  forall t, P t.
Proof.
  intros HD HB. fix IH 1. intros [r|b].
  - apply HD.
  - apply HB. intros w. apply IH.
Qed.

Lemma atomic_run1 {A} (t : Task A) w :
  (let '(t', w') := run1 t w in atomic t' w') = atomic t w.
Proof. by destruct t. Qed.

Lemma atomic_tbind {A B} (t : Task A) (k : A -> Task B) w :
  atomic (tbind t k) w = bind (atomic t) (fun a => atomic (k a)) w.
Proof.
  revert w. induction t as [[a|e]|b IH] using Task_induction;
    intros w; try reflexivity.
  cbn [tbind atomic]. unfold bind. cbn [atomic].
  specialize (IH w). destruct (b w) as [t' w'] eqn:E. apply (IH w').
Qed.

Lemma atomic_ttry {A} (t : Task A) (h : string -> Task A) w :
  atomic (ttry t h) w = try_catch (atomic t) (fun e => atomic (h e)) w.
Proof.
  revert w. induction t as [[a|e]|b IH] using Task_induction;
    intros w; try reflexivity.
  cbn [ttry atomic]. unfold try_catch. cbn [atomic].
  specialize (IH w). destruct (b w) as [t' w'] eqn:E. apply (IH w').
Qed.

Lemma atomic_sync {X A} (m : M X) (k : X -> Task A) w :
  atomic (sync m k) w = bind m (fun x => atomic (k x)) w.
Proof.
  unfold sync, bind. cbn [atomic].
  destruct (m w) as [[x|e] w1]; [apply atomic_run1 | reflexivity].
Qed.

Lemma atomic_lift {A} (m : M A) w : atomic (lift m) w = m w.
Proof. unfold lift. cbn [atomic]. by destruct (m w). Qed.

Lemma interleave_alone {A} (t : Task A) n w :
  interleave (fun _ w => w) n t w = atomic t w.
Proof.
  revert n w. induction t as [r|b IH] using Task_induction;
    intros n w; [reflexivity|].
  cbn [interleave atomic]. specialize (IH w).
  destruct (b w) as [t' w']. apply IH.
Qed.

Lemma atomic_get key w : atomic (Async.get key) w = StorageManager.get key w.
Proof.
  unfold Async.get, StorageManager.get. cbn [atomic].
  by destruct (sm_cache w !! key).
Qed.

Lemma atomic_getToken w : atomic Async.getToken w = AuthManager.getToken w.
Proof.
  unfold Async.getToken, AuthManager.getToken.
  rewrite atomic_tbind. unfold bind. rewrite atomic_get.
  by destruct (StorageManager.get CONFIG.TOKEN w) as [[v|e] w1].
Qed.

Lemma atomic_getAuthMeta w :
  atomic Async.getAuthMeta w = AuthManager.getAuthMeta w.
Proof.
  unfold Async.getAuthMeta, AuthManager.getAuthMeta.
  rewrite atomic_tbind. unfold bind. rewrite atomic_get.
  by destruct (StorageManager.get CONFIG.AUTH_META w) as [[v|e] w1].
Qed.

Lemma try_catch_ext {A} (m m' : M A) (h h' : string -> M A) w :
  m w = m' w -> (forall e w1, h e w1 = h' e w1) ->
  try_catch m h w = try_catch m' h' w.
Proof.
  intros E H. unfold try_catch. rewrite E.
  destruct (m' w) as [[a|e] w1]; [done | apply H].
Qed.

Lemma atomic_handleAuthRequest env authData w :
  atomic (Async.handleAuthRequest env authData) w
  = AuthManager.handleAuthRequest env authData w.
Proof.
  unfold Async.handleAuthRequest, AuthManager.handleAuthRequest.
  rewrite atomic_ttry. apply try_catch_ext; [|reflexivity].
  rewrite atomic_sync. unfold bind.
  destruct (prop authData "currentUser" w) as [[user|e] w1]; [|reflexivity].
  destruct (prop authData "csrfToken" w1) as [[csrf|e] w2]; [|reflexivity].
  cbn [ret].
  destruct (negb (truthy user) || negb (truthy csrf)); [reflexivity|].
  rewrite atomic_tbind. unfold bind. rewrite atomic_getToken.
  destruct (AuthManager.getToken w2) as [[token|e] w3]; [|reflexivity].
  rewrite atomic_tbind. unfold bind. rewrite atomic_getAuthMeta.
  destruct (AuthManager.getAuthMeta w3) as [[meta|e] w4]; [|reflexivity].
  rewrite atomic_sync. unfold bind.
  destruct (Date_now w4) as [[t|e] w5]; [|reflexivity].
  destruct (negb (shouldAuth (shouldPerformAuth t token meta user csrf)));
    [reflexivity|].
  rewrite atomic_tbind. unfold bind. rewrite atomic_lift.
  by destruct (AuthManager.performAuthentication env authData w5)
    as [[r|e] w6].
Qed.

Lemma atomic_forceReauth env authData w :
  atomic (Async.forceReauth env authData) w
  = AuthManager.forceReauth env authData w.
Proof.
  unfold Async.forceReauth, AuthManager.forceReauth, Async.setAuthMeta,
    Async.set, AuthManager.setAuthMeta.
  rewrite atomic_tbind. unfold bind. rewrite atomic_lift.
  destruct (StorageManager.set _ _ w) as [[[]|e] w1]; [|reflexivity].
  rewrite atomic_sync. unfold bind.
  destruct (Cache_clear w1) as [[[]|e] w2]; [|reflexivity].
  destruct (StorageManager.invalidate CONFIG.TOKEN w2) as [[[]|e] w3];
    [|reflexivity].
  apply atomic_handleAuthRequest.
Qed.

Lemma atomic_respond v w :
  atomic (Async.respond v) w = (Ok v, snd (sendResponse v w)).
Proof. reflexivity. Qed.

Lemma atomic_CLEAR_TOKEN env msg w :
  snd (atomic (Async.CLEAR_TOKEN env msg) w)
  = snd (MessageHandlers.CLEAR_TOKEN env msg w).
Proof. reflexivity. Qed.

Lemma atomic_GET_TOKEN env msg w :
  snd (atomic (Async.GET_TOKEN env msg) w)
  = snd (MessageHandlers.GET_TOKEN env msg w).
Proof.
  unfold Async.GET_TOKEN, MessageHandlers.GET_TOKEN.
  rewrite atomic_ttry. unfold try_catch. rewrite atomic_tbind. unfold bind.
  rewrite atomic_getToken.
  by destruct (AuthManager.getToken w) as [[token|e] w1].
Qed.

Lemma atomic_FORCE_REAUTH env msg w :
  snd (atomic (Async.FORCE_REAUTH env msg) w)
  = snd (MessageHandlers.FORCE_REAUTH env msg w).
Proof.
  unfold Async.FORCE_REAUTH, MessageHandlers.FORCE_REAUTH.
  rewrite atomic_ttry. unfold try_catch. rewrite atomic_tbind. unfold bind.
  rewrite atomic_forceReauth.
  by destruct (AuthManager.forceReauth env (msg_data msg) w)
    as [[result|e] w1].
Qed.

(** ** The store read while other handlers run *)

Lemma leaves_key_alone key : leaves_key key (fun _ w => w).
Proof. by intros n w. Qed.

Lemma get_interleaved others key n w :
  leaves_key key others ->
  (forall v, sm_cache w !! key = Some v ->
             v = StorageManager.read key (storage w)) ->
  exists w',
    interleave others n (Async.get key) w
    = (Ok (StorageManager.read key (storage w)), w')
    /\ storage w' !! key = storage w !! key
    /\ sm_cache w' !! key = Some (StorageManager.read key (storage w)).
Proof.
  intros Ho Hc. unfold Async.get. cbn [interleave].
  destruct (sm_cache w !! key) as [v|] eqn:E.
  - destruct (Ho n w) as [Hs Hk]. rewrite <- (Hc v eq_refl).
    eexists. split; [reflexivity|]. split; [exact Hs | by rewrite Hk].
  - cbn [interleave].
    destruct (Ho n w) as [Hs Hk].
    match goal with
    | |- context [others (S n) ?w2] =>
        destruct (Ho (S n) w2) as [Hs' Hk']
    end.
    eexists. split; [reflexivity|].
    split; [by rewrite Hs' | rewrite Hk'; apply lookup_insert_eq].
Qed.

(** A value cached by an earlier read is served whatever the store holds
    by now. *)
Lemma get_cached others key n v w :
  leaves_key key others ->
  sm_cache w !! key = Some v ->
  exists w',
    interleave others n (Async.get key) w = (Ok v, w')
    /\ storage w' !! key = storage w !! key
    /\ sm_cache w' !! key = Some v.
Proof.
  intros Ho E. unfold Async.get. cbn [interleave]. rewrite E.
  destruct (Ho n w) as [Hs Hk].
  eexists. split; [reflexivity|]. split; [exact Hs | by rewrite Hk].
Qed.

(** X1.  [StorageManager.get] while other handlers run.  When the other
    handlers leave alone what is stored and cached under the key, and the
    cache, if it has the key, agrees with [chrome.storage.local], the read
    gives what the store holds ([null] for a missing or falsy value),
    leaves it as it is and has it cached afterwards.  But a
    [StorageManager.remove] of the key that runs between the read of
    [chrome.storage.local] and its callback is undone in the cache: the
    read gives the removed value and caches it, the store holds nothing,
    and every later read still gives the removed value. *)
Theorem StorageManager_get_interleaved
    (others : nat -> World -> World) (key : string) (x : StoreVal)
    (w : World) :
  leaves_key key others ->
  ((forall v, sm_cache w !! key = Some v ->
              v = StorageManager.read key (storage w)) ->
   exists w',
     interleave others 0 (Async.get key) w
     = (Ok (StorageManager.read key (storage w)), w')
     /\ storage w' !! key = storage w !! key
     /\ sm_cache w' !! key = Some (StorageManager.read key (storage w)))
  /\ (sm_cache w !! key = None ->
      storage w !! key = Some x ->
      truthy (js_of_store x) = true ->
      exists w',
        interleave (first_gap (turn (Async.remove key))) 0 (Async.get key) w
        = (Ok (Some x), w')
        /\ storage w' !! key = None
        /\ sm_cache w' !! key = Some (Some x)
        /\ exists w'',
             interleave others 0 (Async.get key) w' = (Ok (Some x), w'')
             /\ storage w'' !! key = None).
Proof.
  intros Ho. split; [by apply get_interleaved|].
  intros Ec Es Tx.
  unfold Async.get at 1. cbn [interleave]. rewrite Ec.
  cbn [interleave first_gap].
  unfold StorageManager.read. rewrite Es, Tx.
  eexists. split; [reflexivity|].
  assert (Hs : forall m,
            storage (turn (Async.remove key) m) !! key = None).
  { intros m. unfold turn, Async.remove, lift. cbn [run1 snd].
    unfold StorageManager.remove, modify. cbn [snd storage with_storage].
    apply lookup_delete_eq. }
  split; [apply Hs|].
  split; [cbn [sm_cache with_sm_cache]; apply lookup_insert_eq|].
  match goal with
  | |- context [interleave others 0 (Async.get key) ?w1] =>
      destruct (get_cached others key 0%nat (Some x) w1 Ho) as (w2 & E & S2 & _)
  end.
  { cbn [sm_cache with_sm_cache]. apply lookup_insert_eq. }
  exists w2. split; [exact E|]. rewrite S2. apply Hs.
Qed.

Lemma StorageManager_get_interleaved_witness :
  (exists w',
     interleave (fun _ w => w) 0 (Async.get CONFIG.TOKEN)
       (world_with_token (JStr "tok"))
     = (Ok (Some (SJs (JStr "tok"))), w')
     /\ sm_cache w' !! CONFIG.TOKEN = Some (Some (SJs (JStr "tok"))))
  /\ exists w',
       interleave (first_gap (turn (Async.remove CONFIG.TOKEN))) 0
         (Async.get CONFIG.TOKEN) (world_with_token (JStr "tok"))
       = (Ok (Some (SJs (JStr "tok"))), w')
       /\ storage w' !! CONFIG.TOKEN = None
       /\ sm_cache w' !! CONFIG.TOKEN = Some (Some (SJs (JStr "tok")))
       /\ exists w'',
            interleave (fun _ w => w) 0 (Async.get CONFIG.TOKEN) w'
            = (Ok (Some (SJs (JStr "tok"))), w'')
            /\ storage w'' !! CONFIG.TOKEN = None.
Proof.
  destruct (StorageManager_get_interleaved (fun _ w => w) CONFIG.TOKEN
              (SJs (JStr "tok")) (world_with_token (JStr "tok")))
    as [A B].
  - intros n w. split; reflexivity.
  - split.
    + destruct A as (w' & E & _ & C); [intros v Hv; discriminate Hv|].
      exists w'. split; [exact E | exact C].
    + apply B; reflexivity.
Defined.

(** ** The token forgotten while other handlers run *)

Lemma stores_no_token_alone : stores_no_token (fun _ w => w).
Proof. by intros n w. Qed.

Lemma read_absent w :
  storage w !! CONFIG.TOKEN = None ->
  StorageManager.read CONFIG.TOKEN (storage w) = None.
Proof. intros E. unfold StorageManager.read. by rewrite E. Qed.

Lemma getToken_absent others n w :
  stores_no_token others -> token_absent w ->
  exists w',
    interleave others n Async.getToken w = (Ok JNull, w')
    /\ token_absent w'.
Proof.
  intros Ho [Hs Hc]. unfold Async.getToken, Async.get.
  cbn [tbind interleave].
  destruct Hc as [Hc|Hc]; rewrite Hc; cbn [tbind interleave].
  - rewrite (read_absent w Hs).
    pose proof (Ho n w (conj Hs (or_introl Hc))) as H1.
    destruct (sm_cache (others n w) !! CONFIG.TOKEN) eqn:E1.
    all: eexists; split; [reflexivity|].
    all: apply Ho; destruct H1 as [Hs1 _]; split; [exact Hs1|].
    all: right; cbn [sm_cache with_sm_cache]; apply lookup_insert_eq.
  - eexists. split; [reflexivity|]. apply Ho. split; [exact Hs | by right].
Qed.

Lemma remove_token_absent w :
  token_absent (snd (StorageManager.remove CONFIG.TOKEN w)).
Proof.
  unfold StorageManager.remove, modify. cbn [snd].
  split; [apply lookup_delete_eq | left; apply lookup_delete_eq].
Qed.

Lemma token_absent_response v w :
  token_absent w -> token_absent (with_response v w).
Proof. intros H. exact H. Qed.

Lemma CLEAR_TOKEN_interleaved env others msg n w :
  stores_no_token others ->
  exists w',
    interleave others n (Async.CLEAR_TOKEN env msg) w
    = (Ok (JObj [("success", JBool true)]), w')
    /\ token_absent w'.
Proof.
  intros Ho. unfold Async.CLEAR_TOKEN, Async.remove, Async.respond, lift.
  cbn [tbind interleave].
  unfold StorageManager.remove at 1, modify. cbn [tbind interleave].
  eexists. split; [reflexivity|].
  apply Ho, token_absent_response, Ho, (remove_token_absent w).
Qed.

Lemma GET_TOKEN_absent env others msg n w :
  stores_no_token others -> token_absent w ->
  exists w',
    interleave others n (Async.GET_TOKEN env msg) w
    = (Ok (JObj [("token", JNull)]), w')
    /\ token_absent w'.
Proof.
  intros Ho [Hs Hc]. unfold Async.GET_TOKEN, Async.getToken, Async.get,
    Async.respond.
  cbn [tbind ttry interleave].
  destruct Hc as [Hc|Hc]; rewrite Hc; cbn [tbind ttry interleave].
  - rewrite (read_absent w Hs).
    pose proof (Ho n w (conj Hs (or_introl Hc))) as H1.
    eexists. split; [reflexivity|].
    apply Ho, token_absent_response, Ho.
    destruct H1 as [Hs1 _]. split; [exact Hs1|].
    right. cbn [sm_cache with_sm_cache]. apply lookup_insert_eq.
  - eexists. split; [reflexivity|].
    apply Ho, token_absent_response, Ho. split; [exact Hs | by right].
Qed.

(** X8.  [CLEAR_TOKEN] while other handlers run.  When the other handlers
    neither store nor cache a token, [CLEAR_TOKEN] answers
    [{ success: true }] and leaves no token, stored or cached; a
    [GET_TOKEN] that follows answers [{ token: null }], and the next
    authentication decision is [no_token]: authenticate.  But when a read
    of the token is in flight, sent to [chrome.storage.local] and not yet
    called back, its callback puts the token back into the cache:
    [CLEAR_TOKEN] answers [{ success: true }], the store holds no token,
    and [GET_TOKEN] still answers with the removed token. *)
Theorem CLEAR_TOKEN_forgets
    (env : Env) (others later : nat -> World -> World) (msg msg' : Message)
    (tok : JsVal) (w : World) :
  stores_no_token others ->
  (exists w1,
     interleave others 0 (Async.CLEAR_TOKEN env msg) w
     = (Ok (JObj [("success", JBool true)]), w1)
     /\ token_absent w1
     /\ (exists w2,
           interleave others 0 (Async.GET_TOKEN env msg') w1
           = (Ok (JObj [("token", JNull)]), w2)
           /\ token_absent w2)
     /\ exists token w2,
          interleave others 0 Async.getToken w1 = (Ok token, w2)
          /\ forall t meta user csrf,
               shouldPerformAuth t token meta user csrf
               = {| shouldAuth := true; reason := no_token |})
  /\ (sm_cache w !! CONFIG.TOKEN = None ->
      storage w !! CONFIG.TOKEN = Some (SJs tok) ->
      truthy tok = true ->
      leaves_key CONFIG.TOKEN later ->
      let reading := fst (run1 (Async.get CONFIG.TOKEN) w) in
      exists w1,
        interleave (first_gap (turn reading)) 0 (Async.CLEAR_TOKEN env msg) w
        = (Ok (JObj [("success", JBool true)]), w1)
        /\ storage w1 !! CONFIG.TOKEN = None
        /\ sm_cache w1 !! CONFIG.TOKEN = Some (Some (SJs tok))
        /\ exists w2,
             interleave later 0 (Async.GET_TOKEN env msg') w1
             = (Ok (JObj [("token", tok)]), w2)
             /\ storage w2 !! CONFIG.TOKEN = None).
Proof.
  intros Ho. split.
  - destruct (CLEAR_TOKEN_interleaved env others msg 0%nat w Ho)
      as (w1 & E1 & H1).
    exists w1. split; [exact E1|]. split; [exact H1|].
    split; [by apply GET_TOKEN_absent|].
    destruct (getToken_absent others 0%nat w1 Ho H1) as (w2 & E2 & _).
    by exists JNull, w2.
  - intros Ec Es Tt Hl reading. subst reading.
    unfold Async.get at 1. cbn [run1]. rewrite Ec. cbn [fst].
    unfold StorageManager.read. rewrite Es. cbn [js_of_store]. rewrite Tt.
    unfold Async.CLEAR_TOKEN, Async.remove, Async.respond, lift.
    cbn [tbind interleave].
    unfold StorageManager.remove at 1, modify.
    cbn [tbind interleave first_gap turn run1 snd].
    match goal with
    | |- exists w1, (_, ?w0) = (_, w1) /\ _ => set (w1 := w0); exists w1
    end.
    assert (Hs1 : storage w1 !! CONFIG.TOKEN = None)
      by apply lookup_delete_eq.
    assert (Hc1 : sm_cache w1 !! CONFIG.TOKEN = Some (Some (SJs tok)))
      by apply lookup_insert_eq.
    clearbody w1.
    split; [reflexivity|]. split; [exact Hs1|]. split; [exact Hc1|].
    unfold Async.GET_TOKEN, Async.getToken, Async.get, Async.respond.
    cbn [tbind ttry interleave]. rewrite Hc1.
    cbn [tbind ttry interleave js_of_store].
    eexists. split; [reflexivity|].
    destruct (Hl 1%nat) with (w := with_response (JObj [("token", tok)])
                                (later 0%nat w1)) as [-> _].
    cbn [storage with_response].
    by destruct (Hl 0%nat w1) as [-> _].
Qed.

Lemma CLEAR_TOKEN_forgets_witness :
  (exists w1,
     interleave (fun _ w => w) 0
       (Async.CLEAR_TOKEN healthy_api (message "CLEAR_TOKEN" JUndef))
       (world_with_token (JStr "tok"))
     = (Ok (JObj [("success", JBool true)]), w1)
     /\ token_absent w1)
  /\ (exists w1,
        interleave
          (first_gap
             (turn (fst (run1 (Async.get CONFIG.TOKEN)
                           (world_with_token (JStr "tok"))))))
          0 (Async.CLEAR_TOKEN healthy_api (message "CLEAR_TOKEN" JUndef))
          (world_with_token (JStr "tok"))
        = (Ok (JObj [("success", JBool true)]), w1)
        /\ storage w1 !! CONFIG.TOKEN = None
        /\ exists w2,
             interleave (fun _ w => w) 0
               (Async.GET_TOKEN healthy_api (message "GET_TOKEN" JUndef)) w1
             = (Ok (JObj [("token", JStr "tok")]), w2)
             /\ storage w2 !! CONFIG.TOKEN = None).
Proof.
  destruct (CLEAR_TOKEN_forgets healthy_api (fun _ w => w) (fun _ w => w)
              (message "CLEAR_TOKEN" JUndef) (message "GET_TOKEN" JUndef)
              (JStr "tok") (world_with_token (JStr "tok")))
    as [(w1 & E1 & H1 & _) H2].
  - intros n w H. exact H.
  - split; [by exists w1|].
    destruct H2 as (w1' & E1' & S1 & _ & H3).
    + reflexivity.
    + reflexivity.
    + reflexivity.
    + intros n w. split; reflexivity.
    + by exists w1'.
Defined.

(** ** The message of a page without a signed-in user *)

(** [processAuthentication] sends the message of [auth_message], and
    nothing else. *)
Lemma processAuthentication_message env page c w :
  AuthContent.AuthManager.processAuthentication env page c w
  = match AuthContent.AuthManager.auth_message page (now w) c with
    | (c', Some m) =>
        (c', snd (Runtime.sendMessage env (msg_type m) (msg_data m) w))
    | (c', None) => (c', w)
    end.
Proof.
  unfold AuthContent.AuthManager.processAuthentication,
    AuthContent.AuthManager.auth_message.
  destruct (negb (AuthContent.DOMHelper.isAuthenticated page)); [done|].
  destruct (AuthContent.DOMHelper.getCsrfToken page (now w) c) as [csrf c1].
  destruct (AuthContent.DOMHelper.getCurrentUserName page (now w) c1)
    as [user c2].
  destruct (negb (truthy csrf) || negb (truthy user)); [done|].
  cbn [msg_type msg_data].
  by destruct (Runtime.sendMessage env _ _ w).
Qed.

(** X20.  A page without a signed-in user makes the extension forget its
    token.  On a page whose body has no class [isAuth], [initialize] sends
    one message, of type [CLEAR_TOKEN], and leaves the cache of the page
    values alone.  The handler that the background script starts for it
    makes no request to the API; run while other handlers run that neither
    store nor cache a token, it answers [{ success: true }] and leaves no
    token, stored or cached, and a [getToken] that follows gives [null]. *)
Theorem initialize_signed_out
    (env : Env) (others : nat -> World -> World) (page : AuthContent.Page)
    (t : Z) (c : AuthContent.DomCache) (w : World) :
  AuthContent.isAuth page = false ->
  stores_no_token others ->
  exists m task w',
    AuthContent.initialize page t c = (c, Some m)
    /\ msg_type m = JStr "CLEAR_TOKEN"
    /\ Async.onMessage env m = Some task
    /\ requests (snd (atomic task w)) = requests w
    /\ interleave others 0 task w = (Ok (JObj [("success", JBool true)]), w')
    /\ token_absent w'
    /\ exists w'',
         interleave others 0 Async.getToken w' = (Ok JNull, w'')
         /\ token_absent w''.
Proof.
  intros Hp Ho.
  unfold AuthContent.initialize, AuthContent.DOMHelper.isAuthenticated.
  rewrite Hp. cbn [negb].
  assert (Et : forall n w0,
            interleave others n
              (ttry (Async.CLEAR_TOKEN env
                       {| msg_type := JStr "CLEAR_TOKEN";
                          msg_data := JUndef |})
                 (fun message => Async.respond (failure message))) w0
            = interleave others n
                (Async.CLEAR_TOKEN env
                   {| msg_type := JStr "CLEAR_TOKEN";
                      msg_data := JUndef |}) w0) by reflexivity.
  destruct (CLEAR_TOKEN_interleaved env others
              {| msg_type := JStr "CLEAR_TOKEN"; msg_data := JUndef |}
              0%nat w Ho) as (w' & E & H).
  eexists _, _, w'. split; [reflexivity|]. split; [reflexivity|].
  split; [reflexivity|]. split; [reflexivity|].
  split; [by rewrite Et|]. split; [exact H|].
  by apply getToken_absent.
Qed.

Lemma initialize_signed_out_witness :
  exists m task w',
    AuthContent.initialize
      {| AuthContent.isAuth := false; AuthContent.csrf_meta := None;
         AuthContent.avatar_alt := None |} 0 ∅
    = (∅, Some m)
    /\ msg_type m = JStr "CLEAR_TOKEN"
    /\ Async.onMessage healthy_api m = Some task
    /\ requests (snd (atomic task (world_with_token (JStr "tok"))))
       = requests (world_with_token (JStr "tok"))
    /\ interleave (fun _ w => w) 0 task (world_with_token (JStr "tok"))
       = (Ok (JObj [("success", JBool true)]), w')
    /\ token_absent w'
    /\ exists w'',
         interleave (fun _ w => w) 0 Async.getToken w' = (Ok JNull, w'')
         /\ token_absent w''.
Proof.
  apply (initialize_signed_out healthy_api (fun _ w => w)
           {| AuthContent.isAuth := false; AuthContent.csrf_meta := None;
              AuthContent.avatar_alt := None |} 0 ∅
           (world_with_token (JStr "tok"))).
  - reflexivity.
  - intros n w H. exact H.
Defined.

(** ** A forced authentication while an authentication completes *)

Lemma interleave_quiet {A} (others : nat -> World -> World) (t : Task A) n w :
  (forall m w0, (n <= m)%nat -> others m w0 = w0) ->
  interleave others n t w = atomic t w.
Proof.
  revert n w. induction t as [r|b IH] using Task_induction;
    intros n w Ho; [reflexivity|].
  cbn [interleave atomic]. specialize (IH w).
  destruct (b w) as [t' w']. rewrite (Ho n w') by lia.
  apply IH. intros m w0 Hm. apply Ho. lia.
Qed.

(** The request of a user whose authentication has just been recorded is
    skipped, the token being read from the store. *)
Lemma handleAuthRequest_skipped env (user csrf : string) tok meta w :
  sm_cache w !! CONFIG.TOKEN = None ->
  storage w !! CONFIG.TOKEN = Some (SJs tok) ->
  sm_cache w !! CONFIG.AUTH_META = Some (Some (SMeta meta)) ->
  truthy tok = true ->
  user <> "" -> csrf <> "" ->
  lastUser meta = JStr user -> lastCsrf meta = JStr csrf ->
  failureCount meta <= 0 ->
  now w - lastTime meta <= 7200000 ->
  AuthManager.handleAuthRequest env
    (JObj [("currentUser", JStr user); ("csrfToken", JStr csrf)]) w
  = (Ok (JObj [("success", JBool true); ("shouldAuth", JBool false);
               ("reason", JStr "throttled"); ("token", tok)]),
     with_sm_cache (<[CONFIG.TOKEN := Some (SJs tok)]> (sm_cache w)) w).
Proof.
  intros Ht Hs Hm Tt Hu Hc Lu Lc Hf Hn.
  apply String.eqb_neq in Hu, Hc.
  unfold AuthManager.handleAuthRequest, try_catch.
  rewrite (bind_ok _ _ w (JStr user) w) by reflexivity.
  rewrite (bind_ok _ _ w (JStr csrf) w) by reflexivity.
  change (truthy (JStr user)) with (negb (String.eqb user "")).
  change (truthy (JStr csrf)) with (negb (String.eqb csrf "")).
  rewrite Hu, Hc. cbn [negb orb].
  set (w1 := with_sm_cache (<[CONFIG.TOKEN := Some (SJs tok)]> (sm_cache w)) w).
  rewrite (bind_ok _ _ w tok w1)
    by (unfold AuthManager.getToken, bind, StorageManager.get,
          StorageManager.read; rewrite Ht, Hs; cbn [js_of_store];
        by rewrite Tt).
  rewrite (bind_ok _ _ w1 meta w1)
    by (unfold AuthManager.getAuthMeta, bind, StorageManager.get;
        cbn [w1 sm_cache with_sm_cache];
        rewrite lookup_insert_ne by done; by rewrite Hm).
  rewrite (bind_ok _ _ w1 (now w) w1) by reflexivity.
  assert (shouldPerformAuth (now w) tok meta (JStr user) (JStr csrf)
          = {| shouldAuth := false; reason := throttled |}) as ->; [|done].
  unfold shouldPerformAuth. rewrite Tt.
  change (truthy (JStr user)) with (negb (String.eqb user "")).
  change (truthy (JStr csrf)) with (negb (String.eqb csrf "")).
  rewrite Hu, Hc. cbn [negb]. rewrite Lu, Lc. unfold strict_neq, strict_eq.
  rewrite !String.eqb_refl. cbn [negb].
  destruct (now w - lastTime meta >? CONFIG.AUTH_THROTTLE_INTERVAL) eqn:G.
  { apply Z.gtb_lt in G. unfold CONFIG.AUTH_THROTTLE_INTERVAL in G. lia. }
  destruct (failureCount meta >? 0) eqn:F; [apply Z.gtb_lt in F; lia|].
  reflexivity.
Qed.


(** What remains of [_executeAuth] is the end of its [try] block. *)
Lemma executeAuth_finish_alone user csrf startTime token w :
  atomic (Async.executeAuth_finish user csrf startTime token) w
  = (let* t := Date_now in
     let* _ := AuthManager.setAuthMeta
                 {| lastTime := t; lastUser := user; lastCsrf := csrf;
                    lastAttempt := startTime; failureCount := 0 |} in
     let* t' := Date_now in
     ret (JObj [("success", JBool true); ("token", token);
                ("duration", JNum (t' - startTime))])) w.
Proof. reflexivity. Qed.

(** Run with no other handler in between, [forceReauth] answers with the
    decision on the reset metadata: authenticate, for the reason
    [user_changed] when the store holds a token and [no_token] when it
    holds none. *)
Lemma forceReauth_alone env fs user csrf w :
  assoc "currentUser" fs = Some user ->
  assoc "csrfToken" fs = Some csrf ->
  truthy user = true -> truthy csrf = true ->
  (forall e, pendingAuthRequest w <> Some (Throw e)) ->
  exists res w',
    interleave (fun _ w => w) 0 (Async.forceReauth env (JObj fs)) w
    = (Ok (JObj res), w')
    /\ AuthManager.forceReauth env (JObj fs) w = (Ok (JObj res), w')
    /\ assoc "shouldAuth" res = Some (JBool true)
    /\ assoc "reason" res
       = Some (JStr (match StorageManager.read CONFIG.TOKEN (storage w) with
                     | Some _ => "user_changed"
                     | None => "no_token"
                     end)).
Proof.
  intros Hu Hc Tu Tc Hpend.
  rewrite interleave_alone, atomic_forceReauth.
  unfold AuthManager.forceReauth.
  erewrite bind_ok; [|reflexivity].
  erewrite bind_ok; [|reflexivity].
  erewrite bind_ok; [|reflexivity].
  match goal with
  | |- context [AuthManager.handleAuthRequest env (JObj fs) ?w0] =>
      set (w3 := w0)
  end.
  assert (Hm : sm_cache w3 !! CONFIG.AUTH_META
               = Some (Some (SMeta AuthManager.default_meta))).
  { cbn [w3 sm_cache with_sm_cache]. rewrite lookup_delete_ne by done.
    apply lookup_insert_eq. }
  assert (Ht : sm_cache w3 !! CONFIG.TOKEN = None)
    by apply lookup_delete_eq.
  assert (Hs : storage w3 !! CONFIG.TOKEN = storage w !! CONFIG.TOKEN).
  { cbn [w3 storage with_sm_cache]. by apply lookup_insert_ne. }
  assert (Hp : pendingAuthRequest w3 = pendingAuthRequest w) by reflexivity.
  clearbody w3.
  unfold AuthManager.handleAuthRequest, try_catch.
  rewrite (bind_ok _ _ w3 user w3) by (simpl; by rewrite Hu).
  rewrite (bind_ok _ _ w3 csrf w3) by (simpl; by rewrite Hc).
  rewrite Tu, Tc. cbn [negb orb].
  set (value := StorageManager.read CONFIG.TOKEN (storage w3)).
  set (token := match value with
                | Some v => js_of_store v
                | None => JNull
                end).
  set (w4 := with_sm_cache (<[CONFIG.TOKEN := value]> (sm_cache w3)) w3).
  rewrite (bind_ok _ _ w3 token w4)
    by (unfold AuthManager.getToken, bind, StorageManager.get;
        by rewrite Ht).
  erewrite (bind_ok _ _ w4 AuthManager.default_meta w4);
    [|unfold AuthManager.getAuthMeta, bind, StorageManager.get;
      cbn [w4 sm_cache with_sm_cache];
      rewrite lookup_insert_ne by done; by rewrite Hm].
  erewrite bind_ok; [|reflexivity].
  destruct (shouldPerformAuth_after_reset (now w4) token user csrf Tu Tc)
    as [Hd Hr].
  fold AuthManager.default_meta in Hd, Hr. rewrite Hd. cbn [negb].
  destruct (performAuthentication_returns env fs user csrf w4 Hu Hc)
    as (v & w5 & Ep);
    [change (pendingAuthRequest w4) with (pendingAuthRequest w3);
     by rewrite Hp|].
  rewrite (bind_ok _ _ _ _ _ Ep).
  eexists _, _. split; [reflexivity|]. split; [reflexivity|].
  unfold spread. cbn [fold_left].
  split.
  - rewrite assoc_obj_set_ne by discriminate. apply assoc_obj_set_eq.
  - rewrite assoc_obj_set_eq. f_equal. f_equal.
    subst token value. unfold shouldPerformAuth, StorageManager.read.
    rewrite Hs.
    destruct (storage w !! CONFIG.TOKEN) as [x|]; [|reflexivity].
    destruct (truthy (js_of_store x)) eqn:Tx; [|reflexivity].
    rewrite Tx, Tc, Tu. cbn [negb].
    assert (strict_neq user (lastUser AuthManager.default_meta) = true) as ->
      by (destruct user; simpl in *; done).
    reflexivity.
Qed.

(** *** Tasks that keep an invariant *)

Lemma guarantees_Block {A} I J (Q : Res A -> Prop) b :
  guarantees I J Q (Block b)
  = forall w, I w ->
      let '(t', w') := b w in
      match t' with
      | Done r => J w' /\ Q r
      | Block _ => I w' /\ guarantees I J Q t'
      end.
Proof. reflexivity. Qed.

Section Guarantees.

Context (I : World -> Prop).

Lemma interleave_guarantees {A} (J : World -> Prop) (Q : Res A -> Prop)
    others (t : Task A) n w :
  (forall n w, I w -> I (others n w)) ->
  guarantees I J Q t -> I w -> Q (fst (interleave others n t w)).
Proof.
  intros Ho. revert n w.
  induction t as [r|b IH] using Task_induction; intros n w Ht Hw;
    [exact Ht|].
  cbn [interleave]. rewrite guarantees_Block in Ht.
  specialize (Ht w Hw). specialize (IH w).
  destruct (b w) as [t' w']. cbn [fst] in IH.
  destruct t' as [r|b']; [exact (proj2 Ht)|].
  destruct Ht as [Hw' Ht]. apply IH; [exact Ht | by apply Ho].
Qed.

Lemma guarantees_tbind {A B} (J : World -> Prop) (P : Res A -> Prop)
    (Q : Res B -> Prop) (t : Task A) (k : A -> Task B) :
  (forall w, I w -> J w) ->
  guarantees I I P t ->
  (forall a, P (Ok a) -> guarantees I J Q (k a)) ->
  (forall e, P (Throw e) -> Q (Throw e)) ->
  guarantees I J Q (tbind t k).
Proof.
  intros HJ Ht Hk He. revert Ht.
  induction t as [[a|e]|b IH] using Task_induction; intros Ht.
  - apply Hk, Ht.
  - apply He, Ht.
  - change (tbind (Block b) k)
      with (Block (fun w => let '(t', w') := b w in (tbind t' k, w'))).
    rewrite guarantees_Block in Ht. rewrite guarantees_Block.
    intros w Hw. specialize (Ht w Hw). specialize (IH w).
    destruct (b w) as [t' w']. cbn [fst] in IH.
    destruct t' as [[a|e]|b'].
    + destruct Ht as [Hw' Pa]. cbn [tbind].
      specialize (Hk a Pa). destruct (k a) as [r|b''].
      * split; [by apply HJ | exact Hk].
      * split; [exact Hw' | exact Hk].
    + destruct Ht as [Hw' Pe]. cbn [tbind]. split; [by apply HJ | by apply He].
    + destruct Ht as [Hw' Ht]. split; [exact Hw'|]. apply IH, Ht.
Qed.

Lemma guarantees_ttry {A} (J : World -> Prop) (Q : Res A -> Prop)
    (t : Task A) (h : string -> Task A) :
  guarantees I J (fun r => Q r /\ exists a, r = Ok a) t ->
  guarantees I J Q (ttry t h).
Proof.
  induction t as [[a|e]|b IH] using Task_induction; intros Ht.
  - exact (proj1 Ht).
  - destruct Ht as [_ [a Ha]]. discriminate Ha.
  - change (ttry (Block b) h)
      with (Block (fun w => let '(t', w') := b w in (ttry t' h, w'))).
    rewrite guarantees_Block in Ht. rewrite guarantees_Block.
    intros w Hw. specialize (Ht w Hw). specialize (IH w).
    destruct (b w) as [t' w']. cbn [fst] in IH.
    destruct t' as [[a|e]|b'].
    + destruct Ht as [Hw' [Qa _]]. by split.
    + destruct Ht as [_ [_ [a Ha]]]. discriminate Ha.
    + destruct Ht as [Hw' Ht]. split; [exact Hw'|]. apply IH, Ht.
Qed.

Lemma guarantees_sync {X A} (J : World -> Prop) (Q : Res A -> Prop)
    (m : M X) (k : X -> Task A) :
  (forall w, I w -> J w) ->
  (forall w, I w ->
     match m w with
     | (Ok x, w1) => I w1 /\ guarantees I J Q (k x)
     | (Throw e, w1) => J w1 /\ Q (Throw e)
     end) ->
  guarantees I J Q (sync m k).
Proof.
  intros HJ Hm. unfold sync. rewrite guarantees_Block.
  intros w Hw. specialize (Hm w Hw).
  destruct (m w) as [[x|e] w1]; [|exact Hm].
  destruct Hm as [Hw1 Hk]. destruct (k x) as [r|b'].
  - split; [by apply HJ | exact Hk].
  - rewrite guarantees_Block in Hk. exact (Hk w1 Hw1).
Qed.

Lemma guarantees_get (P : (option StoreVal) -> Prop) key :
  (forall w w', I w -> sm_cache w !! key = None -> I w' ->
     I (with_sm_cache
          (<[key := StorageManager.read key (storage w)]> (sm_cache w')) w')
     /\ P (StorageManager.read key (storage w))) ->
  (forall w v, I w -> sm_cache w !! key = Some v -> P v) ->
  guarantees I I (fun r => exists v, r = Ok v /\ P v) (Async.get key).
Proof.
  intros Hmiss Hhit. unfold Async.get. rewrite guarantees_Block.
  intros w Hw. destruct (sm_cache w !! key) as [v|] eqn:E.
  - split; [exact Hw|]. exists v. split; [done|]. by apply (Hhit w).
  - split; [exact Hw|]. rewrite guarantees_Block. intros w' Hw'.
    destruct (Hmiss w w' Hw E Hw') as [Hi HP].
    split; [exact Hi|]. eexists. by split.
Qed.

End Guarantees.

(** While other handlers run that leave the cached metadata alone,
    [forceReauth] still answers with the decision to authenticate. *)
Lemma forceReauth_undisturbed env others fs user csrf w :
  assoc "currentUser" fs = Some user ->
  assoc "csrfToken" fs = Some csrf ->
  truthy user = true -> truthy csrf = true ->
  leaves_meta others ->
  (forall e, pendingAuthRequest w <> Some (Throw e)) ->
  exists res,
    fst (interleave others 0 (Async.forceReauth env (JObj fs)) w)
    = Ok (JObj res)
    /\ assoc "shouldAuth" res = Some (JBool true)
    /\ (assoc "reason" res = Some (JStr "no_token")
        \/ assoc "reason" res = Some (JStr "user_changed")).
Proof.
  intros Hu Hc Tu Tc Ho Hpend.
  set (I := fun w : World =>
              sm_cache w !! CONFIG.AUTH_META
              = Some (Some (SMeta AuthManager.default_meta))
              /\ forall e, pendingAuthRequest w <> Some (Throw e)).
  set (Q := fun r : Res JsVal =>
              exists res,
                r = Ok (JObj res)
                /\ assoc "shouldAuth" res = Some (JBool true)
                /\ (assoc "reason" res = Some (JStr "no_token")
                    \/ assoc "reason" res = Some (JStr "user_changed"))).
  assert (HI : forall n w0, I w0 -> I (others n w0)).
  { intros n w0 [H1 H2]. destruct (Ho n w0) as [E1 E2].
    split; [by rewrite E1 | by apply E2]. }
  unfold Async.forceReauth, Async.setAuthMeta, Async.set, lift.
  cbn [tbind interleave].
  unfold StorageManager.set at 1, modify. cbn [tbind].
  apply (interleave_guarantees I (fun _ => True) Q others _ 1%nat _ HI).
  2:{ destruct (Ho 0%nat) with
        (w := with_storage
                (<[CONFIG.AUTH_META := SMeta AuthManager.default_meta]>
                   (storage w)) [CONFIG.AUTH_META]
                (with_sm_cache
                   (<[CONFIG.AUTH_META := Some (SMeta AuthManager.default_meta)]>
                      (sm_cache w)) w)) as [E1 E2].
      split; [|by apply E2].
      unfold AuthManager.default_meta in *. rewrite E1.
      apply lookup_insert_eq. }
  apply guarantees_sync; [done|]. intros w1 [H1 H2].
  split.
  { split; [|exact H2].
    cbn [sm_cache with_sm_cache with_cache].
    by rewrite lookup_delete_ne. }
  unfold Async.handleAuthRequest.
  apply guarantees_ttry, guarantees_sync; [done|].
  intros w2 Hw2. unfold bind. cbn [prop ret]. rewrite Hu, Hc.
  split; [exact Hw2|]. cbn [default]. unfold id. rewrite Tu, Tc.
  cbn [negb orb].
  apply (guarantees_tbind I _ (fun r => exists token, r = Ok token)); [done|..].
  { unfold Async.getToken.
    apply (guarantees_tbind I _ (fun r => exists v, r = Ok v /\ True));
      [done|..].
    - apply guarantees_get; [|done].
      intros w3 w4 _ _ [H3 H4]. split; [|done]. split; [|exact H4].
      cbn [sm_cache with_sm_cache]. by rewrite lookup_insert_ne.
    - intros v _. by eexists.
    - intros e [v [Hv _]]. discriminate Hv. }
  2:{ intros e [v Hv]. discriminate Hv. }
  intros token _.
  apply (guarantees_tbind I _
           (fun r => r = Ok AuthManager.default_meta)); [done|..].
  { unfold Async.getAuthMeta.
    apply (guarantees_tbind I _
             (fun r => exists v, r = Ok v
                         /\ v = Some (SMeta AuthManager.default_meta)));
      [done|..].
    - apply guarantees_get.
      + intros w3 w4 [H3 _] E. congruence.
      + intros w3 v [H3 _] E. congruence.
    - intros v [v' [[= <-] ->]]. reflexivity.
    - intros e [v [Hv _]]. discriminate Hv. }
  2:{ intros e He. discriminate He. }
  intros meta [= ->].
  apply guarantees_sync; [done|]. intros w3 [H3 H4].
  cbn [Date_now gets]. split; [by split|].
  destruct (shouldPerformAuth_after_reset (now w3) token user csrf Tu Tc)
    as [Hd Hr].
  change (shouldAuth (shouldPerformAuth (now w3) token
                        AuthManager.default_meta user csrf) = true) in Hd.
  rewrite Hd. cbn [negb].
  unfold lift. cbn [tbind]. rewrite guarantees_Block. intros w4 [_ H5].
  destruct (performAuthentication_returns env fs user csrf w4 Hu Hc H5)
    as (v & w5 & Ep).
  rewrite Ep. cbn [tbind]. split; [done|]. split; [|by eexists].
  eexists. split; [reflexivity|].
  unfold spread. cbn [fold_left]. split.
  - rewrite assoc_obj_set_ne by discriminate. apply assoc_obj_set_eq.
  - rewrite assoc_obj_set_eq.
    change (reason (shouldPerformAuth (now w3) token
                      AuthManager.default_meta user csrf) = no_token
            \/ reason (shouldPerformAuth (now w3) token
                         AuthManager.default_meta user csrf) = user_changed)
      in Hr.
    destruct Hr as [-> | ->]; auto.
Qed.

(** C9, on the code.  [forceReauth] awaits the storage write of the reset
    metadata before it clears the caches and handles the request.  When an
    authentication of the same user completes during this await, that is,
    [_executeAuth] has stored the token of the API and goes on to record
    its success, the metadata of the success replace the reset metadata.
    The forced request, for a non-empty [currentUser] and [csrfToken], is
    then answered [shouldAuth: false] with reason [throttled] and the
    stored token; no request is made to the API, and the store holds the
    metadata of the authentication that completed, not the reset ones. *)
Theorem forceReauth_throttled
    (env : Env) (user csrf : string) (tok : JsVal) (startTime : Z)
    (w : World) :
  user <> "" -> csrf <> "" -> truthy tok = true ->
  storage w !! CONFIG.TOKEN = Some (SJs tok) ->
  let authData :=
    JObj [("currentUser", JStr user); ("csrfToken", JStr csrf)] in
  let finishing :=
    Async.executeAuth_finish (JStr user) (JStr csrf) startTime tok in
  exists w',
    interleave (first_gap (turn finishing)) 0
      (Async.forceReauth env authData) w
    = (Ok (JObj [("success", JBool true); ("shouldAuth", JBool false);
                 ("reason", JStr "throttled"); ("token", tok)]), w')
    /\ requests w' = requests w
    /\ storage w' !! CONFIG.AUTH_META
       = Some (SMeta {| lastTime := now w; lastUser := JStr user;
                        lastCsrf := JStr csrf; lastAttempt := startTime;
                        failureCount := 0 |}).
Proof.
  intros Hu Hc Tt Hs authData finishing. subst authData.
  set (meta := {| lastTime := now w; lastUser := JStr user;
                  lastCsrf := JStr csrf; lastAttempt := startTime;
                  failureCount := 0 |}).
  set (reset := snd (AuthManager.setAuthMeta AuthManager.default_meta w)).
  set (w1 := snd (AuthManager.setAuthMeta meta reset)).
  assert (E1 : turn finishing reset = w1) by reflexivity.
  unfold Async.forceReauth, Async.setAuthMeta, Async.set, lift.
  cbn [tbind interleave].
  change (StorageManager.set CONFIG.AUTH_META
            (SMeta {| lastTime := 0; lastUser := JNull; lastCsrf := JNull;
                      lastAttempt := 0; failureCount := 0 |}) w)
    with (Ok tt, reset).
  cbn [tbind interleave first_gap]. rewrite E1.
  rewrite interleave_quiet by (intros [|m] w0 Hm; [lia | reflexivity]).
  rewrite atomic_sync. unfold bind.
  set (w2 := with_sm_cache (delete CONFIG.TOKEN (sm_cache w1))
               (with_cache (Cache.clear (cache w1)) w1)).
  change (Cache_clear w1) with (Ok tt, with_cache (Cache.clear (cache w1)) w1).
  cbv beta iota.
  change (StorageManager.invalidate CONFIG.TOKEN
            (with_cache (Cache.clear (cache w1)) w1)) with (Ok tt, w2).
  cbv beta iota. rewrite atomic_handleAuthRequest.
  rewrite (handleAuthRequest_skipped env user csrf tok meta w2);
    try done.
  - eexists. split; [reflexivity|]. split; [reflexivity|].
    apply lookup_insert_eq.
  - apply lookup_delete_eq.
  - cbn [w2 w1 reset storage with_sm_cache with_cache snd
         AuthManager.setAuthMeta StorageManager.set modify with_storage].
    by rewrite !lookup_insert_ne.
  - cbn [w2 w1 reset sm_cache with_sm_cache with_cache snd
         AuthManager.setAuthMeta StorageManager.set modify with_storage].
    rewrite lookup_delete_ne by done. apply lookup_insert_eq.
  - change (now w2) with (now w). cbn [meta lastTime]. lia.
Qed.

Lemma forceReauth_throttled_witness :
  exists w',
    interleave
      (first_gap
         (turn (Async.executeAuth_finish (JStr "bob") (JStr "x1") 100
                  (JStr "tok"))))
      0
      (Async.forceReauth healthy_api
         (JObj [("currentUser", JStr "bob"); ("csrfToken", JStr "x1")]))
      (snd (AuthManager.setToken (JStr "tok") (initial_world 120)))
    = (Ok (JObj [("success", JBool true); ("shouldAuth", JBool false);
                 ("reason", JStr "throttled"); ("token", JStr "tok")]), w')
    /\ requests w' = []
    /\ storage w' !! CONFIG.AUTH_META
       = Some (SMeta {| lastTime := 120; lastUser := JStr "bob";
                        lastCsrf := JStr "x1"; lastAttempt := 100;
                        failureCount := 0 |}).
Proof.
  apply (forceReauth_throttled healthy_api "bob" "x1" (JStr "tok") 100
           (snd (AuthManager.setToken (JStr "tok") (initial_world 120))));
    try discriminate; reflexivity.
Defined.
